(** * Sleuth Kit FAT / Registry parsers: shallow embedding and properties

    Sources embedded here:
    - [tsk3/fs/fatfs.c]: [getFATCacheIdx], [fatfs_getFAT],
      [fatfs_is_clustalloc], [fatfs_is_sectalloc], [fatfs_block_getflags],
      [fatfs_block_walk], and the geometry part of [fatfs_open];
    - [tsk3/fs/regfs.c]: [reg_load_cell], [reg_block_walk],
      [reg_block_getflags], [nt2unixtime], [nt2nano], [reg_file_add_meta],
      and the range fields set by [regfs_open].

    Conventions.  C unsigned 64-bit values ([TSK_DADDR_T], [TSK_INUM_T]) are
    [Z] with the wrap-around written as [u64]; arrays are lists read with
    stdpp's [!!] and written with [<[i:=x]>]; the process-wide [tsk_errno] is
    returned as an explicit error value. *)

From Stdlib Require Import ZArith Lia Bool.
From Stdlib.Strings Require Import Byte.
From stdpp Require Import base list.

Local Open Scope Z_scope.

(** ** Machine integers *)

Definition u8 (x : Z) : Z := x mod 2 ^ 8.
Definition u16 (x : Z) : Z := x mod 2 ^ 16.
Definition u32 (x : Z) : Z := x mod 2 ^ 32.
Definition u64 (x : Z) : Z := x mod 2 ^ 64.

(** Two's-complement reading of a 32-bit pattern ([int32_t] cast). *)
Definition s32 (x : Z) : Z :=
  let y := u32 x in if y <? 2 ^ 31 then y else y - 2 ^ 32.

Definition byte_val (b : byte) : Z := Z.of_N (Byte.to_N b).

(** [buf[i]] for a C byte buffer; past the end of the list the model reads 0
    (the C program would read out of bounds there). *)
Definition buf_get (buf : list byte) (i : Z) : Z :=
  if i <? 0 then 0
  else match buf !! Z.to_nat i with
       | Some b => byte_val b
       | None => 0
       end.

Inductive TSK_ENDIAN_ENUM := TSK_LIT_ENDIAN | TSK_BIG_ENDIAN.

(** Modelled from the spec: the macros [tsk_getu16], [tsk_getu32] and
    [tsk_gets32] of tsk_base.h, which is not among the sources.  Section 6
    has the FAT entries and the cell length as little-endian 16- and 32-bit
    values; the macros assemble the bytes at [p], [p+1], ... in the byte
    order given, most significant byte first when it is big-endian. *)
Definition tsk_getu16 (e : TSK_ENDIAN_ENUM) (buf : list byte) (p : Z) : Z :=
  match e with
  | TSK_LIT_ENDIAN => Z.lor (buf_get buf p) (Z.shiftl (buf_get buf (p + 1)) 8)
  | TSK_BIG_ENDIAN => Z.lor (buf_get buf (p + 1)) (Z.shiftl (buf_get buf p) 8)
  end.

Definition tsk_getu32 (e : TSK_ENDIAN_ENUM) (buf : list byte) (p : Z) : Z :=
  match e with
  | TSK_LIT_ENDIAN =>
      Z.lor (Z.lor (buf_get buf p) (Z.shiftl (buf_get buf (p + 1)) 8))
            (Z.lor (Z.shiftl (buf_get buf (p + 2)) 16)
                   (Z.shiftl (buf_get buf (p + 3)) 24))
  | TSK_BIG_ENDIAN =>
      Z.lor (Z.lor (buf_get buf (p + 3)) (Z.shiftl (buf_get buf (p + 2)) 8))
            (Z.lor (Z.shiftl (buf_get buf (p + 1)) 16)
                   (Z.shiftl (buf_get buf p) 24))
  end.

Definition tsk_gets32 (e : TSK_ENDIAN_ENUM) (buf : list byte) (p : Z) : Z :=
  s32 (tsk_getu32 e buf p).

(** ** Shared framework types *)

Inductive TSK_FS_TYPE_ENUM :=
| TSK_FS_TYPE_FAT12
| TSK_FS_TYPE_FAT16
| TSK_FS_TYPE_FAT32
| TSK_FS_TYPE_FAT_DETECT
| TSK_FS_TYPE_REG
| TSK_FS_TYPE_UNSUPP.

Definition TSK_FS_TYPE_ISFAT (t : TSK_FS_TYPE_ENUM) : bool :=
  match t with
  | TSK_FS_TYPE_FAT12 | TSK_FS_TYPE_FAT16 | TSK_FS_TYPE_FAT32
  | TSK_FS_TYPE_FAT_DETECT => true
  | _ => false
  end.

(** The values [tsk_errno] takes in the embedded functions.  [TSK_ERR_KEPT]
    stands for "left as the failing callee set it" (a negative count from the
    image reader: the callers then do not overwrite [tsk_errno]). *)
Inductive TSK_ERR :=
| TSK_ERR_FS_ARG
| TSK_ERR_FS_READ
| TSK_ERR_FS_WALK_RNG
| TSK_ERR_FS_BLK_NUM
| TSK_ERR_FS_INODE_COR
| TSK_ERR_FS_MAGIC
| TSK_ERR_KEPT.

Inductive TSK_WALK_RET_ENUM := TSK_WALK_CONT | TSK_WALK_STOP | TSK_WALK_ERROR.

(** Block flags ([TSK_FS_BLOCK_FLAG_ENUM]) and walk flags
    ([TSK_FS_BLOCK_WALK_FLAG_ENUM]): constants of tsk_fs.h, which is not
    among the sources.  The functions below only combine them and test them
    as distinct bits. *)
Definition TSK_FS_BLOCK_FLAG_ALLOC : Z := 0x01.
Definition TSK_FS_BLOCK_FLAG_UNALLOC : Z := 0x02.
Definition TSK_FS_BLOCK_FLAG_CONT : Z := 0x04.
Definition TSK_FS_BLOCK_FLAG_META : Z := 0x08.
Definition TSK_FS_BLOCK_FLAG_RAW : Z := 0x20.

Definition TSK_FS_BLOCK_WALK_FLAG_ALLOC : Z := 0x01.
Definition TSK_FS_BLOCK_WALK_FLAG_UNALLOC : Z := 0x02.
Definition TSK_FS_BLOCK_WALK_FLAG_CONT : Z := 0x04.
Definition TSK_FS_BLOCK_WALK_FLAG_META : Z := 0x08.

(** [flags & bit] used as a C condition. *)
Definition has_flag (flags bit : Z) : bool := negb (Z.land flags bit =? 0).

Record TSK_FS_INFO := mkFsInfo {
  ftype : TSK_FS_TYPE_ENUM;
  endian : TSK_ENDIAN_ENUM;
  block_size : Z;
  first_block : Z;
  last_block : Z;
  last_block_act : Z;
  first_inum : Z;
  last_inum : Z
}.

(** The block view handed to a walk callback ([tsk_fs_block_set]). *)
Record TSK_FS_BLOCK := mkBlock {
  blk_addr : Z;
  blk_flags : Z;
  blk_buf : list byte
}.

(** Modelled from the spec: [tsk_fs_read_block] and [tsk_fs_block_set] of
    the framework (fs_io.c and fs_block.c are not among the sources).  Section
    6 gives their contracts: [read_block(fs, blk, buf, len)] is the bounded
    read of [len] bytes at block [blk], that is at byte [blk * block_size]
    (section 4.8), and [block_set(fs, block, addr, flags, data_ptr)] fills the
    block view with one block of data and reports success (0). *)
Definition tsk_fs_read_block (tsk_fs_read : Z -> Z -> list byte -> Z * list byte)
    (fs : TSK_FS_INFO) (addr len : Z) (buf : list byte) : Z * list byte :=
  tsk_fs_read (addr * block_size fs) len buf.

Definition tsk_fs_block_set (fs : TSK_FS_INFO) (addr flags : Z)
    (data : list byte) : Z * TSK_FS_BLOCK :=
  (0, mkBlock addr flags (take (Z.to_nat (block_size fs)) data)).

(** A buffer from [tsk_malloc]: [n] zero bytes.  Its contents are only what
    a reader that writes less than asked leaves behind. *)
Definition tsk_malloc (n : Z) : list byte := replicate (Z.to_nat n) x00.

(** How a loop body of a walk ends: go on with the next address, or return
    from the walk with a value. *)
Inductive loop_exit (A : Type) :=
| LoopNext (addr : Z) (a : A)
| LoopReturn (ret : Z) (a : A).
Arguments LoopNext {A} addr a.
Arguments LoopReturn {A} ret a.

(** The [len] bytes of an image from byte [off] on, the image given as the
    byte found at each offset. *)
Definition image_bytes (image : Z -> byte) (off len : Z) : list byte :=
  image <$> seqZ off len.

(** ** FAT *)

Module Fatfs.

(** Modelled from the spec: the masks of tsk_fatfs.h, which is not among the
    sources; section 3 lists them as 0x0FFF, 0xFFFF and 0x0FFFFFFF, and
    section 4.4 has FREE as successor 0. *)
Definition FATFS_12_MASK : Z := 0x00000fff.
Definition FATFS_16_MASK : Z := 0x0000ffff.
Definition FATFS_32_MASK : Z := 0x0fffffff.
Definition FATFS_UNALLOC : Z := 0.

Record FATFS_INFO := mkFatfs {
  fs_info : TSK_FS_INFO;
  fatc_buf : list (list byte);
  fatc_addr : list Z;
  fatc_ttl : list Z;
  firstfatsect : Z;
  firstdatasect : Z;
  firstclustsect : Z;
  clustcnt : Z;
  lastclust : Z;
  rootsect : Z;
  ssize : Z;
  ssize_sh : Z;
  csize : Z;
  numfat : Z;
  sectperfat : Z;
  numroot : Z;
  mask : Z
}.

(** Writes to the three cache arrays. *)
Definition set_cache (f : FATFS_INFO) (bufs : list (list byte))
    (addrs ttls : list Z) : FATFS_INFO :=
  mkFatfs (fs_info f) bufs addrs ttls (firstfatsect f) (firstdatasect f)
    (firstclustsect f) (clustcnt f) (lastclust f) (rootsect f) (ssize f)
    (ssize_sh f) (csize f) (numfat f) (sectperfat f) (numroot f) (mask f).

Definition set_fatc_buf (f : FATFS_INFO) (bufs : list (list byte)) :=
  set_cache f bufs (fatc_addr f) (fatc_ttl f).

(** Two states with the same geometry (the cache never writes it). *)
Definition same_geometry (f f' : FATFS_INFO) : Prop :=
  fs_info f' = fs_info f /\ lastclust f' = lastclust f
  /\ clustcnt f' = clustcnt f /\ firstclustsect f' = firstclustsect f
  /\ csize f' = csize f /\ ssize f' = ssize f /\ ssize_sh f' = ssize_sh f
  /\ firstfatsect f' = firstfatsect f.

Section Cache.

(** Constants of [tsk_fatfs.h] (not among the sources): number of cache slots,
    sectors per slot, bytes per slot. *)
Variable FAT_CACHE_N : nat.
Variable FAT_CACHE_S : Z.
Variable FAT_CACHE_B : Z.

(** [tsk_fs_read(fs, off, buf, len)] of the framework: given the byte offset,
    the length and the buffer's old contents, the count returned and the
    buffer's contents afterwards. *)
Variable tsk_fs_read : Z -> Z -> list byte -> Z * list byte.

(** Hit test of slot [i] (fatfs.c:72-74). *)
Definition slot_covers (f : FATFS_INFO) (sect : Z) (i : nat) : bool :=
  match fatc_ttl f !! i, fatc_addr f !! i with
  | Some t, Some a =>
      (0 <? t) && (a <=? sect) && (sect <? u64 (a + FAT_CACHE_S))
  | _, _ => false
  end.

(** One iteration of the TTL update loops (fatfs.c:78-84 and 124-130): slot
    [a] ages by one when it is in use and younger than slot [i]. *)
Definition age_step (i : nat) (ttl : list Z) (a : nat) : list Z :=
  match ttl !! a, ttl !! i with
  | Some ta, Some ti =>
      if ta =? 0 then ttl
      else if ta <? ti then <[a := ta + 1]> ttl else ttl
  | _, _ => ttl
  end.

Definition age_loop (i : nat) (ttl : list Z) : list Z :=
  foldl (age_step i) ttl (seq 0 FAT_CACHE_N).

(** Victim search (fatfs.c:96-102): the last slot that is unused or has a TTL
    of at least [FAT_CACHE_N]; slot 0 when the loop never assigns. *)
Definition victim_step (ttl : list Z) (cidx i : nat) : nat :=
  match ttl !! i with
  | Some t => if (t =? 0) || (Z.of_nat FAT_CACHE_N <=? t) then i else cidx
  | None => cidx
  end.

Definition find_victim (ttl : list Z) : nat :=
  foldl (victim_step ttl) 0%nat (seq 0 FAT_CACHE_N).

(** [getFATCacheIdx] (fatfs.c:63-135).  The C function returns the slot index
    or -1; here [inr cidx] or [inl errno].  The state is returned in both
    cases, since a failed read may already have written into the victim's
    buffer. *)
Definition getFATCacheIdx (f : FATFS_INFO) (sect : Z)
    : FATFS_INFO * (TSK_ERR + nat) :=
  match List.find (slot_covers f sect) (seq 0 FAT_CACHE_N) with
  | Some i =>
      let ttl := <[i := 1]> (age_loop i (fatc_ttl f)) in
      (set_cache f (fatc_buf f) (fatc_addr f) ttl, inr i)
  | None =>
      let cidx := find_victim (fatc_ttl f) in
      let '(cnt, buf) :=
        tsk_fs_read (u64 (sect * block_size (fs_info f))) FAT_CACHE_B
          (default [] (fatc_buf f !! cidx)) in
      let bufs := <[cidx := buf]> (fatc_buf f) in
      if negb (cnt =? FAT_CACHE_B) then
        (set_fatc_buf f bufs,
         inl (if 0 <=? cnt then TSK_ERR_FS_READ else TSK_ERR_KEPT))
      else
        let ttl0 :=
          match fatc_ttl f !! cidx with
          | Some 0 => <[cidx := Z.of_nat FAT_CACHE_N + 1]> (fatc_ttl f)
          | _ => fatc_ttl f
          end in
        let ttl := <[cidx := 1]> (age_loop cidx ttl0) in
        (set_cache f bufs (<[cidx := sect]> (fatc_addr f)) ttl, inr cidx)
  end.

(** [fatfs->fatc_buf[cidx]] and [fatfs->fatc_addr[cidx]].  [cidx] comes from
    [getFATCacheIdx] and is a slot index; the defaults are never read for a
    cache of [FAT_CACHE_N] slots. *)
Definition slot_buf (f : FATFS_INFO) (cidx : nat) : list byte :=
  default [] (fatc_buf f !! cidx).
Definition slot_addr (f : FATFS_INFO) (cidx : nat) : Z :=
  default 0 (fatc_addr f !! cidx).

(** FAT12 case up to the odd-cluster shift (fatfs.c:190-235): locate the
    entry, load its sector through the cache, reload the slot when the two
    bytes straddle its end, and read [tmp16].  [ssize] is not 0 after a
    successful open (the C [%] is undefined there). *)
Definition getFAT12_raw (f : FATFS_INFO) (clust : Z)
    : FATFS_INFO * (TSK_ERR + Z) :=
  let fs := fs_info f in
  let bidx := u64 (clust + Z.shiftr clust 1) in
  let sect := u64 (firstfatsect f + Z.shiftr bidx (ssize_sh f)) in
  match getFATCacheIdx f sect with
  | (f1, inl e) => (f1, inl e)
  | (f1, inr cidx) =>
      let offs :=
        u64 (u64 (Z.shiftl (u64 (sect - slot_addr f1 cidx)) (ssize_sh f1))
             + bidx mod ssize f1) in
      let reloaded : FATFS_INFO * (TSK_ERR + Z) :=
        if offs =? FAT_CACHE_B - 1 then
          let '(cnt, buf) :=
            tsk_fs_read (u64 (sect * block_size fs)) FAT_CACHE_B
              (slot_buf f1 cidx) in
          let f2 := set_fatc_buf f1 (<[cidx := buf]> (fatc_buf f1)) in
          if negb (cnt =? FAT_CACHE_B) then
            (f2, inl (if 0 <=? cnt then TSK_ERR_FS_READ else TSK_ERR_KEPT))
          else
            (set_cache f2 (fatc_buf f2) (<[cidx := sect]> (fatc_addr f2))
               (fatc_ttl f2),
             inr (bidx mod ssize f1))
        else (f1, inr offs) in
      match reloaded with
      | (f3, inl e) => (f3, inl e)
      | (f3, inr offs') =>
          let tmp16 := tsk_getu16 (endian fs) (slot_buf f3 cidx) offs' in
          (f3, inr (if negb (Z.land clust 1 =? 0) then Z.shiftr tmp16 4
                    else tmp16))
      end
  end.

(** FAT16 case up to the 16-bit read (fatfs.c:252-262). *)
Definition getFAT16_raw (f : FATFS_INFO) (clust : Z)
    : FATFS_INFO * (TSK_ERR + Z) :=
  let fs := fs_info f in
  let sect :=
    u64 (firstfatsect f + Z.shiftr (u64 (Z.shiftl clust 1)) (ssize_sh f)) in
  match getFATCacheIdx f sect with
  | (f1, inl e) => (f1, inl e)
  | (f1, inr cidx) =>
      let offs :=
        u64 (u64 (Z.shiftl (u64 (sect - slot_addr f1 cidx)) (ssize_sh f1))
             + u64 (Z.shiftl clust 1) mod ssize f1) in
      (f1, inr (tsk_getu16 (endian fs) (slot_buf f1 cidx) offs))
  end.

(** FAT32 case up to the 32-bit read (fatfs.c:276-286). *)
Definition getFAT32_raw (f : FATFS_INFO) (clust : Z)
    : FATFS_INFO * (TSK_ERR + Z) :=
  let fs := fs_info f in
  let sect :=
    u64 (firstfatsect f + Z.shiftr (u64 (Z.shiftl clust 2)) (ssize_sh f)) in
  match getFATCacheIdx f sect with
  | (f1, inl e) => (f1, inl e)
  | (f1, inr cidx) =>
      let offs :=
        u64 (u64 (Z.shiftl (u64 (sect - slot_addr f1 cidx)) (ssize_sh f1))
             + u64 (Z.shiftl clust 2) mod ssize f1) in
      (f1, inr (tsk_getu32 (endian fs) (slot_buf f1 cidx) offs))
  end.

(** The "sanity check" after each read (fatfs.c:239-248, 264-272, 288-297):
    a masked entry above the last cluster and below the reserved values of
    the flavour is reset to 0. *)
Definition clamp_entry (f : FATFS_INFO) (msk value : Z) : Z :=
  if (lastclust f <? value) && (value <? Z.land 0x0ffffff7 msk) then 0
  else value.

(** [fatfs_getFAT] (fatfs.c:150-307).  Result: the state after the call,
    [None] for return 0 or [Some errno] for return 1, and the contents of
    [*value] after the call ([value] is its contents before). *)
Definition fatfs_getFAT (f : FATFS_INFO) (clust value : Z)
    : FATFS_INFO * option TSK_ERR * Z :=
  if lastclust f <? clust then
    if (clust =? u64 (lastclust f + 1)) &&
       negb (u64 (firstclustsect f + u64 (csize f * clustcnt f) - 1)
             =? last_block (fs_info f))
    then (f, None, value)
    else (f, Some TSK_ERR_FS_ARG, value)
  else
    match ftype (fs_info f) with
    | TSK_FS_TYPE_FAT12 =>
        if negb (Z.land clust 0xf000 =? 0) then (f, Some TSK_ERR_FS_ARG, value)
        else
          match getFAT12_raw f clust with
          | (f', inl e) => (f', Some e, value)
          | (f', inr tmp16) =>
              (f', None, clamp_entry f' FATFS_12_MASK (Z.land tmp16 FATFS_12_MASK))
          end
    | TSK_FS_TYPE_FAT16 =>
        match getFAT16_raw f clust with
        | (f', inl e) => (f', Some e, value)
        | (f', inr v) =>
            (f', None, clamp_entry f' FATFS_16_MASK (Z.land v FATFS_16_MASK))
        end
    | TSK_FS_TYPE_FAT32 =>
        match getFAT32_raw f clust with
        | (f', inl e) => (f', Some e, value)
        | (f', inr v) =>
            (f', None, clamp_entry f' FATFS_32_MASK (Z.land v FATFS_32_MASK))
        end
    | _ => (f, Some TSK_ERR_FS_ARG, value)
    end.

(** The entry a successful lookup reads from the cached FAT sector, before
    masking: the dispatch of [fatfs_getFAT]'s switch on the three reads. *)
Definition fat_raw_entry (f : FATFS_INFO) (clust : Z)
    : FATFS_INFO * (TSK_ERR + Z) :=
  match ftype (fs_info f) with
  | TSK_FS_TYPE_FAT12 => getFAT12_raw f clust
  | TSK_FS_TYPE_FAT16 => getFAT16_raw f clust
  | TSK_FS_TYPE_FAT32 => getFAT32_raw f clust
  | _ => (f, inl TSK_ERR_FS_ARG)
  end.

Definition fat_mask (t : TSK_FS_TYPE_ENUM) : Z :=
  match t with
  | TSK_FS_TYPE_FAT12 => FATFS_12_MASK
  | TSK_FS_TYPE_FAT16 => FATFS_16_MASK
  | _ => FATFS_32_MASK
  end.

(** The local [content] of [fatfs_is_clustalloc] is not initialised; its
    indeterminate value is a parameter of the model. *)
Variable uninit_content : Z.

(** [fatfs_is_clustalloc] (fatfs.c:311-321): 1 allocated, 0 unallocated, -1
    error. *)
Definition fatfs_is_clustalloc (f : FATFS_INFO) (clust : Z)
    : FATFS_INFO * Z :=
  match fatfs_getFAT f clust uninit_content with
  | (f', Some _, _) => (f', -1)
  | (f', None, content) =>
      if content =? FATFS_UNALLOC then (f', 0) else (f', 1)
  end.

(** Modelled from the spec: the macros [FATFS_SECT_2_CLUST] and
    [FATFS_CLUST_2_SECT] of tsk_fatfs.h, which is not among the sources.
    Cluster indices start at 2 at [firstclustsect] and a cluster is [csize]
    sectors (glossary and section 4.6: the walk aligns an address down to the
    first sector of its cluster). *)
Definition FATFS_SECT_2_CLUST (f : FATFS_INFO) (s : Z) : Z :=
  u64 (2 + u64 (s - firstclustsect f) / csize f).
Definition FATFS_CLUST_2_SECT (f : FATFS_INFO) (c : Z) : Z :=
  u64 (firstclustsect f + u64 (c - 2) * csize f).

(** [fatfs_is_sectalloc] (fatfs.c:332-348). *)
Definition fatfs_is_sectalloc (f : FATFS_INFO) (sect : Z) : FATFS_INFO * Z :=
  if sect <? firstclustsect f then (f, 1)
  else if (sect <=? last_block (fs_info f)) &&
          (u64 (firstclustsect f + u64 (csize f * clustcnt f)) <=? sect)
  then (f, 0)
  else fatfs_is_clustalloc f (FATFS_SECT_2_CLUST f sect).

(** [fatfs_block_getflags] (fatfs.c:353-381). *)
Definition fatfs_block_getflags (f : FATFS_INFO) (a_addr : Z)
    : FATFS_INFO * Z :=
  if a_addr <? firstdatasect f then
    (f, Z.lor TSK_FS_BLOCK_FLAG_META TSK_FS_BLOCK_FLAG_ALLOC)
  else if a_addr <? firstclustsect f then
    (f, Z.lor TSK_FS_BLOCK_FLAG_CONT TSK_FS_BLOCK_FLAG_ALLOC)
  else
    let '(f', retval) := fatfs_is_sectalloc f a_addr in
    if retval =? -1 then (f', TSK_FS_BLOCK_FLAG_CONT)
    else if retval =? 1 then
      (f', Z.lor TSK_FS_BLOCK_FLAG_CONT TSK_FS_BLOCK_FLAG_ALLOC)
    else (f', Z.lor TSK_FS_BLOCK_FLAG_CONT TSK_FS_BLOCK_FLAG_UNALLOC).

Section Walk.

Context {A : Type}.
Variable a_action : TSK_FS_BLOCK -> A -> TSK_WALK_RET_ENUM * A.
Variables (a_start_blk a_end_blk a_flags : Z).

(** Inner loop of the pre-data area (fatfs.c:495-534): at most 8 sectors of
    one burst, [n] iterations left, [i] the index in the burst. *)
Fixpoint predata_burst (f : FATFS_INFO) (n : nat) (i addr : Z)
    (data_buf : list byte) (a : A) : loop_exit A :=
  match n with
  | O => LoopNext addr a
  | Datatypes.S n' =>
      if (addr <=? a_end_blk) && (addr <? firstclustsect f) then
        let myflags :=
          if addr <? firstdatasect f
          then Z.lor TSK_FS_BLOCK_FLAG_ALLOC TSK_FS_BLOCK_FLAG_META
          else Z.lor TSK_FS_BLOCK_FLAG_ALLOC TSK_FS_BLOCK_FLAG_CONT in
        if has_flag myflags TSK_FS_BLOCK_FLAG_META &&
           negb (has_flag a_flags TSK_FS_BLOCK_WALK_FLAG_META)
        then predata_burst f n' (i + 1) (u64 (addr + 1)) data_buf a
        else if has_flag myflags TSK_FS_BLOCK_FLAG_CONT &&
                negb (has_flag a_flags TSK_FS_BLOCK_WALK_FLAG_CONT)
        then predata_burst f n' (i + 1) (u64 (addr + 1)) data_buf a
        else
          let '(_, fs_block) :=
            tsk_fs_block_set (fs_info f) addr
              (Z.lor myflags TSK_FS_BLOCK_FLAG_RAW)
              (drop (Z.to_nat (i * block_size (fs_info f))) data_buf) in
          match a_action fs_block a with
          | (TSK_WALK_STOP, a') => LoopReturn 0 a'
          | (TSK_WALK_ERROR, a') => LoopReturn 1 a'
          | (TSK_WALK_CONT, a') =>
              predata_burst f n' (i + 1) (u64 (addr + 1)) data_buf a'
          end
      else LoopNext addr a
  end.

(** Outer loop of the pre-data area (fatfs.c:476-535): bursts of 8 sectors.
    [None] only when the fuel runs out. *)
Fixpoint predata_loop (f : FATFS_INFO) (fuel : nat) (addr : Z)
    (data_buf : list byte) (a : A) : option (loop_exit A) :=
  match fuel with
  | O => None
  | Datatypes.S k =>
      if (addr <? firstclustsect f) && (addr <=? a_end_blk) then
        let '(cnt, buf) :=
          tsk_fs_read_block tsk_fs_read (fs_info f) addr
            (block_size (fs_info f) * 8) data_buf in
        if negb (cnt =? block_size (fs_info f) * 8) then Some (LoopReturn 1 a)
        else
          match predata_burst f 8 0 addr buf a with
          | LoopReturn r a' => Some (LoopReturn r a')
          | LoopNext addr' a' => predata_loop f k addr' buf a'
          end
      else Some (LoopNext addr a)
  end.

(** Sectors of one cluster (fatfs.c:624-647). *)
Fixpoint cluster_sectors (f : FATFS_INFO) (n : nat) (i addr myflags : Z)
    (data_buf : list byte) (a : A) : loop_exit A :=
  match n with
  | O => LoopNext addr a
  | Datatypes.S n' =>
      if u64 (addr + i) <? a_start_blk then
        cluster_sectors f n' (i + 1) addr myflags data_buf a
      else if a_end_blk <? u64 (addr + i) then LoopNext addr a
      else
        let '(_, fs_block) :=
          tsk_fs_block_set (fs_info f) (u64 (addr + i))
            (Z.lor myflags TSK_FS_BLOCK_FLAG_RAW)
            (drop (Z.to_nat (i * block_size (fs_info f))) data_buf) in
        match a_action fs_block a with
        | (TSK_WALK_STOP, a') => LoopReturn 0 a'
        | (TSK_WALK_ERROR, a') => LoopReturn 1 a'
        | (TSK_WALK_CONT, a') =>
            cluster_sectors f n' (i + 1) addr myflags data_buf a'
        end
  end.

(** Cluster loop of the data area (fatfs.c:570-648). *)
Fixpoint data_loop (fuel : nat) (f : FATFS_INFO) (addr : Z)
    (data_buf : list byte) (a : A) : option (FATFS_INFO * Z * A) :=
  match fuel with
  | O => None
  | Datatypes.S k =>
      if addr <=? a_end_blk then
        let '(f1, retval) := fatfs_is_sectalloc f addr in
        if retval =? -1 then Some (f1, 1, a)
        else
          let myflags :=
            Z.lor (if retval =? 1 then TSK_FS_BLOCK_FLAG_ALLOC
                   else TSK_FS_BLOCK_FLAG_UNALLOC) TSK_FS_BLOCK_FLAG_CONT in
          let next := u64 (addr + csize f1) in
          if has_flag myflags TSK_FS_BLOCK_FLAG_CONT &&
             negb (has_flag a_flags TSK_FS_BLOCK_WALK_FLAG_CONT)
          then data_loop k f1 next data_buf a
          else if has_flag myflags TSK_FS_BLOCK_FLAG_ALLOC &&
                  negb (has_flag a_flags TSK_FS_BLOCK_WALK_FLAG_ALLOC)
          then data_loop k f1 next data_buf a
          else if has_flag myflags TSK_FS_BLOCK_FLAG_UNALLOC &&
                  negb (has_flag a_flags TSK_FS_BLOCK_WALK_FLAG_UNALLOC)
          then data_loop k f1 next data_buf a
          else
            let read_size :=
              if u64 (a_end_blk - addr + 1) <? csize f1
              then u64 (a_end_blk - addr + 1) else csize f1 in
            let '(cnt, buf) :=
              tsk_fs_read_block tsk_fs_read (fs_info f1) addr
                (block_size (fs_info f1) * read_size) data_buf in
            if negb (cnt =? block_size (fs_info f1) * read_size)
            then Some (f1, 1, a)
            else
              match cluster_sectors f1 (Z.to_nat read_size) 0 addr myflags
                      buf a with
              | LoopReturn r a' => Some (f1, r, a')
              | LoopNext _ a' => data_loop k f1 next buf a'
              end
      else Some (f, 0, a)
  end.

End Walk.

(** [fatfs_block_walk] (fatfs.c:398-653).  Result: the state, the value
    returned (0 or 1) and the callback's data afterwards; [None] only if a
    loop ran out of the fuel computed from the range. *)
Definition fatfs_block_walk {A : Type} (f : FATFS_INFO)
    (a_start_blk a_end_blk a_flags : Z)
    (a_action : TSK_FS_BLOCK -> A -> TSK_WALK_RET_ENUM * A) (a_ptr : A)
    : option (FATFS_INFO * Z * A) :=
  let fs := fs_info f in
  if (a_start_blk <? first_block fs) || (last_block fs <? a_start_blk)
  then Some (f, 1, a_ptr)
  else if (a_end_blk <? first_block fs) || (last_block fs <? a_end_blk)
  then Some (f, 1, a_ptr)
  else
    let a_flags :=
      if (Z.land a_flags TSK_FS_BLOCK_WALK_FLAG_ALLOC =? 0) &&
         (Z.land a_flags TSK_FS_BLOCK_WALK_FLAG_UNALLOC =? 0)
      then Z.lor a_flags
             (Z.lor TSK_FS_BLOCK_WALK_FLAG_ALLOC TSK_FS_BLOCK_WALK_FLAG_UNALLOC)
      else a_flags in
    let a_flags :=
      if (Z.land a_flags TSK_FS_BLOCK_WALK_FLAG_META =? 0) &&
         (Z.land a_flags TSK_FS_BLOCK_WALK_FLAG_CONT =? 0)
      then Z.lor a_flags
             (Z.lor TSK_FS_BLOCK_WALK_FLAG_CONT TSK_FS_BLOCK_WALK_FLAG_META)
      else a_flags in
    let addr := a_start_blk in
    let predata : option (loop_exit A) :=
      if (a_start_blk <? firstclustsect f) &&
         has_flag a_flags TSK_FS_BLOCK_WALK_FLAG_ALLOC
      then
        match predata_loop a_action a_end_blk a_flags f
                (Datatypes.S (Datatypes.S (Z.to_nat (a_end_blk - a_start_blk))))
                addr (tsk_malloc (block_size fs * 8)) a_ptr with
        | None => None
        | Some (LoopReturn r a) => Some (LoopReturn r a)
        | Some (LoopNext addr' a) =>
            if a_end_blk <=? addr' then Some (LoopReturn 0 a)
            else Some (LoopNext addr' a)
        end
      else if addr <? firstclustsect f
      then Some (LoopNext (firstclustsect f) a_ptr)
      else Some (LoopNext addr a_ptr) in
    match predata with
    | None => None
    | Some (LoopReturn r a) => Some (f, r, a)
    | Some (LoopNext addr a) =>
        let addr := FATFS_CLUST_2_SECT f (FATFS_SECT_2_CLUST f addr) in
        data_loop a_action a_start_blk a_end_blk a_flags
          (Datatypes.S (Datatypes.S (Z.to_nat (a_end_blk - addr)))) f addr
          (tsk_malloc (block_size fs * csize f)) a
    end.

(** The cache loop of [fatfs_open] (fatfs.c:1604-1607): every slot gets
    address 0 and TTL 0. *)
Definition cache_init (f : FATFS_INFO) : FATFS_INFO :=
  set_cache f (fatc_buf f) (replicate FAT_CACHE_N 0) (replicate FAT_CACHE_N 0).

(** Cache states reached from the open-time state by calls of
    [getFATCacheIdx], together with the slot returned by the most recent
    successful call.  A failed call leaves the TTLs alone and is allowed in
    between. *)
Inductive cache_reachable : FATFS_INFO -> option nat -> Prop :=
| reach_open f : cache_reachable (cache_init f) None
| reach_acquire f last sect f' cidx :
    cache_reachable f last ->
    getFATCacheIdx f sect = (f', inr cidx) ->
    cache_reachable f' (Some cidx)
| reach_failed f last sect f' e :
    cache_reachable f last ->
    getFATCacheIdx f sect = (f', inl e) ->
    cache_reachable f' last.

(** What one TTL loop does to a slot of TTL [ta] when the slot being moved to
    the front has TTL [ti]. *)
Definition aged (ti ta : Z) : Z :=
  if ta =? 0 then ta else if ta <? ti then ta + 1 else ta.

(** The TTL array of a cache that holds [k] sectors is a one-to-one numbering
    of the used slots by 1..k; stated slot by slot. *)
Record ttl_inv (l : list Z) : Prop := mk_ttl_inv {
  inv_len : length l = FAT_CACHE_N;
  inv_range : forall (i : nat) t, l !! i = Some t -> 0 <= t <= Z.of_nat FAT_CACHE_N;
  inv_inj : forall (i j : nat) t,
      l !! i = Some t -> l !! j = Some t -> 0 < t -> i = j;
  inv_down : forall (i : nat) t v,
      l !! i = Some t -> 1 <= v < t -> exists j : nat, l !! j = Some v
}.

(** *** The cache against the image *)

(** The cache arrays have their [FAT_CACHE_N] entries, the TTLs number the
    slots in use, and the addresses are sector numbers. *)
Definition cache_wf (f : FATFS_INFO) : Prop :=
  ttl_inv (fatc_ttl f) /\
  length (fatc_addr f) = FAT_CACHE_N /\
  length (fatc_buf f) = FAT_CACHE_N /\
  forall (i : nat) a, fatc_addr f !! i = Some a -> 0 <= a.

Variable image : Z -> byte.

(** The reader delivers the image: a read that returns the full count has
    filled the buffer with the image's bytes at that offset. *)
Definition reads_image : Prop :=
  forall off len old,
    fst (tsk_fs_read off len old) = len ->
    snd (tsk_fs_read off len old) = image_bytes image off len.

(** Every slot in use holds the [FAT_CACHE_B] bytes of the image that start
    at its sector. *)
Definition cache_coherent (f : FATFS_INFO) : Prop :=
  forall (i : nat) t a,
    fatc_ttl f !! i = Some t -> 0 < t -> fatc_addr f !! i = Some a ->
    fatc_buf f !! i
    = Some (image_bytes image (u64 (a * block_size (fs_info f))) FAT_CACHE_B).

(** The FAT entry of [clust] decoded straight from the image: the 16 or 32
    bits at byte [clust * 2] or [clust * 4] of the FAT, for FAT12 the 16 bits
    at byte [clust + clust / 2], shifted by 4 for an odd cluster. *)
Definition fat_entry_on_disk (f : FATFS_INFO) (clust : Z) : Z :=
  let base := firstfatsect f * ssize f in
  let e := endian (fs_info f) in
  match ftype (fs_info f) with
  | TSK_FS_TYPE_FAT12 =>
      let w := tsk_getu16 e (image_bytes image (base + clust + clust / 2) 2) 0 in
      if Z.odd clust then Z.shiftr w 4 else w
  | TSK_FS_TYPE_FAT16 =>
      tsk_getu16 e (image_bytes image (base + 2 * clust) 2) 0
  | _ => tsk_getu32 e (image_bytes image (base + 4 * clust) 4) 0
  end.

(** The layout facts the arithmetic of [fatfs_getFAT] relies on: the sector
    size is the power of two [ssize_sh] says (at least 4 bytes) and is the
    block size, a cache slot is [FAT_CACHE_S] (at least 2) sectors of it, and
    the FAT's byte offsets stay far from the 64-bit limit. *)
Definition fat_layout_ok (f : FATFS_INFO) : Prop :=
  2 <= ssize_sh f /\
  ssize f = 2 ^ ssize_sh f /\
  block_size (fs_info f) = ssize f /\
  FAT_CACHE_B = FAT_CACHE_S * ssize f /\
  2 <= FAT_CACHE_S /\
  0 <= firstfatsect f /\
  (firstfatsect f + 4 * lastclust f + FAT_CACHE_S + 4) * ssize f < 2 ^ 64.

(** *** Opening *)

Definition XTAF_SECTOR_SIZE : Z := 512.
Definition XTAF_SECT_PER_FAT : Z := 64.
Definition XTAF_FIRST_FAT_SECT : Z := 8.

(** What [fatfs_open] takes from the boot sector once the search for it
    (fatfs.c:1257-1313) has succeeded: the byte order found by
    [tsk_fs_guessu16] and the two 32-bit fields [csize] and [numfat] as
    [tsk_getu32] decodes them.  The layout of [fatfs_sb] is in the absent
    tsk_fatfs.h, so the decoded values are inputs of the model. *)
Record boot_sector := mkBoot {
  bs_endian : TSK_ENDIAN_ENUM;
  bs_csize : Z;
  bs_numfat : Z
}.

(** The geometry table keyed on the image size and the partition offset
    (fatfs.c:1400-1462): [rootsect], [sectperfat], [clustcnt], [lastclust].
    ([firstclustsect] is also set there but overwritten at line 1504.) *)
Definition xtaf_geometry (img_size offset : Z) : option (Z * Z * Z * Z) :=
  if (img_size =? 146413464) || (img_size =? 4712496640)
     || (img_size =? 4846714880)
  then Some (1176, 1160, 147910, 147891)
  else if (img_size =? 2147483648) || (offset =? 0x80000)
  then Some (528, 512, 65536, 65527)
  else if (img_size =? 2348810240) || (offset =? 0x80080000)
  then Some (2248, 2240, 65536, 65527)
  else if (img_size =? 216203264) || (offset =? 0x10C080000)
  then Some (64, 56, 13196, 13194)
  else if (img_size =? 134217728) || (offset =? 0x118eb0000)
  then Some (48, 40, 8192, 8190)
  else if (img_size =? 268435456) || (offset =? 0x120eb0000)
  then Some (80, XTAF_SECT_PER_FAT, 16384, 16381)
  else if (img_size =? 244943674880) || (offset =? 0x130eb0000)
  then Some (116808, 116800, 14950175, 14946525)
  else None.

(** Inode macros of the absent tsk_fatfs.h, used only for the inode range. *)
Variable FATFS_FIRSTINO : Z.
Variable FATFS_NUM_SPECFILE : Z.
Variable FATFS_SECT_2_INODE : Z -> Z -> Z.

(** [fatfs_open] (fatfs.c:1220-1694): [None] where the C function returns
    NULL.  [bs] is [None] when the boot-sector search fails.  Allocation
    failures are left out. *)
Definition fatfs_open (img_size offset : Z) (ftype0 : TSK_FS_TYPE_ENUM)
    (bs : option boot_sector) : option FATFS_INFO :=
  if negb (TSK_FS_TYPE_ISFAT ftype0) then None
  else
    match bs with
    | None => None
    | Some sb =>
        let ssize := XTAF_SECTOR_SIZE in
        let ssize_sh := 9 in
        let csize := u8 (u32 (bs_csize sb)) in
        if negb ((csize =? 0x01) || (csize =? 0x02) || (csize =? 0x04)
                 || (csize =? 0x08) || (csize =? 0x10) || (csize =? 0x20)
                 || (csize =? 0x40) || (csize =? 0x80))
        then None
        else
          let numfat := u8 (u32 (bs_numfat sb)) in
          if (numfat =? 0) || (8 <? numfat) then None
          else
            let numroot := 1 in
            let sectors := u64 img_size / XTAF_SECTOR_SIZE in
            match xtaf_geometry img_size offset with
            | None => None
            | Some (rootsect, sectperfat, clustcnt, lastclust) =>
                let firstfatsect := XTAF_FIRST_FAT_SECT in
                if sectperfat =? 0 then None
                else if (firstfatsect =? 0) || (sectors <? firstfatsect)
                then None
                else
                  let firstdatasect := rootsect in
                  let firstclustsect := u64 (firstdatasect + 32 + 0) in
                  let checked : option TSK_FS_TYPE_ENUM :=
                    match ftype0 with
                    | TSK_FS_TYPE_FAT_DETECT =>
                        if clustcnt <? 0xfff4 then Some TSK_FS_TYPE_FAT16
                        else Some TSK_FS_TYPE_FAT32
                    | TSK_FS_TYPE_FAT12 =>
                        if 4085 <=? clustcnt then None
                        else Some TSK_FS_TYPE_FAT12
                    | t => Some t
                    end in
                  match checked with
                  | None => None
                  | Some ftype1 =>
                      let mask : option Z :=
                        match ftype1 with
                        | TSK_FS_TYPE_FAT12 => Some FATFS_12_MASK
                        | TSK_FS_TYPE_FAT16 => Some FATFS_16_MASK
                        | TSK_FS_TYPE_FAT32 => Some FATFS_32_MASK
                        | _ => None
                        end in
                      match mask with
                      | None => None
                      | Some msk =>
                          let block_count := sectors in
                          let last_block := u64 (block_count - 1) in
                          let block_size := ssize in
                          let last_block_act :=
                            if u64 (Z.quot (img_size - offset) block_size)
                               <? block_count
                            then u64 (Z.quot (img_size - offset) block_size
                                      - 1)
                            else last_block in
                          let fs :=
                            mkFsInfo ftype1 (bs_endian sb) block_size 0
                              last_block last_block_act FATFS_FIRSTINO
                              (u64 (FATFS_SECT_2_INODE firstdatasect
                                      (u64 (last_block_act + 1)) - 1
                                    + FATFS_NUM_SPECFILE)) in
                          Some (cache_init
                                  (mkFatfs fs
                                     (replicate FAT_CACHE_N
                                        (tsk_malloc FAT_CACHE_B))
                                     [] [] firstfatsect firstdatasect
                                     firstclustsect clustcnt lastclust
                                     rootsect ssize ssize_sh csize numfat
                                     sectperfat numroot msk))
                      end
                  end
            end
    end.

End Cache.

End Fatfs.

(** ** Registry *)

Module Regfs.

(** Modelled from the spec: constants of the absent tsk_regfs.h.  An HBIN page
    is 4096 bytes (section 3); the REGF header is the 4096-byte header page
    (glossary), so the first HBIN starts at byte 4096; the magic is "regf"
    read as a little-endian 32-bit value (section 6). *)
Definition HBIN_SIZE : Z := 4096.
Definition FIRST_HBIN_OFFSET : Z := 4096.
Definition REG_REGF_MAGIC : Z := 0x66676572.

Inductive TSK_REGFS_RECORD_TYPE_ENUM :=
| TSK_REGFS_RECORD_TYPE_VK
| TSK_REGFS_RECORD_TYPE_NK
| TSK_REGFS_RECORD_TYPE_LF
| TSK_REGFS_RECORD_TYPE_LH
| TSK_REGFS_RECORD_TYPE_LI
| TSK_REGFS_RECORD_TYPE_RI
| TSK_REGFS_RECORD_TYPE_SK
| TSK_REGFS_RECORD_TYPE_DB
| TSK_REGFS_RECORD_TYPE_UNKNOWN.

(** [REGFS_CELL]: [is_allocated] is a byte holding 0 or 1 and [length] an
    unsigned 32-bit field (the struct is declared in the absent
    tsk_regfs.h). *)
Record REGFS_CELL := mkCell {
  inum : Z;
  is_allocated : Z;
  length : Z;
  type : TSK_REGFS_RECORD_TYPE_ENUM
}.

Section Reg.

Variable tsk_fs_read : Z -> Z -> list byte -> Z * list byte.

(** The [switch] on the two tag bytes (regfs.c:116-146). *)
Definition cell_type_of (tag : Z) : TSK_REGFS_RECORD_TYPE_ENUM :=
  if tag =? 0x6b76 then TSK_REGFS_RECORD_TYPE_VK
  else if tag =? 0x6b6e then TSK_REGFS_RECORD_TYPE_NK
  else if tag =? 0x666c then TSK_REGFS_RECORD_TYPE_LF
  else if tag =? 0x686c then TSK_REGFS_RECORD_TYPE_LH
  else if tag =? 0x696c then TSK_REGFS_RECORD_TYPE_LI
  else if tag =? 0x6972 then TSK_REGFS_RECORD_TYPE_RI
  else if tag =? 0x6b73 then TSK_REGFS_RECORD_TYPE_SK
  else if tag =? 0x6264 then TSK_REGFS_RECORD_TYPE_DB
  else TSK_REGFS_RECORD_TYPE_UNKNOWN.

(** [reg_load_cell] (regfs.c:76-149).  Result: the cell after the call
    ([cell] is its contents before) and [None] for [TSK_OK] or [Some errno]
    for [TSK_ERR].  [len & 1 << 31] tests bit 31 of the 32-bit length. *)
Definition reg_load_cell (fs : TSK_FS_INFO) (cell : REGFS_CELL) (inum0 : Z)
    : REGFS_CELL * option TSK_ERR :=
  if (inum0 <? first_block fs) || (last_block fs <? inum0) then
    (cell, Some TSK_ERR_FS_BLK_NUM)
  else
    let cell1 := mkCell inum0 (is_allocated cell) (length cell) (type cell) in
    let '(count, buf) := tsk_fs_read inum0 6 [] in
    if negb (count =? 6) then (cell1, Some TSK_ERR_FS_READ)
    else
      let len := tsk_getu32 (endian fs) buf 0 in
      let cell2 :=
        if negb (Z.land len (Z.shiftl 1 31) =? 0)
        then mkCell inum0 1 (u32 (-1 * tsk_gets32 (endian fs) buf 0))
               (type cell1)
        else mkCell inum0 0 (tsk_getu32 (endian fs) buf 0) (type cell1) in
      if HBIN_SIZE <=? length cell2 then (cell2, Some TSK_ERR_FS_INODE_COR)
      else
        let type0 := tsk_getu16 (endian fs) buf 4 in
        (mkCell inum0 (is_allocated cell2) (length cell2) (cell_type_of type0),
         None).

(** [reg_block_getflags] (regfs.c:476-482). *)
Definition reg_block_getflags (fs : TSK_FS_INFO) (a_addr : Z) : Z :=
  Z.lor (Z.lor TSK_FS_BLOCK_FLAG_ALLOC TSK_FS_BLOCK_FLAG_META)
        TSK_FS_BLOCK_FLAG_CONT.

(** The flags [reg_block_walk] passes to [tsk_fs_block_set]
    (regfs.c:446-449). *)
Definition hbin_flags : Z :=
  Z.lor (Z.lor (Z.lor TSK_FS_BLOCK_FLAG_ALLOC TSK_FS_BLOCK_FLAG_META)
               TSK_FS_BLOCK_FLAG_CONT) TSK_FS_BLOCK_FLAG_RAW.

Section Walk.

Context {A : Type}.
Variable a_action : TSK_FS_BLOCK -> A -> TSK_WALK_RET_ENUM * A.

(** The [while] loop of [reg_block_walk] (regfs.c:427-466); [data_buf] is a
    fresh local array in every iteration.  [None] only when the fuel runs
    out. *)
Fixpoint reg_block_walk_loop (fs : TSK_FS_INFO) (a_end_blk : Z) (fuel : nat)
    (blknum : Z) (a : A) : option (Z * A) :=
  match fuel with
  | O => None
  | Datatypes.S k =>
      if blknum <? a_end_blk then
        let '(count, data_buf) :=
          tsk_fs_read_block tsk_fs_read fs blknum HBIN_SIZE [] in
        if negb (count =? HBIN_SIZE) then Some (1, a)
        else
          let '(rc, fs_block) :=
            tsk_fs_block_set fs blknum hbin_flags data_buf in
          if negb (rc =? 0) then Some (1, a)
          else
            match a_action fs_block a with
            | (TSK_WALK_STOP, a') => Some (0, a')
            | (TSK_WALK_ERROR, a') => Some (1, a')
            | (TSK_WALK_CONT, a') =>
                reg_block_walk_loop fs a_end_blk k (u64 (blknum + 1)) a'
            end
      else Some (0, a)
  end.

(** The block view of HBIN [blk] as section 4.8 words it, written out
    independently of what the walk passes: address [blk], the four flags
    ALLOC, META, CONT and RAW, and the 4096 bytes read at byte
    [blk * 4096]. *)
Definition hbin_view (blk : Z) : TSK_FS_BLOCK :=
  mkBlock blk
    (Z.lor TSK_FS_BLOCK_FLAG_ALLOC
       (Z.lor TSK_FS_BLOCK_FLAG_META
          (Z.lor TSK_FS_BLOCK_FLAG_CONT TSK_FS_BLOCK_FLAG_RAW)))
    (take (Z.to_nat 4096) (snd (tsk_fs_read (blk * 4096) 4096 []))).

(** The callback's data after it has been given the views of the HBINs
    [blks] one after the other. *)
Definition seen_after (a : A) (blks : list Z) : A :=
  foldl (fun a0 blk => snd (a_action (hbin_view blk) a0)) a blks.

(** [reg_block_walk] (regfs.c:374-470): the value returned (0 or 1) and the
    callback's data afterwards.  The defaulting of [a_flags]
    (regfs.c:408-419) is left out: the flags are not read afterwards. *)
Definition reg_block_walk (fs : TSK_FS_INFO) (a_start_blk a_end_blk : Z)
    (a_flags : Z) (a_ptr : A) : option (Z * A) :=
  if (a_start_blk <? first_block fs) || (last_block fs <? a_start_blk)
  then Some (1, a_ptr)
  else if (a_end_blk <? first_block fs) || (last_block fs <? a_end_blk)
  then Some (1, a_ptr)
  else
    reg_block_walk_loop fs a_end_blk
      (Datatypes.S (Z.to_nat (a_end_blk - a_start_blk))) a_start_blk a_ptr.

End Walk.

End Reg.

(** The first four bytes of a cell header as a signed 32-bit little-endian
    integer. *)
Definition le_s32 (b0 b1 b2 b3 : byte) : Z :=
  let u := byte_val b0 + 256 * byte_val b1 + 65536 * byte_val b2
           + 16777216 * byte_val b3 in
  if u <? 2 ^ 31 then u else u - 2 ^ 32.

(** What [regfs_open] takes from the REGF header that [reg_load_regf] reads
    (regfs.c:1105-1124, 1167): the decoded [magic] and [last_hbin_offset]
    fields ([REGF]'s layout is in the absent tsk_regfs.h); [None] when the
    header cannot be read. *)
Record regf_header := mkRegf {
  regf_magic : Z;
  regf_last_hbin_offset : Z
}.

(** [regfs_open] (regfs.c:1137-1206), the fields of [TSK_FS_INFO] it sets. *)
Definition regfs_open (img_size : Z) (ftype0 : TSK_FS_TYPE_ENUM)
    (regf : option regf_header) : option TSK_FS_INFO :=
  match ftype0 with
  | TSK_FS_TYPE_REG =>
      match regf with
      | None => None
      | Some h =>
          if negb (regf_magic h =? REG_REGF_MAGIC) then None
          else
            Some (mkFsInfo TSK_FS_TYPE_REG TSK_LIT_ENDIAN HBIN_SIZE 0
                    (regf_last_hbin_offset h)
                    ((img_size - img_size mod HBIN_SIZE) / HBIN_SIZE)
                    FIRST_HBIN_OFFSET
                    (u32 (regf_last_hbin_offset h + HBIN_SIZE)))
      end
  | _ => None
  end.

(** [nt2unixtime] (regfs.c:21-28) and [nt2nano] (regfs.c:33-36) on a 64-bit
    date: the subtraction wraps as [uint64_t], the results are cut to 32
    bits ([nt2nano] through [int32_t]). *)
Definition NSEC_BTWN_1601_1970 : Z := 116444736000000000.

Definition nt2unixtime (ntdate : Z) : Z :=
  let ntdate := u64 (ntdate - NSEC_BTWN_1601_1970) in
  let ntdate := ntdate / 10000000 in
  u32 ntdate.

Definition nt2nano (ntdate : Z) : Z := u32 (s32 (ntdate mod 10000000)).

(** The fields of [TSK_FS_META] that [reg_file_add_meta] writes, and the two
    fields of [TSK_FS_FILE] it touches.  The enumerations are those of the
    absent tsk_fs.h, kept symbolic; the content buffer is [content_ptr] with
    its bytes. *)
Inductive TSK_FS_META_TYPE_ENUM :=
| TSK_FS_META_TYPE_REG
| TSK_FS_META_TYPE_DIR
| TSK_FS_META_TYPE_VIRT.

Inductive TSK_FS_META_FLAG_ENUM :=
| TSK_FS_META_FLAG_ALLOC
| TSK_FS_META_FLAG_UNALLOC.

Record TSK_FS_META := mkMeta {
  meta_flags : TSK_FS_META_FLAG_ENUM;
  meta_addr : Z;
  meta_type : TSK_FS_META_TYPE_ENUM;
  meta_mode : Z;
  meta_nlink : Z;
  meta_size : Z;
  meta_uid : Z;
  meta_gid : Z;
  meta_mtime : Z;
  meta_mtime_nano : Z;
  meta_atime : Z;
  meta_atime_nano : Z;
  meta_ctime : Z;
  meta_ctime_nano : Z;
  meta_crtime : Z;
  meta_crtime_nano : Z;
  meta_dtime : Z;
  meta_dtime_nano : Z;
  meta_content : list byte;
  meta_seq : Z
}.

Record TSK_FS_FILE := mkFile {
  file_meta : option TSK_FS_META;
  file_fs_info : option TSK_FS_INFO
}.

(** [tsk_errno] after [reg_file_add_meta]: INODE_NUM, or one of the values
    of the other embedded functions. *)
Inductive REG_META_ERRNO :=
| TSK_ERR_FS_INODE_NUM
| REG_ERRNO (e : TSK_ERR).

(** What [reg_file_add_meta] returns: the literal 1, or the enumerators
    [TSK_ERR] and [TSK_OK] of [TSK_RETVAL_ENUM] (absent tsk_base.h). *)
Inductive REG_META_RET := RET_1 | RET_TSK_ERR | RET_TSK_OK.

Section Meta.

Variable tsk_fs_read : Z -> Z -> list byte -> Z * list byte.

(** [tsk_fs_meta_alloc] of the absent fs_inode.c: a fresh [TSK_FS_META] with
    a content buffer for the size asked, or NULL. *)
Variable tsk_fs_meta_alloc : Z -> option TSK_FS_META.

(** [reg_file_add_meta] (regfs.c:255-368).  [a_fs_file] is [None] for NULL.
    [cell0] stands for the contents of the uninitialised local [cell], and
    [nttime] for the 64 bits the NK case reads through the cast of [&cell]
    to [REGFS_CELL_NK *]: [reg_load_cell] has filled in a [REGFS_CELL], so
    what [nk->timestamp] holds is not determined by the source.  The test
    [fs == NULL] comes after [fs] has been dereferenced and is left out.
    [tsk_fs_meta_close] frees the old meta without resetting the pointer:
    the file still refers to it when the function returns before the new
    allocation.  The mode 0007777 is octal, 4095.  Result: the value
    returned, [tsk_errno] ([None] when it was only reset) and the file
    structure afterwards. *)
Definition reg_file_add_meta (fs : TSK_FS_INFO)
    (a_fs_file : option TSK_FS_FILE) (inum0 : Z) (cell0 : REGFS_CELL)
    (nttime : Z)
    : REG_META_RET * option REG_META_ERRNO * option TSK_FS_FILE :=
  if (inum0 <? first_inum fs) || (last_inum fs <? inum0) then
    (RET_1, Some TSK_ERR_FS_INODE_NUM, a_fs_file)
  else
    match a_fs_file with
    | None => (RET_1, Some (REG_ERRNO TSK_ERR_FS_ARG), None)
    | Some file =>
        let file1 := mkFile (file_meta file) (Some fs) in
        match reg_load_cell tsk_fs_read fs cell0 inum0 with
        | (_, Some e) => (RET_1, Some (REG_ERRNO e), Some file1)
        | (cell, None) =>
            if HBIN_SIZE <? length cell then
              (RET_1, Some (REG_ERRNO TSK_ERR_FS_INODE_COR), Some file1)
            else
              match tsk_fs_meta_alloc (length cell) with
              | None =>
                  (RET_1, Some (REG_ERRNO TSK_ERR_KEPT),
                   Some (mkFile None (Some fs)))
              | Some m0 =>
                  let mtype :=
                    match type cell with
                    | TSK_REGFS_RECORD_TYPE_VK => TSK_FS_META_TYPE_REG
                    | TSK_REGFS_RECORD_TYPE_NK => TSK_FS_META_TYPE_DIR
                    | _ => TSK_FS_META_TYPE_VIRT
                    end in
                  let mtime :=
                    match type cell with
                    | TSK_REGFS_RECORD_TYPE_NK => nt2unixtime (u64 nttime)
                    | _ => 0
                    end in
                  let mtime_nano :=
                    match type cell with
                    | TSK_REGFS_RECORD_TYPE_NK => nt2nano (u64 nttime)
                    | _ => 0
                    end in
                  let '(count, content) :=
                    tsk_fs_read inum0 (length cell) (meta_content m0) in
                  let meta seq :=
                    mkMeta TSK_FS_META_FLAG_ALLOC inum0 mtype 4095 1
                      (length cell) 0 0 mtime mtime_nano 0 0 0 0 0 0 0 0
                      content seq in
                  if negb (count =? length cell) then
                    (RET_TSK_ERR, Some (REG_ERRNO TSK_ERR_FS_READ),
                     Some (mkFile (Some (meta (meta_seq m0))) (Some fs)))
                  else
                    (RET_TSK_OK, None,
                     Some (mkFile (Some (meta 0)) (Some fs)))
              end
        end
    end.

End Meta.

End Regfs.

(** ** Concrete images and states used to exercise the model *)

(** An image reader that always delivers [len] bytes, all equal to [b]. *)
Definition fill_reader (b : byte) (off len : Z) (buf : list byte)
    : Z * list byte :=
  (len, replicate (Z.to_nat len) b).

(** An image reader for an image of [size] bytes, all equal to [b]: a read
    that would pass the end delivers nothing and returns the short count. *)
Definition bounded_reader (size : Z) (b : byte) (off len : Z)
    (buf : list byte) : Z * list byte :=
  if (0 <=? off) && (off + len <=? size)
  then (len, replicate (Z.to_nat len) b)
  else (Z.max 0 (size - off), buf).

(** A callback that records the blocks it is given and always continues. *)
Definition record_cb (b : TSK_FS_BLOCK) (seen : list TSK_FS_BLOCK)
    : TSK_WALK_RET_ENUM * list TSK_FS_BLOCK :=
  (TSK_WALK_CONT, seen ++ [b]).

(** A small FAT volume with 512-byte sectors: sectors 0-7 boot sector and
    FAT, 8-23 root directory, then 100 one-sector clusters (2..101) in
    sectors 24-123 and two sectors (124, 125) after the last cluster.  The
    cache has the 4 slots of 8 sectors (4096 bytes) of tsk_fatfs.h and is in
    its open-time state. *)
Definition fat_demo (t : TSK_FS_TYPE_ENUM) : Fatfs.FATFS_INFO :=
  Fatfs.cache_init 4
    (Fatfs.mkFatfs
       (mkFsInfo t TSK_LIT_ENDIAN 512 0 125 125 2 4000)
       (replicate 4 (tsk_malloc 4096)) [] []
       1 8 24 100 101 8 512 9 1 1 7 512 (Fatfs.fat_mask t)).

(** The demo volume on an all-zero image, with the cache constants of
    tsk_fatfs.h, after loading FAT sector 1 and then sector 100. *)
Definition demo_acquire (f : Fatfs.FATFS_INFO) (sect : Z) : Fatfs.FATFS_INFO :=
  fst (Fatfs.getFATCacheIdx 4 8 4096 (fill_reader x00) f sect).
Definition cache_demo1 : Fatfs.FATFS_INFO :=
  demo_acquire (fat_demo TSK_FS_TYPE_FAT16) 1.
Definition cache_demo2 : Fatfs.FATFS_INFO := demo_acquire cache_demo1 100.

(** The same cache filled up by loads of sectors 200 and 300, and then
    after a load of sector 400, which has to replace a slot. *)
Definition cache_demo3 : Fatfs.FATFS_INFO := demo_acquire cache_demo2 200.
Definition cache_demo4 : Fatfs.FATFS_INFO := demo_acquire cache_demo3 300.
Definition cache_demo5 : Fatfs.FATFS_INFO := demo_acquire cache_demo4 400.

(** [fatfs_open] on the 256 MiB system partition, with the cache constants
    and inode macros as in tsk_fatfs.h. *)
Definition open_demo (t : TSK_FS_TYPE_ENUM) : option Fatfs.FATFS_INFO :=
  Fatfs.fatfs_open 4 4096 2 4 (fun fds s => (s - fds) * 16 + 3)
    268435456 0 t (Some (Fatfs.mkBoot TSK_BIG_ENDIAN 32 1)).

(** The state that call returns with auto-detection: a FAT16 volume of
    16384 clusters of 32 sectors, first cluster sector 112, last cluster
    16381, 524288 sectors in all. *)
Definition opened_demo : Fatfs.FATFS_INFO :=
  Fatfs.cache_init 4
    (Fatfs.mkFatfs
       (mkFsInfo TSK_FS_TYPE_FAT16 TSK_BIG_ENDIAN 512 0 524287 524287 2
          8387334)
       (replicate 4 (tsk_malloc 4096)) [] []
       8 80 112 16384 16381 80 512 9 32 1 64 1 Fatfs.FATFS_16_MASK).

(** A cell with nothing loaded yet. *)
Definition blank_cell : Regfs.REGFS_CELL :=
  Regfs.mkCell 0 0 0 Regfs.TSK_REGFS_RECORD_TYPE_UNKNOWN.

(** A reader over an image given byte by byte: every read is complete. *)
Definition image_reader (image : Z -> byte) (off len : Z) (buf : list byte)
    : Z * list byte :=
  (len, image_bytes image off len).

(** A reader over an image of [size] bytes given byte by byte: a read that
    does not lie within the image fails with -1 and delivers nothing. *)
Definition finite_reader (size : Z) (image : Z -> byte) (off len : Z)
    (buf : list byte) : Z * list byte :=
  if (0 <=? len) && (0 <=? off) && (off + len <=? size)
  then (len, image_bytes image off len)
  else (-1, []).

(** The image of scenario S1 for the demo volume (FAT at sector 1, byte 512):
    FAT16 entry 2 holds 3, entry 3 holds 0xFFFF, everything else is 0. *)
Definition s1_image (o : Z) : byte :=
  if o =? 516 then x03
  else if (o =? 518) || (o =? 519) then xff
  else x00.

(** Whether a block with flags [blk_flags] is asked for by the walk flags
    [walk_flags], a missing ALLOC/UNALLOC or META/CONT half meaning both. *)
Definition walk_selects (walk_flags blk_flags : Z) : bool :=
  let wf :=
    if (Z.land walk_flags TSK_FS_BLOCK_WALK_FLAG_ALLOC =? 0) &&
       (Z.land walk_flags TSK_FS_BLOCK_WALK_FLAG_UNALLOC =? 0)
    then Z.lor walk_flags 0x03 else walk_flags in
  let wf :=
    if (Z.land wf TSK_FS_BLOCK_WALK_FLAG_META =? 0) &&
       (Z.land wf TSK_FS_BLOCK_WALK_FLAG_CONT =? 0)
    then Z.lor wf 0x0c else wf in
  negb (Z.land wf (Z.land blk_flags 0x03) =? 0) &&
  negb (Z.land wf (Z.land blk_flags 0x0c) =? 0).

(** The walk flags as [fatfs_block_walk] completes them before it starts
    (fatfs.c:441-451). *)
Definition walk_flags_norm (a_flags : Z) : Z :=
  let a_flags :=
    if (Z.land a_flags TSK_FS_BLOCK_WALK_FLAG_ALLOC =? 0) &&
       (Z.land a_flags TSK_FS_BLOCK_WALK_FLAG_UNALLOC =? 0)
    then Z.lor a_flags
           (Z.lor TSK_FS_BLOCK_WALK_FLAG_ALLOC TSK_FS_BLOCK_WALK_FLAG_UNALLOC)
    else a_flags in
  if (Z.land a_flags TSK_FS_BLOCK_WALK_FLAG_META =? 0) &&
     (Z.land a_flags TSK_FS_BLOCK_WALK_FLAG_CONT =? 0)
  then Z.lor a_flags
         (Z.lor TSK_FS_BLOCK_WALK_FLAG_CONT TSK_FS_BLOCK_WALK_FLAG_META)
  else a_flags.

(** The view of sector [addr] a walk over an image hands to its callback:
    the sector's flags with RAW added, and the sector's bytes. *)
Definition image_block (image : Z -> byte) (fs : TSK_FS_INFO)
    (addr flags : Z) : TSK_FS_BLOCK :=
  mkBlock addr (Z.lor flags TSK_FS_BLOCK_FLAG_RAW)
    (image_bytes image (addr * block_size fs) (block_size fs)).

(** The callback's data after it has been given [blocks] one after the
    other. *)
Definition deliver {A : Type}
    (a_action : TSK_FS_BLOCK -> A -> TSK_WALK_RET_ENUM * A)
    (a : A) (blocks : list TSK_FS_BLOCK) : A :=
  foldl (fun a b => snd (a_action b a)) a blocks.

(** Before the first cluster the flags of a sector depend on its address
    alone (fatfs.c:510-518), and with ALLOC asked for it is the META or CONT
    bit of the walk flags [nf] that selects it (fatfs.c:520-526).
    [predata_step] is what one sector of the walk does to the callback's
    data when the callback continues. *)
Definition predata_flags (f : Fatfs.FATFS_INFO) (addr : Z) : Z :=
  if addr <? Fatfs.firstdatasect f
  then Z.lor TSK_FS_BLOCK_FLAG_ALLOC TSK_FS_BLOCK_FLAG_META
  else Z.lor TSK_FS_BLOCK_FLAG_ALLOC TSK_FS_BLOCK_FLAG_CONT.

Definition predata_selected (f : Fatfs.FATFS_INFO) (nf addr : Z) : bool :=
  if addr <? Fatfs.firstdatasect f
  then has_flag nf TSK_FS_BLOCK_WALK_FLAG_META
  else has_flag nf TSK_FS_BLOCK_WALK_FLAG_CONT.

Definition predata_step {A : Type} (image : Z -> byte)
    (a_action : TSK_FS_BLOCK -> A -> TSK_WALK_RET_ENUM * A)
    (f : Fatfs.FATFS_INFO) (nf : Z) (a : A) (addr : Z) : A :=
  if predata_selected f nf addr
  then snd (a_action
              (image_block image (Fatfs.fs_info f) addr (predata_flags f addr))
              a)
  else a.

(** A hive whose last HBIN starts at byte 4096, as [regfs_open] sets it up. *)
Definition reg_demo : TSK_FS_INFO :=
  mkFsInfo TSK_FS_TYPE_REG TSK_LIT_ENDIAN 4096 0 4096 3 4096 8192.

(** A reader that delivers the six bytes of a cell header. *)
Definition header_reader (hdr : list byte) (off len : Z) (buf : list byte)
    : Z * list byte :=
  (6, hdr).

(** The FAT entry of a cluster as a lookup reports it, taken from the image:
    decoded, masked and put through the range clamp. *)
Definition fat_status_on_disk (image : Z -> byte) (f : Fatfs.FATFS_INFO)
    (clust : Z) : Z :=
  Fatfs.clamp_entry f (Fatfs.fat_mask (ftype (Fatfs.fs_info f)))
    (Z.land (Fatfs.fat_entry_on_disk image f clust)
       (Fatfs.fat_mask (ftype (Fatfs.fs_info f)))).

(** The sector of the FAT that holds the entry of [clust]: an entry is 2
    bytes wide on FAT16 and 4 bytes wide on FAT32. *)
Definition fat_entry_sector (f : Fatfs.FATFS_INFO) (clust : Z) : Z :=
  Fatfs.firstfatsect f +
  (match ftype (Fatfs.fs_info f) with
   | TSK_FS_TYPE_FAT16 => 2
   | _ => 4
   end * clust) / Fatfs.ssize f.

(** The flags of a sector of the cluster area by the image: CONT, with
    UNALLOC when the cluster's entry is 0 and ALLOC otherwise. *)
Definition cluster_flags_on_disk (image : Z -> byte) (f : Fatfs.FATFS_INFO)
    (addr : Z) : Z :=
  Z.lor (if fat_status_on_disk image f (Fatfs.FATFS_SECT_2_CLUST f addr) =? 0
         then TSK_FS_BLOCK_FLAG_UNALLOC else TSK_FS_BLOCK_FLAG_ALLOC)
    TSK_FS_BLOCK_FLAG_CONT.

(** What one sector of the cluster area does to the callback's data in a
    walk from [s] with walk flags [flags], when the callback continues. *)
Definition data_step {A : Type} (image : Z -> byte)
    (a_action : TSK_FS_BLOCK -> A -> TSK_WALK_RET_ENUM * A)
    (f : Fatfs.FATFS_INFO) (s flags : Z) (a : A) (addr : Z) : A :=
  if (s <=? addr) && walk_selects flags (cluster_flags_on_disk image f addr)
  then snd (a_action
              (image_block image (Fatfs.fs_info f) addr
                 (cluster_flags_on_disk image f addr)) a)
  else a.

(** What the cluster loop of the walk keeps true of the state [f1] it
    threads through the lookups, [f] being the state at the start. *)
Definition walk_inv (N : nat) (B : Z) (image : Z -> byte)
    (f f1 : Fatfs.FATFS_INFO) : Prop :=
  Fatfs.cache_wf N f1 /\ Fatfs.cache_coherent B image f1 /\
  Fatfs.same_geometry f f1.

(** The record type by the two ASCII letters that open a cell's payload
    (bytes 4 and 5 of the cell): "vk", "nk", "lf", "lh", "li", "ri", "sk",
    "db"; the case constants of [reg_load_cell] are these letters read as a
    little-endian 16-bit value. *)
Definition type_of_letters (c1 c2 : byte)
    : Regfs.TSK_REGFS_RECORD_TYPE_ENUM :=
  if Byte.eqb c1 x76 && Byte.eqb c2 x6b then Regfs.TSK_REGFS_RECORD_TYPE_VK
  else if Byte.eqb c1 x6e && Byte.eqb c2 x6b
  then Regfs.TSK_REGFS_RECORD_TYPE_NK
  else if Byte.eqb c1 x6c && Byte.eqb c2 x66
  then Regfs.TSK_REGFS_RECORD_TYPE_LF
  else if Byte.eqb c1 x6c && Byte.eqb c2 x68
  then Regfs.TSK_REGFS_RECORD_TYPE_LH
  else if Byte.eqb c1 x6c && Byte.eqb c2 x69
  then Regfs.TSK_REGFS_RECORD_TYPE_LI
  else if Byte.eqb c1 x72 && Byte.eqb c2 x69
  then Regfs.TSK_REGFS_RECORD_TYPE_RI
  else if Byte.eqb c1 x73 && Byte.eqb c2 x6b
  then Regfs.TSK_REGFS_RECORD_TYPE_SK
  else if Byte.eqb c1 x64 && Byte.eqb c2 x62
  then Regfs.TSK_REGFS_RECORD_TYPE_DB
  else Regfs.TSK_REGFS_RECORD_TYPE_UNKNOWN.

(** A hive image with one cell header at byte 4096: length -8 (an allocated
    cell of 8 bytes) and the letters "nk"; everything else is 0. *)
Definition nk_image (o : Z) : byte :=
  if o =? 4096 then xf8
  else if (4097 <=? o) && (o <=? 4099) then xff
  else if o =? 4100 then x6e
  else if o =? 4101 then x6b
  else x00.

(** An allocator that always succeeds, with a zeroed structure. *)
Definition zero_meta_alloc (n : Z) : option Regfs.TSK_FS_META :=
  Some (Regfs.mkMeta Regfs.TSK_FS_META_FLAG_UNALLOC 0
          Regfs.TSK_FS_META_TYPE_VIRT 0 0 0 0 0 0 0 0 0 0 0 0 0 0 0
          (tsk_malloc n) 0).

(** A file structure opened by metadata address: no meta yet. *)
Definition blank_file : Regfs.TSK_FS_FILE := Regfs.mkFile None None.

(** * Properties *)

Import Fatfs.

Section CacheTheory.

Variable N : nat.
Variables (S B : Z).
Variable rd : Z -> Z -> list byte -> Z * list byte.
Hypothesis N_pos : (0 < N)%nat.

Lemma aged_self t : aged t t = t.
Proof. unfold aged. destruct (t =? 0); [done|]. by rewrite Z.ltb_irrefl. Qed.

Lemma age_steps_lookup (n i : nat) (l : list Z) ti (a : nat) :
  l !! i = Some ti ->
  foldl (age_step i) l (seq 0 n) !! a =
    (if decide (a < n)%nat then aged ti else id) <$> l !! a.
Proof.
  intros Hi. revert a. induction n as [|n IH]; intros a.
  - simpl. destruct (l !! a); done.
  - rewrite seq_S, foldl_snoc. simpl.
    set (l' := foldl (age_step i) l (seq 0 n)) in *.
    assert (Hi' : l' !! i = Some ti).
    { rewrite IH, Hi. simpl. destruct (decide _); simpl; by rewrite ?aged_self. }
    assert (Hn' : l' !! n = l !! n).
    { rewrite IH. destruct (decide (n < n)%nat); [lia|]. by destruct (l !! n). }
    unfold age_step. rewrite Hn', Hi'.
    destruct (l !! n) as [tn|] eqn:Hn.
    + assert (Hlen : (n < length l')%nat).
      { apply lookup_lt_is_Some. rewrite Hn'. eauto. }
      destruct (decide (a = n)) as [->|Hne].
      * destruct (decide (n < Datatypes.S n)%nat); [|lia]. rewrite Hn. simpl.
        unfold aged. destruct (tn =? 0) eqn:E0; [done|].
        destruct (tn <? ti) eqn:E1; [|done].
        by rewrite list_lookup_insert_eq.
      * assert (Hsame : (if decide (a < Datatypes.S n)%nat then aged ti else id)
                        = (if decide (a < n)%nat then aged ti else id)).
        { destruct (decide (a < n)%nat), (decide (a < Datatypes.S n)%nat); done || lia. }
        rewrite Hsame, <- IH.
        destruct (tn =? 0); [done|]. destruct (tn <? ti); [|done].
        by rewrite list_lookup_insert_ne.
    + rewrite IH.
      destruct (decide (a = n)) as [->|Hne]; [by rewrite Hn|].
      destruct (decide (a < n)%nat), (decide (a < Datatypes.S n)%nat); done || lia.
Qed.

Lemma promote_lookup (l : list Z) (c : nat) t (a : nat) :
  length l = N -> l !! c = Some t ->
  <[c := 1]> (age_loop N c l) !! a =
    (fun ta => if decide (a = c) then 1 else aged t ta) <$> l !! a.
Proof.
  intros Hlen Hc. unfold age_loop.
  destruct (decide (a = c)) as [->|Hne].
  - rewrite list_lookup_insert_eq, Hc; [done|].
    apply lookup_lt_is_Some. rewrite (age_steps_lookup _ _ _ t), Hc by done.
    simpl. eauto.
  - rewrite list_lookup_insert_ne, (age_steps_lookup _ _ _ t) by done.
    destruct (l !! a) as [ta|] eqn:Ha; [|done].
    apply lookup_lt_Some in Ha. destruct (decide (a < N)%nat); [done|lia].
Qed.

Lemma length_of_lookups {A C} (f : nat -> A -> C) (l : list A) (l' : list C) :
  (forall a : nat, l' !! a = f a <$> l !! a) -> length l' = length l.
Proof.
  intros H. apply Nat.le_antisymm; apply Nat.nlt_ge; intros Hlt.
  - apply lookup_lt_is_Some in Hlt. rewrite H in Hlt.
    destruct Hlt as [x Hx]. apply fmap_Some in Hx as (y & Hy & _).
    apply lookup_lt_Some in Hy. lia.
  - apply lookup_lt_is_Some in Hlt as [x Hx]. specialize (H (length l')).
    rewrite Hx in H. rewrite lookup_ge_None_2 in H; [done|lia].
Qed.

(** An unused slot leaves room: no TTL has reached [N] yet. *)
Lemma inv_zero_small (l : list Z) (z : nat) :
  ttl_inv N l -> l !! z = Some 0 ->
  forall (i : nat) x, l !! i = Some x -> x < Z.of_nat N.
Proof.
  intros [Hlen Hrange Hinj Hdown] Hz i x Hx.
  destruct (Z.lt_ge_cases x (Z.of_nat N)) as [|Hge]; [done|exfalso].
  assert (x = Z.of_nat N) as -> by (apply Hrange in Hx; lia).
  assert (Hsub : seqZ 1 (Z.of_nat N) ⊆+ filter (fun y : Z => y ≠ 0%Z) l).
  { apply NoDup_submseteq; [apply NoDup_seqZ|].
    intros v Hv. apply elem_of_seqZ in Hv. apply list_elem_of_filter.
    split; [lia|]. apply list_elem_of_lookup.
    destruct (decide (v = Z.of_nat N)) as [->|]; [eauto|].
    apply (Hdown i (Z.of_nat N)); [done|lia]. }
  apply submseteq_length in Hsub. rewrite length_seqZ in Hsub.
  assert (Hlt : (length (filter (fun y : Z => y ≠ 0%Z) l) < length l)%nat).
  { apply (length_filter_lt _ _ 0); [|by intros H; apply H].
    apply list_elem_of_lookup. eauto. }
  lia.
Qed.

(** A cache without unused slot has a slot of TTL [N]. *)
Lemma inv_full_has_N (l : list Z) :
  ttl_inv N l -> (forall i : nat, l !! i ≠ Some 0) ->
  exists i : nat, l !! i = Some (Z.of_nat N).
Proof.
  intros [Hlen Hrange Hinj Hdown] Hnz.
  assert (Hpos : forall (i : nat) t, l !! i = Some t -> 0 < t).
  { intros i t Ht. pose proof (Hrange _ _ Ht).
    destruct (decide (t = 0)) as [->|]; [by apply Hnz in Ht|lia]. }
  assert (Hnd : NoDup l).
  { apply NoDup_alt. intros i j x Hi Hj. eapply Hinj; eauto. }
  assert (Hsub : l ⊆+ seqZ 1 (Z.of_nat N)).
  { apply NoDup_submseteq; [done|]. intros x Hx.
    apply list_elem_of_lookup in Hx as [i Hi]. apply elem_of_seqZ.
    pose proof (Hrange _ _ Hi). pose proof (Hpos _ _ Hi). lia. }
  apply submseteq_length_Permutation in Hsub; [|rewrite length_seqZ; lia].
  apply list_elem_of_lookup. rewrite Hsub. apply elem_of_seqZ. lia.
Qed.

Lemma find_victim_steps (l : list Z) (n : nat) :
  let r := foldl (victim_step N l) 0%nat (seq 0 n) in
  ((exists t, l !! r = Some t /\ (t = 0 \/ Z.of_nat N <= t)) /\ (r < n)%nat)
  \/ (r = 0%nat /\
      forall (i : nat) t, (i < n)%nat -> l !! i = Some t ->
                          ~ (t = 0 \/ Z.of_nat N <= t)).
Proof.
  induction n as [|n IH]; cbv zeta in *.
  - right. split; [done|]. intros; lia.
  - rewrite seq_S, foldl_snoc. simpl.
    set (r := foldl (victim_step N l) 0%nat (seq 0 n)) in *.
    unfold victim_step. destruct (l !! n) as [t|] eqn:Hn.
    + destruct ((t =? 0) || (Z.of_nat N <=? t)) eqn:E.
      * left. split; [|lia]. exists t. split; [done|].
        apply orb_true_iff in E as [E|E]; [left|right]; lia.
      * apply orb_false_iff in E as [E1 E2].
        destruct IH as [[Hc Hlt]|[Hr Hnone]]; [left; split; [done|lia]|].
        right. split; [done|]. intros i t' Hi Ht'.
        destruct (decide (i = n)) as [->|]; [|apply (Hnone i); [lia|done]].
        rewrite Hn in Ht'. injection Ht' as <-. lia.
    + destruct IH as [[Hc Hlt]|[Hr Hnone]]; [left; split; [done|lia]|].
      right. split; [done|]. intros i t' Hi Ht'.
      destruct (decide (i = n)) as [->|]; [congruence|].
      apply (Hnone i); [lia|done].
Qed.

(** Under the invariant the victim search ends on a genuine candidate. *)
Lemma find_victim_genuine (l : list Z) :
  ttl_inv N l ->
  (find_victim N l < N)%nat /\
  exists t, l !! find_victim N l = Some t /\ (t = 0 \/ Z.of_nat N <= t).
Proof.
  intros Hinv. unfold find_victim.
  destruct (find_victim_steps l N) as [[Hc Hlt]|[Hr Hnone]]; [done|exfalso].
  destruct (inv_full_has_N l Hinv) as [i Hi].
  - intros i Hi. pose proof (lookup_lt_Some _ _ _ Hi) as Hlt.
    rewrite (inv_len _ _ Hinv) in Hlt. apply (Hnone i 0 Hlt Hi). by left.
  - pose proof (lookup_lt_Some _ _ _ Hi) as Hlt.
    rewrite (inv_len _ _ Hinv) in Hlt. apply (Hnone i _ Hlt Hi). right; lia.
Qed.

(** Moving slot [c] to the front keeps the invariant, both when [c] is a
    used slot of TTL [t] and when it is an unused slot entered with
    [t = N + 1]. *)
Lemma promote_inv (l l' : list Z) (c : nat) t :
  ttl_inv N l -> (c < N)%nat ->
  (forall a : nat,
      l' !! a = (fun ta => if decide (a = c) then 1 else aged t ta) <$> l !! a) ->
  (l !! c = Some t /\ 0 < t) \/
  (l !! c = Some 0 /\ t = Z.of_nat N + 1) ->
  ttl_inv N l'.
Proof.
  intros Hinv Hc Hl' Hcase.
  pose proof Hinv as [Hlen Hrange Hinj Hdown].
  assert (Hget : forall (a : nat) x, l' !! a = Some x ->
            exists ta, l !! a = Some ta /\
                       x = if decide (a = c) then 1 else aged t ta).
  { intros a x Hx. rewrite Hl' in Hx. apply fmap_Some in Hx. naive_solver. }
  assert (Hput : forall (a : nat) ta, l !! a = Some ta ->
            l' !! a = Some (if decide (a = c) then 1 else aged t ta)).
  { intros a ta Ha. by rewrite Hl', Ha. }
  assert (Hc1 : l' !! c = Some 1).
  { destruct Hcase as [[Hlc _]|[Hlc _]]; rewrite (Hput _ _ Hlc);
      by destruct (decide (c = c)). }
  assert (Ht : 1 <= t <= Z.of_nat N + 1).
  { destruct Hcase as [[Hlc ?]|[? ->]]; [apply Hrange in Hlc|]; lia. }
  assert (Hsmall : forall (a : nat) ta, l !! a = Some ta -> 0 < ta ->
            a ≠ c -> ta ≠ t /\ (ta < t -> ta < Z.of_nat N)).
  { intros a ta Ha Hpos Hne. destruct Hcase as [[Hlc ?]|[Hlc ->]].
    - split; [|pose proof (Hrange _ _ Hlc); lia].
      intros ->. apply Hne. by apply (Hinj a c t).
    - pose proof (inv_zero_small l c Hinv Hlc a ta Ha). lia. }
  split.
  - rewrite <- Hlen. by apply (length_of_lookups _ _ _ Hl').
  - intros a x Hx. apply Hget in Hx as (ta & Ha & ->).
    destruct (decide (a = c)); [lia|]. pose proof (Hrange _ _ Ha).
    unfold aged. destruct (Z.eqb_spec ta 0); [lia|].
    destruct (Z.ltb_spec ta t); [|lia].
    destruct (Hsmall a ta Ha) as [_ ?]; [lia|done|lia].
  - intros a b x Ha Hb Hpos.
    apply Hget in Ha as (ta & Ha & Hxa). apply Hget in Hb as (tb & Hb & Hxb).
    pose proof (Hrange _ _ Ha). pose proof (Hrange _ _ Hb).
    unfold aged in *.
    destruct (decide (a = c)) as [->|Hac], (decide (b = c)) as [->|Hbc];
      [done| | |].
    + destruct (Z.eqb_spec tb 0); [lia|].
      destruct (Hsmall b tb Hb) as [? _]; [lia|done|].
      destruct (Z.ltb_spec tb t); lia.
    + destruct (Z.eqb_spec ta 0); [lia|].
      destruct (Hsmall a ta Ha) as [? _]; [lia|done|].
      destruct (Z.ltb_spec ta t); lia.
    + destruct (Z.eqb_spec ta 0); [lia|]. destruct (Z.eqb_spec tb 0); [lia|].
      destruct (Hsmall a ta Ha) as [? _]; [lia|done|].
      destruct (Hsmall b tb Hb) as [? _]; [lia|done|].
      apply (Hinj a b ta); [done| |lia].
      rewrite Hb. f_equal.
      destruct (Z.ltb_spec ta t), (Z.ltb_spec tb t); lia.
  - intros a x v Hx Hv.
    destruct (decide (v = 1)) as [->|Hv1]; [eauto|].
    apply Hget in Hx as (ta & Ha & ->).
    destruct (decide (a = c)); [lia|]. pose proof (Hrange _ _ Ha).
    unfold aged in Hv. destruct (Z.eqb_spec ta 0); [lia|].
    destruct (Hsmall a ta Ha) as [Hne _]; [lia|done|].
    assert (Hshift : forall w, 1 <= w < ta -> w < t ->
              exists j : nat, l' !! j = Some (w + 1)).
    { intros w Hw Hwt. destruct (Hdown a ta w Ha Hw) as [j Hj].
      exists j. rewrite (Hput _ _ Hj).
      destruct (decide (j = c)) as [->|].
      - destruct Hcase as [[Hlc ?]|[Hlc ?]]; rewrite Hlc in Hj;
          injection Hj as <-; lia.
      - unfold aged. destruct (Z.eqb_spec w 0); [lia|].
        by destruct (Z.ltb_spec w t); [|lia]. }
    destruct (Z.ltb_spec ta t).
    + destruct (Hshift (v - 1)) as [j Hj]; [lia..|].
      exists j. rewrite Hj. f_equal. lia.
    + destruct (Z.le_gt_cases v t).
      * destruct (Hshift (v - 1)) as [j Hj]; [lia..|].
        exists j. rewrite Hj. f_equal. lia.
      * destruct (Hdown a ta v Ha) as [j Hj]; [lia|].
        exists j. rewrite (Hput _ _ Hj).
        destruct (decide (j = c)) as [->|].
        { destruct Hcase as [[Hlc ?]|[Hlc ?]]; rewrite Hlc in Hj;
            injection Hj as <-; lia. }
        unfold aged. destruct (Z.eqb_spec v 0); [lia|].
        by destruct (Z.ltb_spec v t); [lia|].
Qed.

Lemma ttl_inv_init : ttl_inv N (replicate N 0).
Proof.
  split.
  - apply length_replicate.
  - intros i t Hi. apply lookup_replicate in Hi as [-> _]. lia.
  - intros i j t Hi _ Hpos. apply lookup_replicate in Hi as [-> _]. lia.
  - intros i t v Hi Hv. apply lookup_replicate in Hi as [-> _]. lia.
Qed.

(** One call of [getFATCacheIdx]: the invariant is kept; a successful call
    returns a slot whose TTL is then 1, a failed call leaves the TTLs alone. *)
Lemma getFATCacheIdx_ttl_inv (f f' : FATFS_INFO) (sect : Z) r :
  ttl_inv N (fatc_ttl f) ->
  getFATCacheIdx N S B rd f sect = (f', r) ->
  ttl_inv N (fatc_ttl f') /\
  match r with
  | inr c => (c < N)%nat /\ fatc_ttl f' !! c = Some 1
  | inl _ => fatc_ttl f' = fatc_ttl f
  end.
Proof.
  intros Hinv. unfold getFATCacheIdx.
  destruct (List.find _ _) as [i|] eqn:Hfind.
  - intros [= <- <-]. simpl.
    apply find_some in Hfind as [Hin Hcov].
    apply list_elem_of_In, elem_of_seq in Hin.
    unfold slot_covers in Hcov.
    destruct (fatc_ttl f !! i) as [t|] eqn:Hi; [|done].
    destruct (fatc_addr f !! i); [|done].
    assert (0 < t) by (destruct (Z.ltb_spec 0 t); [done|by simpl in Hcov]).
    pose proof (promote_lookup (fatc_ttl f) i t) as Hlk.
    split.
    + apply (promote_inv (fatc_ttl f) _ i t); [done|lia| |by left].
      intros a. apply Hlk; [apply Hinv|done].
    + split; [lia|]. rewrite Hlk, Hi; [|apply Hinv|done]. simpl.
      by destruct (decide (i = i)).
  - destruct (find_victim_genuine _ Hinv) as (Hlt & t & Hv & Hcand).
    set (cidx := find_victim N (fatc_ttl f)) in *.
    destruct (rd _ _ _) as [cnt buf]. destruct (negb (cnt =? B)).
    + by intros [= <- <-].
    + intros [= <- <-]. simpl. rewrite Hv.
      pose proof (inv_len _ _ Hinv) as Hlen.
      pose proof (inv_range _ _ Hinv _ _ Hv) as Hr.
      destruct (decide (t = 0)) as [->|Hnz].
      * set (l0 := <[cidx := Z.of_nat N + 1]> (fatc_ttl f)).
        assert (Hl0 : l0 !! cidx = Some (Z.of_nat N + 1)).
        { apply list_lookup_insert_eq. lia. }
        pose proof (promote_lookup l0 cidx (Z.of_nat N + 1)) as Hlk.
        assert (Hall : forall a : nat,
          <[cidx := 1]> (age_loop N cidx l0) !! a =
          (fun ta => if decide (a = cidx) then 1
                     else aged (Z.of_nat N + 1) ta) <$> fatc_ttl f !! a).
        { intros a. rewrite (Hlk a); [|unfold l0; by rewrite length_insert|done].
          destruct (decide (a = cidx)) as [->|].
          - by rewrite Hl0, Hv.
          - unfold l0. by rewrite list_lookup_insert_ne. }
        split.
        -- apply (promote_inv (fatc_ttl f) _ cidx (Z.of_nat N + 1));
             [done|done|done|by right].
        -- split; [done|]. rewrite Hall, Hv. simpl.
           by destruct (decide (cidx = cidx)).
      * assert (Hsame : match t with 0 => <[cidx := Z.of_nat N + 1]> (fatc_ttl f)
                                | _ => fatc_ttl f end = fatc_ttl f)
          by (by destruct t).
        rewrite Hsame.
        pose proof (promote_lookup (fatc_ttl f) cidx t) as Hlk.
        split.
        -- apply (promote_inv (fatc_ttl f) _ cidx t); [done|done| |left; split; [done|lia]].
           intros a. by apply Hlk.
        -- split; [done|]. rewrite Hlk, Hv by done. simpl.
           by destruct (decide (cidx = cidx)).
Qed.

Lemma cache_reachable_inv (f : FATFS_INFO) (last : option nat) :
  cache_reachable N S B rd f last ->
  ttl_inv N (fatc_ttl f) /\
  forall c, last = Some c -> (c < N)%nat /\ fatc_ttl f !! c = Some 1.
Proof.
  induction 1 as [f|f last sect f' cidx _ [IH _] Hcall
                 |f last sect f' e _ [IH IHlast] Hcall].
  - split; [apply ttl_inv_init|done].
  - destruct (getFATCacheIdx_ttl_inv _ _ _ _ IH Hcall) as [Hinv Hc].
    split; [done|]. by intros c [= <-].
  - destruct (getFATCacheIdx_ttl_inv _ _ _ _ IH Hcall) as [Hinv Heq].
    split; [done|]. rewrite Heq. exact IHlast.
Qed.

(** C2 (cache monotonicity).  In every cache state reached from the
    open-time state (all TTLs 0) by calls of [getFATCacheIdx], the last
    successful one having returned slot [cidx]: the slots in use have pairwise
    distinct TTLs, every TTL in use lies in [1, N+1], and slot [cidx] is the
    one and only slot with TTL 1. *)
Theorem cache_ttl_distinct_mru (f : FATFS_INFO) (cidx : nat) :
  cache_reachable N S B rd f (Some cidx) ->
  (forall (i j : nat) ti tj,
      fatc_ttl f !! i = Some ti -> fatc_ttl f !! j = Some tj ->
      0 < ti -> 0 < tj -> i ≠ j -> ti ≠ tj) /\
  (forall (i : nat) t,
      fatc_ttl f !! i = Some t -> 0 < t -> 1 <= t <= Z.of_nat N + 1) /\
  fatc_ttl f !! cidx = Some 1 /\
  (forall j : nat, fatc_ttl f !! j = Some 1 -> j = cidx).
Proof.
  intros Hreach.
  destruct (cache_reachable_inv _ _ Hreach) as [Hinv Hlast].
  destruct (Hlast cidx eq_refl) as [_ Hone].
  split; [|split; [|split]].
  - intros i j ti tj Hi Hj Hti Htj Hne ->.
    apply Hne. by apply (inv_inj _ _ Hinv i j tj).
  - intros i t Hi Hpos. pose proof (inv_range _ _ Hinv _ _ Hi). lia.
  - done.
  - intros j Hj. by apply (inv_inj _ _ Hinv j cidx 1).
Qed.

(** C8 (the victim search always has a candidate).  In every cache state
    reached from the open-time state by calls of [getFATCacheIdx] some slot
    has TTL 0 or TTL at least N, and the slot the miss path selects is such a
    slot: its index is never the initial [cidx = 0] left over from a search
    without candidate. *)
Theorem victim_search_finds_candidate (f : FATFS_INFO) (last : option nat) :
  cache_reachable N S B rd f last ->
  (exists (i : nat) t,
      (i < N)%nat /\ fatc_ttl f !! i = Some t /\ (t = 0 \/ Z.of_nat N <= t)) /\
  (exists t,
      fatc_ttl f !! find_victim N (fatc_ttl f) = Some t /\
      (t = 0 \/ Z.of_nat N <= t)).
Proof.
  intros Hreach.
  destruct (cache_reachable_inv _ _ Hreach) as [Hinv _].
  destruct (find_victim_genuine _ Hinv) as (Hlt & t & Ht & Hcand).
  split; [|by exists t].
  by exists (find_victim N (fatc_ttl f)), t.
Qed.

End CacheTheory.

(** Witness of C2: the demo cache after two loads; slot 2 was loaded last. *)
Lemma cache_ttl_distinct_mru_witness :
  cache_reachable 4 8 4096 (fill_reader x00) cache_demo2 (Some 2%nat) /\
  fatc_ttl cache_demo2 !! 2%nat = Some 1.
Proof.
  assert (Hr : cache_reachable 4 8 4096 (fill_reader x00) cache_demo2
                 (Some 2%nat)).
  { apply (reach_acquire 4 8 4096 _ cache_demo1 (Some 3%nat) 100);
      [|vm_compute; reflexivity].
    apply (reach_acquire 4 8 4096 _ (fat_demo TSK_FS_TYPE_FAT16) None 1);
      [|vm_compute; reflexivity].
    apply reach_open. }
  split; [exact Hr|].
  apply (cache_ttl_distinct_mru 4 8 4096 (fill_reader x00) ltac:(lia) _ _ Hr).
Defined.

(** Witness of C8: the demo cache after one load still has unused slots. *)
Lemma victim_search_finds_candidate_witness :
  cache_reachable 4 8 4096 (fill_reader x00) cache_demo1 (Some 3%nat) /\
  exists t, fatc_ttl cache_demo1 !! find_victim 4 (fatc_ttl cache_demo1) = Some t
            /\ (t = 0 \/ Z.of_nat 4 <= t).
Proof.
  assert (Hr : cache_reachable 4 8 4096 (fill_reader x00) cache_demo1
                 (Some 3%nat)).
  { apply (reach_acquire 4 8 4096 _ (fat_demo TSK_FS_TYPE_FAT16) None 1);
      [|vm_compute; reflexivity].
    apply reach_open. }
  split; [exact Hr|].
  apply (victim_search_finds_candidate 4 8 4096 (fill_reader x00)
           ltac:(lia) _ _ Hr).
Defined.

(** ** The FAT chain resolver *)

Section GetFAT.

Variable N : nat.
Variables (S B : Z).
Variable rd : Z -> Z -> list byte -> Z * list byte.

Lemma same_geometry_refl f : same_geometry f f.
Proof. by repeat split. Qed.

Lemma same_geometry_set_cache f bufs addrs ttls :
  same_geometry f (set_cache f bufs addrs ttls).
Proof. by repeat split. Qed.

Lemma same_geometry_trans f1 f2 f3 :
  same_geometry f1 f2 -> same_geometry f2 f3 -> same_geometry f1 f3.
Proof. unfold same_geometry. intros H1 H2. intuition congruence. Qed.

Lemma getFATCacheIdx_geometry f sect :
  same_geometry f (fst (getFATCacheIdx N S B rd f sect)).
Proof.
  unfold getFATCacheIdx. destruct (List.find _ _).
  - apply same_geometry_set_cache.
  - destruct (rd _ _ _) as [cnt buf]. destruct (negb _); simpl;
      apply same_geometry_set_cache.
Qed.

Lemma fat_raw_entry_geometry f clust :
  same_geometry f (fst (fat_raw_entry N S B rd f clust)).
Proof.
  unfold fat_raw_entry, getFAT12_raw, getFAT16_raw, getFAT32_raw.
  pose proof (getFATCacheIdx_geometry f) as Hc.
  destruct (ftype (fs_info f)); try apply same_geometry_refl.
  - match goal with |- context [getFATCacheIdx N S B rd f ?s] =>
      specialize (Hc s); destruct (getFATCacheIdx N S B rd f s) as [f1 [e|cidx]]
    end; [done|]. simpl in Hc.
    destruct (_ =? B - 1); [|done].
    destruct (rd _ _ _) as [cnt buf]. destruct (negb _); simpl;
      (eapply same_geometry_trans; [exact Hc|]);
      repeat apply same_geometry_set_cache.
    eapply same_geometry_trans; apply same_geometry_set_cache.
  - match goal with |- context [getFATCacheIdx N S B rd f ?s] =>
      specialize (Hc s); destruct (getFATCacheIdx N S B rd f s) as [f1 [e|cidx]]
    end; done.
  - match goal with |- context [getFATCacheIdx N S B rd f ?s] =>
      specialize (Hc s); destruct (getFATCacheIdx N S B rd f s) as [f1 [e|cidx]]
    end; done.
Qed.

(** C1 (FAT range clamp).  Whenever a lookup of an in-range cluster reads the
    entry [v] from the cached FAT (FAT12: the 16 bits after the odd-cluster
    shift; FAT16: the 16 bits; FAT32: the 32 bits) and the masked entry lies
    strictly between [lastclust] and [0x0FFFFFF7 & mask], [fatfs_getFAT]
    returns success and stores 0 in [*value]. *)
Theorem fatfs_getFAT_range_clamp (f f' : FATFS_INFO) (clust value v : Z) :
  clust <= lastclust f ->
  (ftype (fs_info f) = TSK_FS_TYPE_FAT12 -> Z.land clust 0xf000 = 0) ->
  fat_raw_entry N S B rd f clust = (f', inr v) ->
  lastclust f < Z.land v (fat_mask (ftype (fs_info f)))
    < Z.land 0x0ffffff7 (fat_mask (ftype (fs_info f))) ->
  fatfs_getFAT N S B rd f clust value = (f', None, 0).
Proof.
  intros Hle H12 Hraw Hrange.
  pose proof (fat_raw_entry_geometry f clust) as Hgeo.
  rewrite Hraw in Hgeo. destruct Hgeo as (_ & Hlast & _). simpl in Hlast.
  unfold fatfs_getFAT. unfold fat_raw_entry in Hraw.
  destruct (Z.ltb_spec (lastclust f) clust); [lia|].
  assert (Hclamp : forall m, lastclust f < Z.land v m < Z.land 0x0ffffff7 m ->
            clamp_entry f' m (Z.land v m) = 0).
  { intros m Hm. unfold clamp_entry. rewrite Hlast.
    destruct (Z.ltb_spec (lastclust f) (Z.land v m)); [|lia].
    by destruct (Z.ltb_spec (Z.land v m) (Z.land 0x0ffffff7 m)); [|lia]. }
  destruct (ftype (fs_info f)); try discriminate.
  - rewrite H12 by done. simpl. rewrite Hraw. by rewrite Hclamp.
  - rewrite Hraw. by rewrite Hclamp.
  - rewrite Hraw. by rewrite Hclamp.
Qed.

(** [fatfs_getFAT] on the accepted request for the cluster after the last
    one: success, and [*value] is not written. *)
Lemma fatfs_getFAT_tail (f : FATFS_INFO) (clust value : Z) :
  lastclust f < clust ->
  clust = u64 (lastclust f + 1) ->
  u64 (firstclustsect f + u64 (csize f * clustcnt f) - 1)
    ≠ last_block (fs_info f) ->
  fatfs_getFAT N S B rd f clust value = (f, None, value).
Proof.
  intros Hlt -> Htail. unfold fatfs_getFAT.
  destruct (Z.ltb_spec (lastclust f) (u64 (lastclust f + 1))); [|lia].
  rewrite Z.eqb_refl. simpl.
  by destruct (Z.eqb_spec (u64 (firstclustsect f + u64 (csize f * clustcnt f) - 1))
                 (last_block (fs_info f))).
Qed.

(** C10 (error atomicity).  When the cluster is beyond [lastclust] and the
    request is not the accepted one for [lastclust + 1] with a non-clustered
    tail, [fatfs_getFAT] fails with ARG and returns the state, cache
    included, and [*value] exactly as they were. *)
Theorem fatfs_getFAT_arg_error_atomic (f : FATFS_INFO) (clust value : Z) :
  lastclust f < clust ->
  ~ (clust = u64 (lastclust f + 1) /\
     u64 (firstclustsect f + u64 (csize f * clustcnt f) - 1)
       ≠ last_block (fs_info f)) ->
  fatfs_getFAT N S B rd f clust value = (f, Some TSK_ERR_FS_ARG, value).
Proof.
  intros Hlt Hnot. unfold fatfs_getFAT.
  destruct (Z.ltb_spec (lastclust f) clust); [|lia].
  destruct (Z.eqb_spec clust (u64 (lastclust f + 1))); [|done].
  destruct (Z.eqb_spec (u64 (firstclustsect f + u64 (csize f * clustcnt f) - 1))
              (last_block (fs_info f))); [done|].
  exfalso. by apply Hnot.
Qed.

End GetFAT.

(** Witness of C1: the demo volume on an image filled with byte 0x40.  Entry
    5 reads 0x40404040 as FAT32 (masked 0x00404040), 0x4040 as FAT16 and
    0x0404 as FAT12 (odd cluster: 0x4040 shifted by 4), all above the last
    cluster 101 and below the reserved values. *)
Lemma fatfs_getFAT_range_clamp_witness :
  fatfs_getFAT 4 8 4096 (fill_reader "@") (fat_demo TSK_FS_TYPE_FAT32) 5 7
  = (fst (fat_raw_entry 4 8 4096 (fill_reader "@")
            (fat_demo TSK_FS_TYPE_FAT32) 5), None, 0) /\
  fatfs_getFAT 4 8 4096 (fill_reader "@") (fat_demo TSK_FS_TYPE_FAT16) 5 7
  = (fst (fat_raw_entry 4 8 4096 (fill_reader "@")
            (fat_demo TSK_FS_TYPE_FAT16) 5), None, 0) /\
  fatfs_getFAT 4 8 4096 (fill_reader "@") (fat_demo TSK_FS_TYPE_FAT12) 5 7
  = (fst (fat_raw_entry 4 8 4096 (fill_reader "@")
            (fat_demo TSK_FS_TYPE_FAT12) 5), None, 0).
Proof.
  split; [|split].
  - apply (fatfs_getFAT_range_clamp 4 8 4096 (fill_reader "@")
             (fat_demo TSK_FS_TYPE_FAT32) _ 5 7 0x40404040).
    + vm_compute. discriminate.
    + discriminate.
    + vm_compute. reflexivity.
    + vm_compute. split; reflexivity.
  - apply (fatfs_getFAT_range_clamp 4 8 4096 (fill_reader "@")
             (fat_demo TSK_FS_TYPE_FAT16) _ 5 7 0x4040).
    + vm_compute. discriminate.
    + discriminate.
    + vm_compute. reflexivity.
    + vm_compute. split; reflexivity.
  - apply (fatfs_getFAT_range_clamp 4 8 4096 (fill_reader "@")
             (fat_demo TSK_FS_TYPE_FAT12) _ 5 7 0x0404).
    + vm_compute. discriminate.
    + intros _. vm_compute. reflexivity.
    + vm_compute. reflexivity.
    + vm_compute. split; reflexivity.
Defined.

(** Witness of C10: cluster 103 of the demo volume (last cluster 101). *)
Lemma fatfs_getFAT_arg_error_atomic_witness :
  fatfs_getFAT 4 8 4096 (fill_reader x00) cache_demo2 103 7
  = (cache_demo2, Some TSK_ERR_FS_ARG, 7).
Proof.
  apply (fatfs_getFAT_arg_error_atomic 4 8 4096 (fill_reader x00)
           cache_demo2 103 7).
  - vm_compute. reflexivity.
  - intros [Heq _]. vm_compute in Heq. discriminate.
Defined.

Lemma open_demo_detect : open_demo TSK_FS_TYPE_FAT_DETECT = Some opened_demo.
Proof. vm_compute. reflexivity. Qed.

(** C3 at the failing input.  The volume [fatfs_open] returns for the 256 MiB
    partition has last cluster 16381 and a non-clustered tail
    ([firstclustsect + csize * clustcnt - 1] is not [last_block]).  The
    request for cluster 16382 returns success, and [*value], 7 before the
    call, is still 7 afterwards: no successor 0 is stored.  Through
    [fatfs_is_clustalloc] the stale value decides the answer: the cluster is
    reported allocated when the uninitialised local happened to hold 7,
    unallocated when it held 0. *)
Theorem fatfs_getFAT_tail_request_leaves_value :
  fatfs_getFAT 4 8 4096 (fill_reader x00) opened_demo 16382 7
    = (opened_demo, None, 7) /\
  snd (fatfs_is_clustalloc 4 8 4096 (fill_reader x00) 7 opened_demo 16382) = 1 /\
  snd (fatfs_is_clustalloc 4 8 4096 (fill_reader x00) 0 opened_demo 16382) = 0.
Proof. vm_compute. repeat split; reflexivity. Qed.

(** ** Opening a FAT volume *)

Lemma xtaf_geometry_clustcnt img_size offset rootsect sectperfat cc lc :
  xtaf_geometry img_size offset = Some (rootsect, sectperfat, cc, lc) ->
  8192 <= cc /\ lc < cc.
Proof.
  unfold xtaf_geometry.
  repeat (destruct (_ || _); [intros [= <- <- <- <-]; lia|]).
  discriminate.
Qed.

(** ** The FAT block walker *)

(** C4 at the failing input.  On the volume [fatfs_open] returns for the
    256 MiB partition (first cluster sector 112; all-zero image, so every
    cluster is free) the walk over [0, 112] with no filter returns 0 after
    delivering sectors 0..111 only.  Sector 112 is in the range and its
    flags, CONT | UNALLOC, are asked for by the walk flags, yet it is not
    delivered: after the pre-data loop the test [addr >= a_end_blk] returns
    although [addr = a_end_blk] is still to be walked.  The walk over
    [0, 113] does deliver it. *)
Theorem fatfs_block_walk_skips_first_cluster_sector :
  option_map (fun r => (snd (fst r), map blk_addr (snd r)))
    (fatfs_block_walk 4 8 4096 (fill_reader x00) 0 opened_demo 0 112 0
       record_cb [])
    = Some (0, seqZ 0 112) /\
  walk_selects 0
    (snd (fatfs_block_getflags 4 8 4096 (fill_reader x00) 0 opened_demo 112))
    = true /\
  option_map (fun r => (snd (fst r), map blk_addr (snd r)))
    (fatfs_block_walk 4 8 4096 (fill_reader x00) 0 opened_demo 0 113 0
       record_cb [])
    = Some (0, seqZ 0 114).
Proof. vm_compute. repeat split; reflexivity. Qed.

(** ** Registry cells *)

Lemma byte_val_bounds (b : byte) : 0 <= byte_val b < 256.
Proof. unfold byte_val. pose proof (Byte.to_N_bounded b). lia. Qed.

Lemma lor_shiftl_add (a b n : Z) :
  0 <= n -> 0 <= a < 2 ^ n -> Z.lor a (Z.shiftl b n) = a + b * 2 ^ n.
Proof.
  intros Hn Ha.
  assert (Hdisj : Z.land a (Z.shiftl b n) = 0).
  { rewrite <- (Z.mod_small a (2 ^ n)) by lia.
    rewrite <- Z.land_ones by lia.
    rewrite <- Z.land_assoc, (Z.land_comm (Z.ones n)), Z.land_ones by lia.
    rewrite Z.shiftl_mul_pow2, Z.mod_mul by lia. apply Z.land_0_r. }
  rewrite <- Z.lxor_lor, <- Z.add_nocarry_lxor by done.
  by rewrite Z.shiftl_mul_pow2.
Qed.

Lemma tsk_getu32_le (b0 b1 b2 b3 : byte) (rest : list byte) :
  tsk_getu32 TSK_LIT_ENDIAN (b0 :: b1 :: b2 :: b3 :: rest) 0
  = byte_val b0 + 256 * byte_val b1 + 65536 * byte_val b2
    + 16777216 * byte_val b3.
Proof.
  unfold tsk_getu32, buf_get. simpl.
  pose proof (byte_val_bounds b0). pose proof (byte_val_bounds b1).
  pose proof (byte_val_bounds b2). pose proof (byte_val_bounds b3).
  rewrite (lor_shiftl_add (byte_val b0) (byte_val b1) 8) by lia.
  replace (Z.shiftl (byte_val b3) 24)
    with (Z.shiftl (Z.shiftl (byte_val b3) 8) 16)
    by (rewrite Z.shiftl_shiftl by lia; reflexivity).
  rewrite <- Z.shiftl_lor.
  rewrite (lor_shiftl_add (byte_val b2) (byte_val b3) 8) by lia.
  rewrite lor_shiftl_add by lia. lia.
Qed.

Lemma land_pow2_testbit (a n : Z) :
  0 <= n -> Z.land a (2 ^ n) = if Z.testbit a n then 2 ^ n else 0.
Proof.
  intros Hn. apply Z.bits_inj'. intros m Hm.
  rewrite Z.land_spec, Z.pow2_bits_eqb by lia.
  destruct (Z.eqb_spec n m) as [->|Hne].
  - destruct (Z.testbit a m); simpl.
    + by rewrite Z.pow2_bits_true.
    + by rewrite Z.bits_0.
  - rewrite andb_false_r. destruct (Z.testbit a n).
    + by rewrite Z.pow2_bits_false.
    + by rewrite Z.bits_0.
Qed.

Lemma sign_bit_test (len : Z) :
  0 <= len < 2 ^ 32 ->
  (Z.land len (Z.shiftl 1 31) =? 0) = (len <? 2 ^ 31).
Proof.
  intros Hlen. change (Z.shiftl 1 31) with (2 ^ 31).
  rewrite land_pow2_testbit by lia.
  destruct (Z.testbit len 31) eqn:Hbit.
  - apply Z.testbit_true in Hbit; [|lia].
    destruct (Z.ltb_spec len (2 ^ 31)); [|done].
    rewrite Z.div_small in Hbit by lia. done.
  - destruct (Z.ltb_spec len (2 ^ 31)); [done|].
    assert (Hd : len / 2 ^ 31 = 1).
    { symmetry. apply Z.div_unique with (r := len - 2 ^ 31); lia. }
    assert (Z.testbit len 31 = true); [|congruence].
    apply Z.testbit_true; [lia|]. by rewrite Hd.
Qed.

Section RegTheory.

Variable rd : Z -> Z -> list byte -> Z * list byte.

(** C5 (cell sign rule).  For a cell header read in full from an offset the
    range check lets through, with [L] the signed little-endian value of its
    first four bytes: [is_allocated] is 1 exactly when [L < 0] (and 0
    otherwise), [length] is [|L|], and the call fails with INODE_COR exactly
    when that length is at least [HBIN_SIZE] = 4096. *)
Theorem reg_load_cell_sign_rule (fs : TSK_FS_INFO) (cell : Regfs.REGFS_CELL)
    (inum0 : Z) (b0 b1 b2 b3 b4 b5 : byte) :
  endian fs = TSK_LIT_ENDIAN ->
  first_block fs <= inum0 <= last_block fs ->
  rd inum0 6 [] = (6, [b0; b1; b2; b3; b4; b5]) ->
  let L := Regfs.le_s32 b0 b1 b2 b3 in
  let r := Regfs.reg_load_cell rd fs cell inum0 in
  (Regfs.is_allocated (fst r) = 1 <-> L < 0) /\
  (Regfs.is_allocated (fst r) = 0 <-> 0 <= L) /\
  Regfs.length (fst r) = Z.abs L /\
  (snd r = Some TSK_ERR_FS_INODE_COR <-> Regfs.HBIN_SIZE <= Z.abs L) /\
  (Z.abs L < Regfs.HBIN_SIZE -> snd r = None).
Proof.
  intros Hend Hrange Hread L r. subst L r.
  unfold Regfs.reg_load_cell, Regfs.le_s32, tsk_gets32, s32, u32.
  destruct (Z.ltb_spec inum0 (first_block fs)); [lia|].
  destruct (Z.ltb_spec (last_block fs) inum0); [lia|].
  cbv beta iota zeta. cbn [orb]. rewrite Hread, Hend.
  change (negb (6 =? 6)) with false. cbv beta iota zeta.
  rewrite tsk_getu32_le.
  pose proof (byte_val_bounds b0). pose proof (byte_val_bounds b1).
  pose proof (byte_val_bounds b2). pose proof (byte_val_bounds b3).
  set (u := byte_val b0 + 256 * byte_val b1 + 65536 * byte_val b2
            + 16777216 * byte_val b3) in *.
  assert (Hu : 0 <= u < 2 ^ 32) by (unfold u; lia).
  rewrite sign_bit_test by done.
  rewrite (Z.mod_small u) by lia.
  unfold Regfs.HBIN_SIZE.
  destruct (Z.ltb_spec u (2 ^ 31)); simpl.
  - destruct (Z.leb_spec 4096 u); simpl;
      repeat split; intros; try done; try lia.
  - rewrite (Z.mod_small (-1 * (u - 2 ^ 32))) by lia.
    destruct (Z.leb_spec 4096 (-1 * (u - 2 ^ 32))); simpl;
      repeat split; intros; try done; try lia.
Qed.

End RegTheory.

(** Witness of C5: the header [F8 FF FF FF 6E 6B] at offset 4096 of the demo
    hive is an allocated cell of length 8. *)
Lemma reg_load_cell_sign_rule_witness :
  let r := Regfs.reg_load_cell (header_reader [xf8; xff; xff; xff; x6e; x6b])
             reg_demo blank_cell 4096 in
  Regfs.is_allocated (fst r) = 1 /\ Regfs.length (fst r) = 8 /\ snd r = None.
Proof.
  pose proof (reg_load_cell_sign_rule
                (header_reader [xf8; xff; xff; xff; x6e; x6b]) reg_demo
                blank_cell 4096
                xf8 xff xff xff x6e x6b eq_refl
                ltac:(vm_compute; split; discriminate) eq_refl)
    as (Halloc & _ & Hlen & _ & Hok).
  split; [apply Halloc; reflexivity|].
  split; [exact Hlen|]. apply Hok. reflexivity.
Defined.




(** ** The Registry block walker *)

Section RegWalkTheory.

Variable rd : Z -> Z -> list byte -> Z * list byte.
Context {A : Type}.
Variable cb : TSK_FS_BLOCK -> A -> TSK_WALK_RET_ENUM * A.
Variable fs : TSK_FS_INFO.
Hypothesis fs_block_size : block_size fs = Regfs.HBIN_SIZE.

Lemma reg_walk_step_view (blk : Z) :
  tsk_fs_block_set fs blk Regfs.hbin_flags
    (snd (tsk_fs_read_block rd fs blk Regfs.HBIN_SIZE []))
  = (0, Regfs.hbin_view rd blk).
Proof.
  unfold tsk_fs_block_set, tsk_fs_read_block, Regfs.hbin_view.
  by rewrite fs_block_size.
Qed.

Lemma reg_walk_step_read (blk : Z) :
  fst (tsk_fs_read_block rd fs blk Regfs.HBIN_SIZE [])
  = fst (rd (blk * 4096) 4096 []).
Proof. unfold tsk_fs_read_block. by rewrite fs_block_size. Qed.

(** One iteration of the loop, by what the read and the callback do. *)
Lemma reg_walk_loop_unfold (e : Z) (fuel : nat) (blk : Z) (a : A) :
  blk < e ->
  Regfs.reg_block_walk_loop rd cb fs e (Datatypes.S fuel) blk a =
    if negb (fst (rd (blk * 4096) 4096 []) =? 4096) then Some (1, a)
    else match cb (Regfs.hbin_view rd blk) a with
         | (TSK_WALK_STOP, a') => Some (0, a')
         | (TSK_WALK_ERROR, a') => Some (1, a')
         | (TSK_WALK_CONT, a') =>
             Regfs.reg_block_walk_loop rd cb fs e fuel (u64 (blk + 1)) a'
         end.
Proof.
  intros Hlt. cbn [Regfs.reg_block_walk_loop].
  destruct (Z.ltb_spec blk e); [|lia].
  pose proof (reg_walk_step_view blk) as Hview.
  pose proof (reg_walk_step_read blk) as Hread.
  destruct (tsk_fs_read_block rd fs blk Regfs.HBIN_SIZE []) as [count buf].
  simpl in Hview, Hread. rewrite Hview, <- Hread.
  change Regfs.HBIN_SIZE with 4096. by destruct (negb (count =? 4096)).
Qed.

Lemma reg_walk_prefix (e : Z) (n fuel : nat) (s : Z) (a : A) :
  0 <= s -> s + Z.of_nat n <= e -> e < 2 ^ 64 ->
  (forall blk, s <= blk < s + Z.of_nat n ->
               fst (rd (blk * 4096) 4096 []) = 4096) ->
  (forall blk a0, s <= blk < s + Z.of_nat n ->
                  fst (cb (Regfs.hbin_view rd blk) a0) = TSK_WALK_CONT) ->
  Regfs.reg_block_walk_loop rd cb fs e (n + fuel) s a =
  Regfs.reg_block_walk_loop rd cb fs e fuel (s + Z.of_nat n)
    (Regfs.seen_after rd cb a (seqZ s (Z.of_nat n))).
Proof.
  revert s a. induction n as [|n IH]; intros s a Hs He He64 Hread Hcb.
  - simpl. by rewrite Z.add_0_r.
  - change (Datatypes.S n + fuel)%nat with (Datatypes.S (n + fuel)).
    rewrite reg_walk_loop_unfold by lia.
    rewrite Hread by lia. simpl negb. cbv iota.
    pose proof (Hcb s a ltac:(lia)) as Hc.
    destruct (cb (Regfs.hbin_view rd s) a) as [ret a'] eqn:Hcall.
    simpl in Hc. subst ret.
    assert (Hu : u64 (s + 1) = s + 1) by (unfold u64; apply Z.mod_small; lia).
    rewrite Hu, IH; try lia.
    + rewrite Nat2Z.inj_succ, (seqZ_cons s), Z.pred_succ by lia.
      unfold Regfs.seen_after at 2. cbn [foldl]. rewrite Hcall.
      change (Z.succ s) with (s + 1). f_equal. lia.
    + intros blk Hb. apply Hread. lia.
    + intros blk a0 Hb. apply Hcb. lia.
Qed.

(** C7 (HBIN walk).  For a range within the block bounds and any [k] in
    [s, e] such that the reads of blocks [s .. k-1] are complete and the
    callback continues on them: the callback has been invoked exactly on the
    views of [s, s+1, ..., k-1] in this order; if [k = e] the walk is
    complete and returns 0, block [e] not being visited; if the read of
    block [k] is short the walk returns 1; if the callback answers ERROR on
    block [k] the walk returns 1, and if it answers STOP the walk returns 0.
    The view of block [blk] has address [blk], the 4096 bytes read at
    [blk * 4096], and as flags the value 0x2D: the flags
    [reg_block_getflags] reports for the block, ALLOC, META and CONT, plus
    RAW, and not UNALLOC. *)
Theorem reg_block_walk_spec (s e flags : Z) (a : A) (k : Z) :
  first_block fs <= s <= last_block fs ->
  first_block fs <= e <= last_block fs ->
  0 <= s -> e < 2 ^ 64 -> s <= k <= e ->
  (forall blk, s <= blk < k -> fst (rd (blk * 4096) 4096 []) = 4096) ->
  (forall blk a0, s <= blk < k ->
                  fst (cb (Regfs.hbin_view rd blk) a0) = TSK_WALK_CONT) ->
  let ak := Regfs.seen_after rd cb a (seqZ s (k - s)) in
  let walk := Regfs.reg_block_walk rd cb fs s e flags a in
  (k = e -> walk = Some (0, ak)) /\
  (k < e -> fst (rd (k * 4096) 4096 []) ≠ 4096 -> walk = Some (1, ak)) /\
  (k < e -> fst (rd (k * 4096) 4096 []) = 4096 ->
   forall a', cb (Regfs.hbin_view rd k) ak = (TSK_WALK_ERROR, a') ->
              walk = Some (1, a')) /\
  (k < e -> fst (rd (k * 4096) 4096 []) = 4096 ->
   forall a', cb (Regfs.hbin_view rd k) ak = (TSK_WALK_STOP, a') ->
              walk = Some (0, a')) /\
  (forall blk,
     let v := Regfs.hbin_view rd blk in
     blk_addr v = blk /\
     blk_buf v = take (Z.to_nat 4096) (snd (rd (blk * 4096) 4096 [])) /\
     blk_flags v = 0x2d /\
     blk_flags v
     = Z.lor (Regfs.reg_block_getflags fs blk) TSK_FS_BLOCK_FLAG_RAW /\
     has_flag (blk_flags v) TSK_FS_BLOCK_FLAG_ALLOC = true /\
     has_flag (blk_flags v) TSK_FS_BLOCK_FLAG_META = true /\
     has_flag (blk_flags v) TSK_FS_BLOCK_FLAG_CONT = true /\
     has_flag (blk_flags v) TSK_FS_BLOCK_FLAG_RAW = true /\
     has_flag (blk_flags v) TSK_FS_BLOCK_FLAG_UNALLOC = false).
Proof.
  intros Hs He Hs0 He64 Hk Hread Hcb ak walk.
  assert (Hwalk : walk =
            Regfs.reg_block_walk_loop rd cb fs e
              (Datatypes.S (Z.to_nat (e - k))) k ak).
  { subst walk ak. unfold Regfs.reg_block_walk.
    destruct (Z.ltb_spec s (first_block fs)); [lia|].
    destruct (Z.ltb_spec (last_block fs) s); [lia|].
    destruct (Z.ltb_spec e (first_block fs)); [lia|].
    destruct (Z.ltb_spec (last_block fs) e); [lia|]. cbn [orb].
    replace (Datatypes.S (Z.to_nat (e - s)))
      with (Z.to_nat (k - s) + Datatypes.S (Z.to_nat (e - k)))%nat by lia.
    rewrite reg_walk_prefix; rewrite ?Z2Nat.id; try lia.
    - f_equal. lia.
    - intros blk Hb. apply Hread. lia.
    - intros blk a0 Hb. apply Hcb. lia. }
  rewrite Hwalk. split; [|split; [|split; [|split]]].
  - intros ->. simpl. by destruct (Z.ltb_spec e e); [lia|].
  - intros Hlt Hshort. rewrite reg_walk_loop_unfold by done.
    by destruct (Z.eqb_spec (fst (rd (k * 4096) 4096 [])) 4096).
  - intros Hlt Hok a' Hcall. rewrite reg_walk_loop_unfold by done.
    by rewrite Hok, Hcall.
  - intros Hlt Hok a' Hcall. rewrite reg_walk_loop_unfold by done.
    by rewrite Hok, Hcall.
  - intros blk v. subst v. unfold Regfs.hbin_view. cbn [blk_addr blk_buf
      blk_flags]. repeat split; reflexivity.
Qed.

End RegWalkTheory.

(** Witness of C7: the walk over [1, 3] of the demo hive on a zero-filled
    image gives the callback HBINs 1 and 2, each with flags 0x2D and 4096
    zero bytes, and returns 0; on an image of 8192 bytes the read of HBIN 2
    is short and the walk returns 1 after HBIN 1. *)
Lemma reg_block_walk_spec_witness :
  Regfs.reg_block_walk (fill_reader x00) record_cb reg_demo 1 3 0 []
    = Some (0, [mkBlock 1 0x2d (replicate 4096 x00);
                mkBlock 2 0x2d (replicate 4096 x00)]) /\
  option_map (fun r => (fst r, map blk_addr (snd r), map blk_flags (snd r)))
    (Regfs.reg_block_walk (bounded_reader 8192 x00) record_cb reg_demo 1 3 0
       [])
    = Some (1, [1], [0x2d]).
Proof.
  split.
  - refine (eq_trans
              (proj1 (reg_block_walk_spec (fill_reader x00) record_cb
                        reg_demo eq_refl 1 3 0 [] 3 _ _ _ _ _ _ _) eq_refl)
              _).
    + vm_compute. split; discriminate.
    + vm_compute. split; discriminate.
    + lia.
    + reflexivity.
    + lia.
    + reflexivity.
    + reflexivity.
    + vm_compute. reflexivity.
  - refine (eq_trans
              (f_equal
                 (option_map
                    (fun r => (fst r, map blk_addr (snd r),
                               map blk_flags (snd r))))
                 (proj1 (proj2 (reg_block_walk_spec (bounded_reader 8192 x00)
                                  record_cb reg_demo eq_refl 1 3 0 [] 2
                                  _ _ _ _ _ _ _)) _ _)) _).
    + vm_compute. split; discriminate.
    + vm_compute. split; discriminate.
    + lia.
    + reflexivity.
    + lia.
    + intros blk Hb. assert (blk = 1) as -> by lia. reflexivity.
    + reflexivity.
    + reflexivity.
    + vm_compute. discriminate.
    + vm_compute. reflexivity.
Defined.

(** * Further properties *)

(** ** The FAT sector cache *)

Section CacheMore.

Variable N : nat.
Variables (S B : Z).
Variable rd : Z -> Z -> list byte -> Z * list byte.
Hypothesis N_pos : (0 < N)%nat.

(** The victim search ends on the last candidate. *)
Lemma find_victim_last (l : list Z) (n i : nat) t :
  (i < n)%nat -> l !! i = Some t -> t = 0 \/ Z.of_nat N <= t ->
  (i <= foldl (victim_step N l) 0%nat (seq 0 n))%nat.
Proof.
  induction n as [|n IH]; [lia|]. intros Hi Ht Hcand.
  rewrite seq_S, foldl_snoc. simpl. unfold victim_step at 1.
  destruct (decide (i = n)) as [->|Hne].
  - rewrite Ht.
    assert ((t =? 0) || (Z.of_nat N <=? t) = true) as ->; [|done].
    apply orb_true_iff. destruct Hcand; [left|right]; lia.
  - specialize (IH ltac:(lia) Ht Hcand).
    destruct (l !! n) as [tn|]; [|done].
    destruct ((tn =? 0) || (Z.of_nat N <=? tn)); lia.
Qed.

(** X3.  In every cache state reached from the open-time state the TTL array
    has its [N] entries, no TTL exceeds [N], and the TTLs in use have no
    gaps: below every TTL in use each value from 1 on is the TTL of some
    slot. *)
Theorem cache_ttl_gap_free (f : FATFS_INFO) (last : option nat) :
  cache_reachable N S B rd f last ->
  length (fatc_ttl f) = N /\
  forall (i : nat) t,
    fatc_ttl f !! i = Some t ->
    0 <= t <= Z.of_nat N /\
    forall v, 1 <= v < t -> exists j : nat, fatc_ttl f !! j = Some v.
Proof.
  intros Hreach.
  destruct (cache_reachable_inv N S B rd N_pos _ _ Hreach) as [Hinv _].
  split; [apply Hinv|]. intros i t Hi.
  split; [by apply (inv_range _ _ Hinv i)|].
  intros v Hv. by apply (inv_down _ _ Hinv i t).
Qed.

(** The TTLs after a miss has loaded a sector into the victim [c]: slot [c]
    is the most recent, every other slot in use has aged by one and every
    other unused slot is still unused. *)
Lemma miss_ttl_lookup (l : list Z) (c : nat) (t : Z) :
  ttl_inv N l -> (c < N)%nat -> l !! c = Some t ->
  t = 0 \/ Z.of_nat N <= t ->
  let l0 := match l !! c with
            | Some 0 => <[c := Z.of_nat N + 1]> l
            | _ => l
            end in
  <[c := 1]> (age_loop N c l0) !! c = Some 1 /\
  forall (j : nat) tj,
    j ≠ c -> l !! j = Some tj ->
    <[c := 1]> (age_loop N c l0) !! j
    = Some (if tj =? 0 then 0 else tj + 1).
Proof.
  intros Hinv Hc Ht Hcand l0.
  pose proof (inv_len _ _ Hinv) as Hlen.
  pose proof (inv_range _ _ Hinv _ _ Ht) as Hrange.
  assert (Hl0 : exists t0,
            length l0 = N /\ l0 !! c = Some t0 /\
            (forall j : nat, j ≠ c -> l0 !! j = l !! j) /\
            (forall (j : nat) tj, j ≠ c -> l !! j = Some tj -> tj ≠ 0 ->
                                  tj < t0)).
  { subst l0. rewrite Ht. destruct (decide (t = 0)) as [->|Hnz].
    - exists (Z.of_nat N + 1). split; [by rewrite length_insert|].
      split; [apply list_lookup_insert_eq; lia|].
      split; [by intros j Hj; rewrite list_lookup_insert_ne|].
      intros j tj Hj Htj _. pose proof (inv_range _ _ Hinv _ _ Htj). lia.
    - exists t.
      assert (match t with
              | 0 => <[c := Z.of_nat N + 1]> l
              | _ => l
              end = l) as -> by (by destruct t).
      split; [done|]. split; [done|]. split; [done|].
      intros j tj Hj Htj Hnz'.
      pose proof (inv_range _ _ Hinv _ _ Htj).
      assert (tj ≠ t); [|lia].
      intros ->. apply Hj. apply (inv_inj _ _ Hinv j c t); [done|done|lia]. }
  destruct Hl0 as (t0 & Hlen0 & Hc0 & Hsame & Hlt).
  split.
  - rewrite (promote_lookup N N_pos l0 c t0 c Hlen0 Hc0), Hc0. simpl.
    by destruct (decide (c = c)).
  - intros j tj Hj Htj.
    rewrite (promote_lookup N N_pos l0 c t0 j Hlen0 Hc0), (Hsame j Hj), Htj.
    simpl. destruct (decide (j = c)); [done|]. f_equal. unfold aged.
    destruct (Z.eqb_spec tj 0) as [->|Hnz]; [done|].
    pose proof (Hlt j tj Hj Htj Hnz).
    by destruct (Z.ltb_spec tj t0); [|lia].
Qed.

(** X2.  The replacement policy on a miss.  In a reachable cache, when no
    slot in use covers the sector and the read succeeds: the slot returned is
    the last unused slot if there is an unused one, and otherwise the slot
    of TTL [N], every other slot having a smaller TTL (it is the least
    recently used).  The slot returned gets the sector as address and TTL 1;
    every other slot keeps its address and its buffer, stays unused if it
    was unused and stays in use, one step older, if it was in use.  So
    while a slot is free no loaded sector is dropped. *)
Theorem cache_miss_victim (f f' : FATFS_INFO) (last : option nat)
    (sect : Z) (c : nat) :
  cache_reachable N S B rd f last ->
  List.find (slot_covers S f sect) (seq 0 N) = None ->
  getFATCacheIdx N S B rd f sect = (f', inr c) ->
  (c < N)%nat /\
  ((exists z : nat, fatc_ttl f !! z = Some 0) ->
   fatc_ttl f !! c = Some 0 /\
   forall z : nat, fatc_ttl f !! z = Some 0 -> (z <= c)%nat) /\
  ((forall z : nat, fatc_ttl f !! z ≠ Some 0) ->
   fatc_ttl f !! c = Some (Z.of_nat N) /\
   forall (j : nat) t, j ≠ c -> fatc_ttl f !! j = Some t ->
                       0 < t < Z.of_nat N) /\
  fatc_addr f' = <[c := sect]> (fatc_addr f) /\
  (forall j : nat, j ≠ c -> fatc_buf f' !! j = fatc_buf f !! j) /\
  fatc_ttl f' !! c = Some 1 /\
  (forall (j : nat) t,
     j ≠ c -> fatc_ttl f !! j = Some t ->
     fatc_ttl f' !! j = Some (if t =? 0 then 0 else t + 1)) /\
  (forall (j : nat) t,
     fatc_ttl f !! j = Some t -> 0 < t ->
     (exists z : nat, fatc_ttl f !! z = Some 0) ->
     j ≠ c /\ fatc_ttl f' !! j = Some (t + 1) /\
     fatc_addr f' !! j = fatc_addr f !! j /\
     fatc_buf f' !! j = fatc_buf f !! j).
Proof.
  intros Hreach Hmiss Hcall.
  destruct (cache_reachable_inv N S B rd N_pos _ _ Hreach) as [Hinv _].
  destruct (find_victim_genuine N N_pos _ Hinv) as (Hlt & t & Ht & Hcand).
  destruct (miss_ttl_lookup _ _ _ Hinv Hlt Ht Hcand) as [Hone Hothers].
  unfold getFATCacheIdx in Hcall. rewrite Hmiss in Hcall.
  destruct (rd _ _ _) as [cnt buf]. destruct (negb (cnt =? B)); [done|].
  injection Hcall as <- <-. simpl.
  assert (Hfree : (exists z : nat, fatc_ttl f !! z = Some 0) -> t = 0).
  { intros [z Hz].
    pose proof (inv_zero_small N N_pos (fatc_ttl f) z Hinv Hz _ _ Ht). lia. }
  split; [done|]. split; [|split; [|split; [|split; [|split; [|split]]]]].
  - intros Hz. rewrite (Hfree Hz) in *. split; [done|].
    intros z' Hz'. apply (find_victim_last _ N z' 0); [|done|by left].
    apply lookup_lt_Some in Hz'. by rewrite (inv_len _ _ Hinv) in Hz'.
  - intros Hnz. destruct Hcand as [->|Hge]; [by apply Hnz in Ht|].
    pose proof (inv_range _ _ Hinv _ _ Ht) as Hr.
    assert (t = Z.of_nat N) as -> by lia. split; [done|].
    intros j tj Hj Htj. pose proof (inv_range _ _ Hinv _ _ Htj).
    assert (tj ≠ 0) by (intros ->; by apply (Hnz j)).
    assert (tj ≠ Z.of_nat N); [|lia].
    intros ->.
    apply Hj. apply (inv_inj _ _ Hinv j _ (Z.of_nat N)); [done|done|lia].
  - done.
  - intros j Hj. by rewrite list_lookup_insert_ne.
  - exact Hone.
  - exact Hothers.
  - intros j tj Htj Hpos Hz. rewrite (Hfree Hz) in Ht.
    assert (Hj : j ≠ find_victim N (fatc_ttl f)).
    { intros ->. rewrite Ht in Htj. injection Htj as <-. lia. }
    split; [done|]. split.
    + rewrite (Hothers j tj Hj Htj).
      by destruct (Z.eqb_spec tj 0); [lia|].
    + by rewrite !list_lookup_insert_ne.
Qed.

End CacheMore.

(** Witness of X3: the demo cache after two loads. *)
Lemma cache_ttl_gap_free_witness :
  cache_reachable 4 8 4096 (fill_reader x00) cache_demo2 (Some 2%nat) /\
  length (fatc_ttl cache_demo2) = 4%nat.
Proof.
  assert (Hr : cache_reachable 4 8 4096 (fill_reader x00) cache_demo2
                 (Some 2%nat)).
  { apply (reach_acquire 4 8 4096 _ cache_demo1 (Some 3%nat) 100);
      [|vm_compute; reflexivity].
    apply (reach_acquire 4 8 4096 _ (fat_demo TSK_FS_TYPE_FAT16) None 1);
      [|vm_compute; reflexivity].
    apply reach_open. }
  split; [exact Hr|].
  exact (proj1 (cache_ttl_gap_free 4 8 4096 (fill_reader x00) ltac:(lia)
                  _ _ Hr)).
Defined.

(** Witness of X2.  With a free slot: loading sector 100 into the demo
    cache that holds sector 1 in slot 3 takes slot 2, the last unused one,
    and slot 3 stays in use with TTL 2.  With the cache full (sectors 1,
    100, 200, 300 in slots 3, 2, 1, 0): loading sector 400 replaces slot 3,
    the one of TTL 4, and slot 0, the most recent before, gets TTL 2. *)
Lemma cache_miss_victim_witness :
  (fatc_ttl cache_demo1 !! 2%nat = Some 0 /\
   fatc_addr cache_demo2 = <[2%nat := 100]> (fatc_addr cache_demo1) /\
   fatc_ttl cache_demo2 !! 3%nat = Some 2) /\
  (fatc_ttl cache_demo4 !! 3%nat = Some 4 /\
   fatc_addr cache_demo5 = <[3%nat := 400]> (fatc_addr cache_demo4) /\
   fatc_ttl cache_demo5 !! 0%nat = Some 2).
Proof.
  assert (Hr1 : cache_reachable 4 8 4096 (fill_reader x00) cache_demo1
                  (Some 3%nat)).
  { apply (reach_acquire 4 8 4096 _ (fat_demo TSK_FS_TYPE_FAT16) None 1);
      [|vm_compute; reflexivity].
    apply reach_open. }
  assert (Hr4 : cache_reachable 4 8 4096 (fill_reader x00) cache_demo4
                  (Some 0%nat)).
  { apply (reach_acquire 4 8 4096 _ cache_demo3 (Some 1%nat) 300);
      [|vm_compute; reflexivity].
    apply (reach_acquire 4 8 4096 _ cache_demo2 (Some 2%nat) 200);
      [|vm_compute; reflexivity].
    apply (reach_acquire 4 8 4096 _ cache_demo1 (Some 3%nat) 100);
      [|vm_compute; reflexivity].
    exact Hr1. }
  split.
  - pose proof (cache_miss_victim 4 8 4096 (fill_reader x00) ltac:(lia)
                  cache_demo1 cache_demo2 (Some 3%nat) 100 2%nat Hr1
                  ltac:(vm_compute; reflexivity)
                  ltac:(vm_compute; reflexivity))
      as (_ & Hfree & _ & Haddr & _ & _ & Hothers & _).
    split; [|split; [exact Haddr|]].
    + apply Hfree. exists 0%nat. vm_compute. reflexivity.
    + exact (Hothers 3%nat 1 ltac:(lia) eq_refl).
  - pose proof (cache_miss_victim 4 8 4096 (fill_reader x00) ltac:(lia)
                  cache_demo4 cache_demo5 (Some 0%nat) 400 3%nat Hr4
                  ltac:(vm_compute; reflexivity)
                  ltac:(vm_compute; reflexivity))
      as (_ & _ & Hfull & Haddr & _ & _ & Hothers & _).
    split; [|split; [exact Haddr|]].
    + apply Hfull. intros z.
      destruct z as [|[|[|[|z]]]]; vm_compute; discriminate.
    + exact (Hothers 0%nat 1 ltac:(lia) eq_refl).
Defined.

(** ** Lookups through the cache against the image *)

Lemma u64_small (x : Z) : 0 <= x < 2 ^ 64 -> u64 x = x.
Proof. intros H. unfold u64. by apply Z.mod_small. Qed.

Lemma image_bytes_lookup (image : Z -> byte) (off len n : Z) :
  0 <= n < len ->
  image_bytes image off len !! Z.to_nat n = Some (image (off + n)).
Proof.
  intros Hn. unfold image_bytes.
  rewrite list_lookup_fmap, lookup_seqZ_lt by lia.
  simpl. do 2 f_equal. lia.
Qed.

Lemma buf_get_image (image : Z -> byte) (off len p : Z) :
  0 <= p < len ->
  buf_get (image_bytes image off len) p = byte_val (image (off + p)).
Proof.
  intros Hp. unfold buf_get. destruct (Z.ltb_spec p 0); [lia|].
  by rewrite image_bytes_lookup.
Qed.

Lemma tsk_getu16_image (e : TSK_ENDIAN_ENUM) (image : Z -> byte)
    (off len p : Z) :
  0 <= p -> p + 2 <= len ->
  tsk_getu16 e (image_bytes image off len) p
  = tsk_getu16 e (image_bytes image (off + p) 2) 0.
Proof.
  intros Hp Hlen. unfold tsk_getu16.
  rewrite !(buf_get_image image off len) by lia.
  rewrite !(buf_get_image image (off + p) 2) by lia.
  by rewrite Z.add_0_r, Z.add_assoc.
Qed.

Lemma tsk_getu32_image (e : TSK_ENDIAN_ENUM) (image : Z -> byte)
    (off len p : Z) :
  0 <= p -> p + 4 <= len ->
  tsk_getu32 e (image_bytes image off len) p
  = tsk_getu32 e (image_bytes image (off + p) 4) 0.
Proof.
  intros Hp Hlen. unfold tsk_getu32.
  rewrite !(buf_get_image image off len) by lia.
  rewrite !(buf_get_image image (off + p) 4) by lia.
  destruct e; repeat (f_equal; try lia).
Qed.

Section Coherence.

Variable N : nat.
Variables (S B : Z).
Variable rd : Z -> Z -> list byte -> Z * list byte.
Variable image : Z -> byte.
Hypothesis N_pos : (0 < N)%nat.
Hypothesis rd_image : reads_image rd image.

Lemma aged_pos (t ta : Z) : 0 <= ta -> 0 < aged t ta -> 0 < ta.
Proof.
  unfold aged. intros Hta. destruct (Z.eqb_spec ta 0); [lia|].
  destruct (ta <? t); lia.
Qed.

(** After a successful call the slots in use other than the one returned
    were in use before. *)
Lemma getFATCacheIdx_in_use (f f' : FATFS_INFO) (sect : Z) (c : nat) :
  ttl_inv N (fatc_ttl f) ->
  getFATCacheIdx N S B rd f sect = (f', inr c) ->
  forall (j : nat) t', j ≠ c -> fatc_ttl f' !! j = Some t' -> 0 < t' ->
                       exists t, fatc_ttl f !! j = Some t /\ 0 < t.
Proof.
  intros Hinv Hcall j t' Hj Ht' Hpos.
  pose proof (inv_len _ _ Hinv) as Hlen.
  assert (Hgen : forall (l : list Z) ti,
            length l = N -> l !! c = Some ti ->
            <[c := 1]> (age_loop N c l) !! j = Some t' ->
            exists t, l !! j = Some t /\ (0 <= t -> 0 < t)).
  { intros l ti Hl Hc Hlk.
    rewrite (promote_lookup N N_pos l c ti j Hl Hc) in Hlk.
    apply fmap_Some in Hlk as (t & Ht & ->). exists t. split; [done|].
    destruct (decide (j = c)); [done|]. intros H0. by apply (aged_pos ti). }
  unfold getFATCacheIdx in Hcall.
  destruct (List.find _ _) as [i|] eqn:Hfind.
  - injection Hcall as <- <-. simpl in Ht'.
    apply find_some in Hfind as [_ Hcov]. unfold slot_covers in Hcov.
    destruct (fatc_ttl f !! i) as [ti|] eqn:Hi; [|done].
    destruct (Hgen _ ti Hlen Hi Ht') as (t & Ht & Hp).
    exists t. split; [done|]. apply Hp. by apply (inv_range _ _ Hinv j).
  - destruct (find_victim_genuine N N_pos _ Hinv) as (Hlt & t & Hv & Hcand).
    destruct (rd _ _ _) as [cnt buf]. destruct (negb (cnt =? B)); [done|].
    injection Hcall as <- <-. simpl in Ht'. rewrite Hv in Ht'.
    destruct (decide (t = 0)) as [->|Hnz].
    + set (l0 := <[find_victim N (fatc_ttl f) := Z.of_nat N + 1]> (fatc_ttl f))
        in *.
      destruct (Hgen l0 (Z.of_nat N + 1)) as (t & Ht & Hp); [| |done|].
      * unfold l0. by rewrite length_insert.
      * unfold l0. apply list_lookup_insert_eq. lia.
      * unfold l0 in Ht. rewrite list_lookup_insert_ne in Ht by done.
        exists t. split; [done|]. apply Hp. by apply (inv_range _ _ Hinv j).
    + assert (Hsame : match t with 0 => <[find_victim N (fatc_ttl f)
                                            := Z.of_nat N + 1]> (fatc_ttl f)
                                | _ => fatc_ttl f end = fatc_ttl f)
        by (by destruct t).
      rewrite Hsame in Ht'.
      destruct (Hgen _ t Hlen Hv Ht') as (t0 & Ht0 & Hp).
      exists t0. split; [done|]. apply Hp. by apply (inv_range _ _ Hinv j).
Qed.

(** A call for a sector number keeps the cache well formed. *)
Lemma getFATCacheIdx_wf (f f' : FATFS_INFO) (sect : Z) r :
  cache_wf N f -> 0 <= sect ->
  getFATCacheIdx N S B rd f sect = (f', r) -> cache_wf N f'.
Proof.
  intros (Hinv & Hla & Hlb & Hnn) Hsect Hcall.
  destruct (getFATCacheIdx_ttl_inv N S B rd N_pos _ _ _ _ Hinv Hcall)
    as [Hinv' _].
  split; [done|]. unfold getFATCacheIdx in Hcall.
  destruct (List.find _ _).
  - by injection Hcall as <- <-.
  - destruct (rd _ _ _) as [cnt buf]. destruct (negb (cnt =? B));
      injection Hcall as <- <-; simpl; rewrite ?length_insert;
      (split; [done|]); (split; [done|]); [done|].
    intros i a Hi. apply list_lookup_insert_Some in Hi as [(_ & -> & _)|[_ Hi]];
      [done|by apply (Hnn i)].
Qed.

(** A successful call returns a slot that covers the sector and keeps the
    cache coherent with the image. *)
Lemma getFATCacheIdx_coherent (f f' : FATFS_INFO) (sect : Z) (c : nat) :
  cache_wf N f -> cache_coherent B image f ->
  0 <= sect -> 0 < S -> sect + S < 2 ^ 64 ->
  getFATCacheIdx N S B rd f sect = (f', inr c) ->
  cache_coherent B image f' /\
  exists a, fatc_addr f' !! c = Some a /\ 0 <= a <= sect /\ sect < a + S /\
            fatc_ttl f' !! c = Some 1.
Proof.
  intros Hwf Hcoh Hsect HS Hbound Hcall.
  pose proof Hwf as (Hinv & Hla & Hlb & Hnn).
  pose proof (getFATCacheIdx_in_use _ _ _ _ Hinv Hcall) as Huse.
  destruct (getFATCacheIdx_ttl_inv N S B rd N_pos _ _ _ _ Hinv Hcall)
    as [_ [Hc Hone]].
  unfold getFATCacheIdx in Hcall.
  destruct (List.find _ _) as [i|] eqn:Hfind.
  - injection Hcall as <- <-. simpl in *.
    apply find_some in Hfind as [_ Hcov]. unfold slot_covers in Hcov.
    destruct (fatc_ttl f !! i) as [ti|] eqn:Hi; [|done].
    destruct (fatc_addr f !! i) as [a|] eqn:Ha; [|done].
    pose proof (Hnn _ _ Ha) as Ha0.
    apply andb_true_iff in Hcov as [Hcov Hhi].
    apply andb_true_iff in Hcov as [Hti Hlo].
    apply Z.ltb_lt in Hti. apply Z.leb_le in Hlo. apply Z.ltb_lt in Hhi.
    rewrite u64_small in Hhi by lia.
    split; [|exists a; repeat split; done || lia].
    intros j t' a' Ht' Hpos Ha'. unfold cache_coherent in Hcoh. simpl.
    destruct (decide (j = i)) as [->|Hne].
    + by apply (Hcoh i ti a').
    + destruct (Huse j t' Hne Ht' Hpos) as (t & Ht & Htpos).
      by apply (Hcoh j t a').
  - destruct (rd _ _ _) as [cnt buf] eqn:Hrd.
    destruct (Z.eqb_spec cnt B) as [->|]; [|done]. simpl in Hcall.
    injection Hcall as <- <-. simpl in *.
    pose proof (rd_image (u64 (sect * block_size (fs_info f))) B
                  (default [] (fatc_buf f !! find_victim N (fatc_ttl f))))
      as Himg.
    rewrite Hrd in Himg. simpl in Himg. specialize (Himg eq_refl).
    set (c := find_victim N (fatc_ttl f)) in *.
    split.
    + intros j t' a' Ht' Hpos Ha'. cbn [fatc_ttl fatc_addr fatc_buf set_cache
        fs_info] in *.
      destruct (decide (j = c)) as [->|Hne].
      * rewrite list_lookup_insert_eq in Ha' by lia. injection Ha' as <-.
        rewrite list_lookup_insert_eq by lia. by rewrite Himg.
      * rewrite list_lookup_insert_ne in Ha' by done.
        rewrite list_lookup_insert_ne by done.
        destruct (Huse j t' Hne Ht' Hpos) as (t & Ht & Htpos).
        by apply (Hcoh j t a').
    + exists sect. rewrite list_lookup_insert_eq by lia.
      repeat split; done || lia.
Qed.

(** Where the byte of FAT index [b] lies in a slot that covers its sector. *)
Lemma located_offset (ssz ffs a sect b : Z) :
  0 < ssz -> 0 <= b -> sect = ffs + b / ssz -> 0 <= a <= sect ->
  sect < a + S ->
  0 <= (sect - a) * ssz + b mod ssz /\
  (sect - a) * ssz + b mod ssz + (ssz - b mod ssz) <= S * ssz /\
  a * ssz + ((sect - a) * ssz + b mod ssz) = ffs * ssz + b.
Proof.
  intros Hssz Hb -> Ha Hlt.
  pose proof (Z.mod_pos_bound b ssz Hssz) as Hmod.
  pose proof (Z.div_mod b ssz ltac:(lia)) as Hdm.
  split; [nia|]. split; nia.
Qed.

(** The sector of FAT byte index [b], and the room around it. *)
Lemma fat_sector_bounds (f : FATFS_INFO) (b : Z) :
  fat_layout_ok S B f -> 0 <= b <= 4 * lastclust f ->
  Z.shiftr b (ssize_sh f) = b / ssize f /\
  0 <= firstfatsect f + b / ssize f /\
  (firstfatsect f + b / ssize f + S) * ssize f < 2 ^ 64 /\
  4 <= ssize f.
Proof.
  intros (Hsh & Hss & _ & _ & HS & Hffs & Hmax) Hb.
  assert (H4 : 4 <= ssize f).
  { rewrite Hss. change 4 with (2 ^ 2). apply Z.pow_le_mono_r; lia. }
  assert (Hdiv : 0 <= b / ssize f <= b).
  { split; [apply Z.div_pos; lia|]. apply Z.div_le_upper_bound; nia. }
  rewrite Z.shiftr_div_pow2, <- Hss by lia.
  repeat split; try lia. nia.
Qed.

(** What a successful load for FAT byte index [b] leaves in the slot. *)
Lemma acquire_slot (f f1 : FATFS_INFO) (b : Z) (c : nat) :
  fat_layout_ok S B f -> cache_wf N f -> cache_coherent B image f ->
  0 <= b <= 4 * lastclust f ->
  getFATCacheIdx N S B rd f (firstfatsect f + b / ssize f) = (f1, inr c) ->
  cache_wf N f1 /\ cache_coherent B image f1 /\ same_geometry f f1 /\
  (c < N)%nat /\
  fatc_ttl f1 !! c = Some 1 /\
  0 <= slot_addr f1 c <= firstfatsect f + b / ssize f /\
  firstfatsect f + b / ssize f < slot_addr f1 c + S /\
  fatc_addr f1 !! c = Some (slot_addr f1 c) /\
  fatc_buf f1 !! c = Some (slot_buf f1 c) /\
  slot_buf f1 c = image_bytes image (slot_addr f1 c * ssize f) B.
Proof.
  intros Hlay Hwf Hcoh Hb Hcall.
  destruct (fat_sector_bounds f b Hlay Hb) as (_ & Hs0 & Hs1 & H4).
  pose proof Hlay as (Hsh & Hss & Hbs & HB & HS & Hffs & Hmax).
  pose proof (getFATCacheIdx_wf _ _ _ _ Hwf Hs0 Hcall) as Hwf1.
  destruct (getFATCacheIdx_coherent _ _ _ _ Hwf Hcoh Hs0 ltac:(lia)
              ltac:(nia) Hcall) as (Hcoh1 & a & Ha & Hrange & Hlt & Hone).
  pose proof (getFATCacheIdx_geometry N S B rd f
                (firstfatsect f + b / ssize f)) as Hgeo.
  rewrite Hcall in Hgeo. simpl in Hgeo.
  assert (Hsa : slot_addr f1 c = a) by (unfold slot_addr; by rewrite Ha).
  pose proof (Hcoh1 c 1 a Hone ltac:(lia) Ha) as Hbuf.
  destruct Hgeo as (Hfs & Hrest). rewrite Hfs, Hbs in Hbuf.
  rewrite u64_small in Hbuf by nia.
  assert (Hsb : slot_buf f1 c = image_bytes image (a * ssize f) B)
    by (unfold slot_buf; by rewrite Hbuf).
  rewrite Hsa, Hsb.
  split; [exact Hwf1|]. split; [exact Hcoh1|].
  split; [exact (conj Hfs Hrest)|].
  split.
  { apply lookup_lt_Some in Ha. destruct Hwf1 as (_ & Hl & _). lia. }
  split; [exact Hone|]. split; [lia|]. split; [lia|].
  split; [exact Ha|]. split; [exact Hbuf|]. reflexivity.
Qed.

(** The model's offset expression, without the wrap-arounds. *)
Lemma slot_offset_norm (f : FATFS_INFO) (a sect r : Z) :
  fat_layout_ok S B f -> 0 <= a <= sect -> sect < a + S ->
  (sect + S) * ssize f < 2 ^ 64 -> 0 <= r < ssize f ->
  u64 (u64 (Z.shiftl (u64 (sect - a)) (ssize_sh f)) + r)
  = (sect - a) * ssize f + r.
Proof.
  intros (Hsh & Hss & _ & _ & HS & _) Ha Hlt Hmax Hr.
  assert (0 < ssize f) by lia.
  rewrite (u64_small (sect - a)) by nia.
  rewrite Z.shiftl_mul_pow2, <- Hss by lia.
  rewrite (u64_small ((sect - a) * ssize f)) by nia.
  apply u64_small. nia.
Qed.

Lemma getFAT16_raw_disk (f f1 : FATFS_INFO) (clust v : Z) :
  fat_layout_ok S B f -> cache_wf N f -> cache_coherent B image f ->
  0 <= clust <= lastclust f ->
  getFAT16_raw N S B rd f clust = (f1, inr v) ->
  v = tsk_getu16 (endian (fs_info f))
        (image_bytes image (firstfatsect f * ssize f + 2 * clust) 2) 0 /\
  cache_wf N f1 /\ cache_coherent B image f1 /\ same_geometry f f1.
Proof.
  intros Hlay Hwf Hcoh Hc. unfold getFAT16_raw.
  pose proof Hlay as (Hsh & Hss & Hbs & HB & HS & Hffs & Hmax).
  destruct (fat_sector_bounds f (2 * clust) Hlay ltac:(lia))
    as (Hshr & Hs0 & Hs1 & H4).
  assert (Hb : u64 (Z.shiftl clust 1) = 2 * clust).
  { rewrite Z.shiftl_mul_pow2 by lia. change (2 ^ 1) with 2.
    rewrite u64_small by nia. lia. }
  rewrite Hb, Hshr, (u64_small (firstfatsect f + _)) by nia.
  destruct (getFATCacheIdx N S B rd f _) as [f0 [e|c]] eqn:Hcall; [done|].
  intros [= <- <-].
  destruct (acquire_slot f f0 (2 * clust) c Hlay Hwf Hcoh ltac:(lia) Hcall)
    as (Hwf1 & Hcoh1 & Hgeo & _ & _ & Ha & Hlt & _ & _ & Hbuf).
  pose proof Hgeo as (_ & _ & _ & _ & _ & Hss1 & Hsh1 & _).
  rewrite Hss1, Hsh1.
  assert (Heven : 0 <= (2 * clust) mod ssize f <= ssize f - 2).
  { rewrite Hss. replace (ssize_sh f) with (1 + (ssize_sh f - 1)) by lia.
    rewrite Z.pow_add_r, Z.pow_1_r, Z.mul_mod_distr_l by lia.
    pose proof (Z.mod_pos_bound clust (2 ^ (ssize_sh f - 1))
                  ltac:(apply Z.pow_pos_nonneg; lia)). lia. }
  rewrite (slot_offset_norm f) by (done || lia || nia).
  destruct (located_offset (ssize f) (firstfatsect f) (slot_addr f0 c)
              (firstfatsect f + 2 * clust / ssize f) (2 * clust))
    as (Ho0 & Ho1 & Ho2); try done; try lia.
  rewrite Hbuf, tsk_getu16_image by lia. rewrite Ho2. done.
Qed.

Lemma getFAT32_raw_disk (f f1 : FATFS_INFO) (clust v : Z) :
  fat_layout_ok S B f -> cache_wf N f -> cache_coherent B image f ->
  0 <= clust <= lastclust f ->
  getFAT32_raw N S B rd f clust = (f1, inr v) ->
  v = tsk_getu32 (endian (fs_info f))
        (image_bytes image (firstfatsect f * ssize f + 4 * clust) 4) 0 /\
  cache_wf N f1 /\ cache_coherent B image f1 /\ same_geometry f f1.
Proof.
  intros Hlay Hwf Hcoh Hc. unfold getFAT32_raw.
  pose proof Hlay as (Hsh & Hss & Hbs & HB & HS & Hffs & Hmax).
  destruct (fat_sector_bounds f (4 * clust) Hlay ltac:(lia))
    as (Hshr & Hs0 & Hs1 & H4).
  assert (Hb : u64 (Z.shiftl clust 2) = 4 * clust).
  { rewrite Z.shiftl_mul_pow2 by lia. change (2 ^ 2) with 4.
    rewrite u64_small by nia. lia. }
  rewrite Hb, Hshr, (u64_small (firstfatsect f + _)) by nia.
  destruct (getFATCacheIdx N S B rd f _) as [f0 [e|c]] eqn:Hcall; [done|].
  intros [= <- <-].
  destruct (acquire_slot f f0 (4 * clust) c Hlay Hwf Hcoh ltac:(lia) Hcall)
    as (Hwf1 & Hcoh1 & Hgeo & _ & _ & Ha & Hlt & _ & _ & Hbuf).
  pose proof Hgeo as (_ & _ & _ & _ & _ & Hss1 & Hsh1 & _).
  rewrite Hss1, Hsh1.
  assert (Hquad : 0 <= (4 * clust) mod ssize f <= ssize f - 4).
  { rewrite Hss. replace (ssize_sh f) with (2 + (ssize_sh f - 2)) by lia.
    rewrite Z.pow_add_r by lia. change (2 ^ 2) with 4.
    rewrite Z.mul_mod_distr_l by lia.
    pose proof (Z.mod_pos_bound clust (2 ^ (ssize_sh f - 2))
                  ltac:(apply Z.pow_pos_nonneg; lia)). lia. }
  rewrite (slot_offset_norm f) by (done || lia || nia).
  destruct (located_offset (ssize f) (firstfatsect f) (slot_addr f0 c)
              (firstfatsect f + 4 * clust / ssize f) (4 * clust))
    as (Ho0 & Ho1 & Ho2); try done; try lia.
  rewrite Hbuf, tsk_getu32_image by lia. rewrite Ho2. done.
Qed.

Lemma land_1_odd (c : Z) : negb (Z.land c 1 =? 0) = Z.odd c.
Proof.
  change 1 with (Z.ones 1) at 1. rewrite Z.land_ones by lia.
  change (2 ^ 1) with 2. rewrite Zmod_odd. by destruct (Z.odd c).
Qed.

Lemma getFAT12_raw_disk (f f3 : FATFS_INFO) (clust v : Z) :
  fat_layout_ok S B f -> cache_wf N f -> cache_coherent B image f ->
  0 <= clust <= lastclust f ->
  getFAT12_raw N S B rd f clust = (f3, inr v) ->
  v = (let w := tsk_getu16 (endian (fs_info f))
                  (image_bytes image
                     (firstfatsect f * ssize f + clust + clust / 2) 2) 0 in
       if Z.odd clust then Z.shiftr w 4 else w) /\
  cache_wf N f3 /\ cache_coherent B image f3 /\ same_geometry f f3.
Proof.
  intros Hlay Hwf Hcoh Hc. unfold getFAT12_raw.
  pose proof Hlay as (Hsh & Hss & Hbs & HB & HS & Hffs & Hmax).
  assert (Hhalf : 0 <= clust / 2 <= clust).
  { split; [apply Z.div_pos; lia|]. apply Z.div_le_upper_bound; lia. }
  set (b := clust + clust / 2).
  destruct (fat_sector_bounds f b Hlay ltac:(unfold b; lia))
    as (Hshr & Hs0 & Hs1 & H4).
  assert (Hb : u64 (clust + Z.shiftr clust 1) = b).
  { rewrite Z.shiftr_div_pow2 by lia. change (2 ^ 1) with 2.
    apply u64_small. unfold b. nia. }
  rewrite Hb, Hshr, (u64_small (firstfatsect f + _)) by nia.
  set (sect := firstfatsect f + b / ssize f) in *.
  destruct (getFATCacheIdx N S B rd f sect) as [f0 [e|c]] eqn:Hcall; [done|].
  destruct (acquire_slot f f0 b c Hlay Hwf Hcoh ltac:(unfold b; lia) Hcall)
    as (Hwf1 & Hcoh1 & Hgeo & HcN & Hone & Ha & Hlt & Haddr & Hbufc & Hbuf).
  fold sect in Ha, Hlt.
  pose proof Hgeo as (Hfs1 & _ & _ & _ & _ & Hss1 & Hsh1 & _).
  rewrite Hss1, Hsh1.
  pose proof (Z.mod_pos_bound b (ssize f) ltac:(lia)) as Hmod.
  rewrite (slot_offset_norm f) by (done || lia || nia).
  destruct (located_offset (ssize f) (firstfatsect f) (slot_addr f0 c)
              sect b) as (Ho0 & Ho1 & Ho2); try done; try lia.
  rewrite land_1_odd.
  destruct (Z.eqb_spec ((sect - slot_addr f0 c) * ssize f + b mod ssize f)
              (B - 1)) as [Hedge|Hin].
  - destruct (rd _ _ _) as [cnt buf] eqn:Hrd.
    destruct (Z.eqb_spec cnt B) as [->|]; [|done]. cbn [negb].
    intros [= <- <-].
    pose proof (rd_image (u64 (sect * block_size (fs_info f))) B
                  (slot_buf f0 c)) as Himg.
    rewrite Hrd in Himg. simpl in Himg. specialize (Himg eq_refl).
    rewrite Hbs, u64_small in Himg by nia.
    pose proof Hwf1 as (Hinv1 & Hla1 & Hlb1 & Hnn1).
    assert (Hslot : forall f2 addrs ttls,
              slot_buf (set_cache f2 (<[c:=buf]> (fatc_buf f0)) addrs ttls) c
              = buf).
    { intros. unfold slot_buf. simpl.
      by rewrite list_lookup_insert_eq by lia. }
    rewrite !Hslot, Himg, tsk_getu16_image by nia.
    split.
    { replace (sect * ssize f + b mod ssize f)
        with (firstfatsect f * ssize f + clust + clust / 2); [done|].
      unfold b in *. lia. }
    split.
    { split; [done|]. simpl. rewrite !length_insert.
      split; [done|]. split; [done|].
      intros i a Hi.
      apply list_lookup_insert_Some in Hi as [(_ & <- & _)|[_ Hi]];
        [lia|by apply (Hnn1 i)]. }
    split; [|by destruct Hgeo as (? & ? & ? & ? & ? & ? & ? & ?)].
    intros j t a Ht Hpos Hja. cbn [fatc_ttl fatc_addr fatc_buf set_cache
      set_fatc_buf fs_info] in *.
    destruct (decide (j = c)) as [->|Hne].
    + rewrite list_lookup_insert_eq in Hja by lia. injection Hja as <-.
      rewrite list_lookup_insert_eq by lia.
      rewrite Hfs1, Hbs, u64_small by nia. by rewrite ?Himg.
    + rewrite list_lookup_insert_ne in Hja by done.
      rewrite list_lookup_insert_ne by done. by apply (Hcoh1 j t a).
  - intros [= <- <-].
    rewrite Hbuf, tsk_getu16_image by nia. rewrite Ho2.
    split; [|done].
    by replace (firstfatsect f * ssize f + b)
      with (firstfatsect f * ssize f + clust + clust / 2)
      by (unfold b; lia).
Qed.

(** The three flavours together: a successful lookup stores the masked and
    clamped entry of the image and keeps the cache well formed and
    coherent. *)
Lemma fatfs_getFAT_disk (f f' : FATFS_INFO) (clust value v : Z) :
  fat_layout_ok S B f -> cache_wf N f -> cache_coherent B image f ->
  0 <= clust <= lastclust f ->
  fatfs_getFAT N S B rd f clust value = (f', None, v) ->
  v = clamp_entry f (fat_mask (ftype (fs_info f)))
        (Z.land (fat_entry_on_disk image f clust)
           (fat_mask (ftype (fs_info f)))) /\
  cache_wf N f' /\ cache_coherent B image f' /\ same_geometry f f'.
Proof.
  intros Hlay Hwf Hcoh Hc. unfold fatfs_getFAT, fat_entry_on_disk.
  destruct (Z.ltb_spec (lastclust f) clust); [lia|].
  assert (Hclamp : forall f1 m x, same_geometry f f1 ->
            clamp_entry f1 m x = clamp_entry f m x).
  { intros f1 m x (_ & Hl & _). unfold clamp_entry. by rewrite Hl. }
  destruct (ftype (fs_info f)); try discriminate.
  - destruct (negb (Z.land clust 0xf000 =? 0)); [discriminate|].
    destruct (getFAT12_raw N S B rd f clust) as [f1 [e|w]] eqn:Hraw;
      [discriminate|].
    intros [= <- <-].
    destruct (getFAT12_raw_disk _ _ _ _ Hlay Hwf Hcoh Hc Hraw)
      as (-> & Hwf1 & Hcoh1 & Hgeo).
    rewrite (Hclamp _ _ _ Hgeo). cbv zeta.
    replace (firstfatsect f * ssize f + clust + clust / 2)
      with (firstfatsect f * ssize f + clust + clust `div` 2) by done.
    done.
  - destruct (getFAT16_raw N S B rd f clust) as [f1 [e|w]] eqn:Hraw;
      [discriminate|].
    intros [= <- <-].
    destruct (getFAT16_raw_disk _ _ _ _ Hlay Hwf Hcoh Hc Hraw)
      as (-> & Hwf1 & Hcoh1 & Hgeo).
    by rewrite (Hclamp _ _ _ Hgeo).
  - destruct (getFAT32_raw N S B rd f clust) as [f1 [e|w]] eqn:Hraw;
      [discriminate|].
    intros [= <- <-].
    destruct (getFAT32_raw_disk _ _ _ _ Hlay Hwf Hcoh Hc Hraw)
      as (-> & Hwf1 & Hcoh1 & Hgeo).
    by rewrite (Hclamp _ _ _ Hgeo).
Qed.

(** X1 (the cache is transparent).  On a volume with a sane layout, a
    reader that delivers the image and a well-formed cache whose slots in use
    hold the image's bytes, every successful [fatfs_getFAT] for a cluster in
    [0, lastclust] stores the FAT entry that is on disk at the cluster's
    place in the first FAT, masked and put through the range clamp, whatever
    the cache held before; and it leaves the cache well formed and coherent,
    so the same holds for the next lookup. *)
Theorem fatfs_getFAT_reads_disk (f f' : FATFS_INFO) (clust value v : Z) :
  fat_layout_ok S B f -> cache_wf N f -> cache_coherent B image f ->
  0 <= clust <= lastclust f ->
  fatfs_getFAT N S B rd f clust value = (f', None, v) ->
  v = clamp_entry f (fat_mask (ftype (fs_info f)))
        (Z.land (fat_entry_on_disk image f clust)
           (fat_mask (ftype (fs_info f)))) /\
  cache_wf N f' /\ cache_coherent B image f' /\ same_geometry f f'.
Proof.
  intros Hlay Hwf Hcoh Hc Hget.
  exact (fatfs_getFAT_disk f f' clust value v Hlay Hwf Hcoh Hc Hget).
Qed.

(** The open-time cache is well formed and, having no slot in use,
    coherent. *)
Lemma cache_init_coherent (f : FATFS_INFO) :
  length (fatc_buf f) = N ->
  cache_wf N (cache_init N f) /\ cache_coherent B image (cache_init N f).
Proof.
  intros Hlen. split.
  - split; [apply (ttl_inv_init N N_pos)|]. simpl.
    rewrite length_replicate. split; [done|]. split; [done|].
    intros i a Hi. apply lookup_replicate in Hi as [-> _]. lia.
  - intros i t a Ht Hpos _. simpl in Ht.
    apply lookup_replicate in Ht as [-> _]. lia.
Qed.

End Coherence.

(** Witness of X1: scenario S1 on the demo volume, straight after open: the
    lookup of cluster 2 returns 3, what the image holds at byte 516. *)
Lemma fatfs_getFAT_reads_disk_witness :
  snd (fatfs_getFAT 4 8 4096 (image_reader s1_image)
         (fat_demo TSK_FS_TYPE_FAT16) 2 7) = 3.
Proof.
  set (r := fatfs_getFAT 4 8 4096 (image_reader s1_image)
              (fat_demo TSK_FS_TYPE_FAT16) 2 7).
  assert (Hr : r = (fst (fst r), None, snd r)) by (vm_compute; reflexivity).
  destruct (cache_init_coherent 4 4096 s1_image ltac:(lia)
              (mkFatfs (mkFsInfo TSK_FS_TYPE_FAT16 TSK_LIT_ENDIAN 512 0 125
                          125 2 4000)
                 (replicate 4 (tsk_malloc 4096)) [] []
                 1 8 24 100 101 8 512 9 1 1 7 512
                 (fat_mask TSK_FS_TYPE_FAT16)) eq_refl) as [Hwf Hcoh].
  destruct (fatfs_getFAT_reads_disk 4 8 4096 (image_reader s1_image) s1_image
              ltac:(lia) ltac:(by intros off len old _)
              (fat_demo TSK_FS_TYPE_FAT16) _ 2 7 _
              ltac:(vm_compute; repeat split; discriminate || reflexivity)
              Hwf Hcoh ltac:(vm_compute; split; discriminate) Hr)
    as [Hv _].
  rewrite Hv. vm_compute. reflexivity.
Defined.

(** ** What a lookup can return *)

Lemma land_ones_bounds (x k : Z) :
  0 <= k -> 0 <= Z.land x (Z.ones k) <= Z.ones k.
Proof.
  intros Hk. rewrite Z.land_ones, Z.ones_equiv by done.
  pose proof (Z.mod_pos_bound x (2 ^ k) ltac:(by apply Z.pow_pos_nonneg)).
  lia.
Qed.

Section GetFATMore.

Variable N : nat.
Variables (S B : Z).
Variable rd : Z -> Z -> list byte -> Z * list byte.

Lemma clamp_entry_range (f : FATFS_INFO) (k x : Z) :
  0 <= k -> 0 <= lastclust f ->
  let m := Z.ones k in
  let v := clamp_entry f m (Z.land x m) in
  0 <= v <= m /\ (v <= lastclust f \/ Z.land 0x0ffffff7 m <= v).
Proof.
  intros Hk Hl m v. subst v. unfold clamp_entry.
  pose proof (land_ones_bounds x k Hk) as Hx. fold m in Hx.
  pose proof (land_ones_bounds 0x0ffffff7 k Hk) as Hr. fold m in Hr.
  destruct (Z.ltb_spec (lastclust f) (Z.land x m)); simpl; [|lia].
  destruct (Z.ltb_spec (Z.land x m) (Z.land 0x0ffffff7 m)); lia.
Qed.

(** X4.  What a successful lookup of a cluster in [0, lastclust] stores: a
    value within the flavour's mask that is either at most [lastclust] (a
    cluster of the volume, or 0 or 1) or at least [0x0FFFFFF7 & mask] (bad
    cluster or end of chain).  A caller that follows a chain never gets a
    cluster number past the volume. *)
Theorem fatfs_getFAT_value_range (f f' : FATFS_INFO) (clust value v : Z) :
  0 <= clust <= lastclust f ->
  fatfs_getFAT N S B rd f clust value = (f', None, v) ->
  0 <= v <= fat_mask (ftype (fs_info f)) /\
  (v <= lastclust f \/ Z.land 0x0ffffff7 (fat_mask (ftype (fs_info f))) <= v).
Proof.
  intros Hc. unfold fatfs_getFAT.
  destruct (Z.ltb_spec (lastclust f) clust); [lia|].
  pose proof (fat_raw_entry_geometry N S B rd f clust) as Hgeo.
  unfold fat_raw_entry in Hgeo.
  assert (Hcl : forall f1 k x, same_geometry f f1 -> 0 <= k ->
            let m := Z.ones k in
            let w := clamp_entry f1 m (Z.land x m) in
            0 <= w <= m /\ (w <= lastclust f \/ Z.land 0x0ffffff7 m <= w)).
  { intros f1 k x (_ & Hl & _) Hk. rewrite <- Hl.
    apply clamp_entry_range; [done|lia]. }
  destruct (ftype (fs_info f)); try discriminate.
  - destruct (negb (Z.land clust 0xf000 =? 0)); [discriminate|].
    destruct (getFAT12_raw N S B rd f clust) as [f1 [e|w]]; [discriminate|].
    intros [= <- <-]. by apply (Hcl f1 12).
  - destruct (getFAT16_raw N S B rd f clust) as [f1 [e|w]]; [discriminate|].
    intros [= <- <-]. by apply (Hcl f1 16).
  - destruct (getFAT32_raw N S B rd f clust) as [f1 [e|w]]; [discriminate|].
    intros [= <- <-]. by apply (Hcl f1 28).
Qed.

End GetFATMore.

(** Witness of X4: entry 3 of scenario S1 is the end-of-chain mark 0xFFFF. *)
Lemma fatfs_getFAT_value_range_witness :
  let v := snd (fatfs_getFAT 4 8 4096 (image_reader s1_image)
                  (fat_demo TSK_FS_TYPE_FAT16) 3 7) in
  v = 0xffff /\ (v <= 101 \/ 0xfff7 <= v).
Proof.
  set (r := fatfs_getFAT 4 8 4096 (image_reader s1_image)
              (fat_demo TSK_FS_TYPE_FAT16) 3 7).
  assert (Hr : r = (fst (fst r), None, snd r)) by (vm_compute; reflexivity).
  split; [vm_compute; reflexivity|].
  exact (proj2 (fatfs_getFAT_value_range 4 8 4096 (image_reader s1_image)
                  (fat_demo TSK_FS_TYPE_FAT16) _ 3 7 _
                  ltac:(vm_compute; split; discriminate) Hr)).
Defined.

(** ** Allocation status of a sector *)

Section SectAlloc.

Variable N : nat.
Variables (S B : Z).
Variable rd : Z -> Z -> list byte -> Z * list byte.
Variable image : Z -> byte.
Variable junk : Z.
Hypothesis N_pos : (0 < N)%nat.
Hypothesis rd_image : reads_image rd image.

(** X5.  [fatfs_is_sectalloc] answers 1 for every sector before the first
    cluster sector and 0 for every sector of the non-clustered tail, both
    without touching the cache.  For a sector of a cluster up to
    [lastclust], on a volume with a sane layout and a coherent cache, an
    answer other than -1 is 0 exactly when the cluster's FAT entry on disk
    (masked and clamped) is 0, and the cache stays coherent. *)
Theorem fatfs_is_sectalloc_reads_disk (f : FATFS_INFO) (sect : Z) :
  (sect < firstclustsect f ->
   fatfs_is_sectalloc N S B rd junk f sect = (f, 1)) /\
  (firstclustsect f <= sect <= last_block (fs_info f) ->
   u64 (firstclustsect f + u64 (csize f * clustcnt f)) <= sect ->
   fatfs_is_sectalloc N S B rd junk f sect = (f, 0)) /\
  (firstclustsect f <= sect ->
   ~ (sect <= last_block (fs_info f) /\
      u64 (firstclustsect f + u64 (csize f * clustcnt f)) <= sect) ->
   fat_layout_ok S B f -> cache_wf N f -> cache_coherent B image f ->
   0 <= FATFS_SECT_2_CLUST f sect <= lastclust f ->
   forall f' r,
     fatfs_is_sectalloc N S B rd junk f sect = (f', r) -> r ≠ -1 ->
     r = (if clamp_entry f (fat_mask (ftype (fs_info f)))
               (Z.land (fat_entry_on_disk image f (FATFS_SECT_2_CLUST f sect))
                  (fat_mask (ftype (fs_info f)))) =? 0
          then 0 else 1) /\
     cache_wf N f' /\ cache_coherent B image f').
Proof.
  unfold fatfs_is_sectalloc. split; [|split].
  - intros Hlt. by destruct (Z.ltb_spec sect (firstclustsect f)); [|lia].
  - intros Hin Htail. destruct (Z.ltb_spec sect (firstclustsect f)); [lia|].
    destruct (Z.leb_spec sect (last_block (fs_info f))); [|lia].
    by destruct (Z.leb_spec
                   (u64 (firstclustsect f + u64 (csize f * clustcnt f))) sect);
      [|lia].
  - intros Hge Hnt Hlay Hwf Hcoh Hc f' r.
    destruct (Z.ltb_spec sect (firstclustsect f)); [lia|].
    assert ((sect <=? last_block (fs_info f)) &&
            (u64 (firstclustsect f + u64 (csize f * clustcnt f)) <=? sect)
            = false) as ->.
    { apply andb_false_iff.
      destruct (Z.leb_spec sect (last_block (fs_info f))); [|by left].
      destruct (Z.leb_spec
                  (u64 (firstclustsect f + u64 (csize f * clustcnt f))) sect);
        [|by right]. exfalso. by apply Hnt. }
    unfold fatfs_is_clustalloc.
    destruct (fatfs_getFAT N S B rd f (FATFS_SECT_2_CLUST f sect) junk)
      as [[f1 [e|]] content] eqn:Hget.
    + intros [= <- <-]. done.
    + destruct (fatfs_getFAT_disk N S B rd image N_pos rd_image
                  f f1 (FATFS_SECT_2_CLUST f sect) junk content
                  Hlay Hwf Hcoh Hc Hget) as (-> & Hwf1 & Hcoh1 & _).
      unfold FATFS_UNALLOC.
      destruct (_ =? 0); intros [= <- <-]; done.
Qed.

End SectAlloc.

(** Witness of X5: sector 24 of the demo volume is the sector of cluster 2,
    whose entry in scenario S1 is 3: allocated. *)
Lemma fatfs_is_sectalloc_reads_disk_witness :
  snd (fatfs_is_sectalloc 4 8 4096 (image_reader s1_image) 7
         (fat_demo TSK_FS_TYPE_FAT16) 24) = 1.
Proof.
  set (r := fatfs_is_sectalloc 4 8 4096 (image_reader s1_image) 7
              (fat_demo TSK_FS_TYPE_FAT16) 24).
  assert (Hr : r = (fst r, snd r)) by (vm_compute; reflexivity).
  destruct (cache_init_coherent 4 4096 s1_image ltac:(lia)
              (mkFatfs (mkFsInfo TSK_FS_TYPE_FAT16 TSK_LIT_ENDIAN 512 0 125
                          125 2 4000)
                 (replicate 4 (tsk_malloc 4096)) [] []
                 1 8 24 100 101 8 512 9 1 1 7 512
                 (fat_mask TSK_FS_TYPE_FAT16)) eq_refl) as [Hwf Hcoh].
  refine (eq_trans
            (proj1 (proj2 (proj2 (fatfs_is_sectalloc_reads_disk 4 8 4096
                      (image_reader s1_image) s1_image 7 ltac:(lia)
                      ltac:(by intros off len old _)
                      (fat_demo TSK_FS_TYPE_FAT16) 24))
                    _ _ _ Hwf Hcoh _ _ _ Hr _)) _).
  - vm_compute; discriminate.
  - intros [_ H]. vm_compute in H. by apply H.
  - vm_compute; repeat split; discriminate || reflexivity.
  - vm_compute; split; discriminate.
  - vm_compute; discriminate.
  - vm_compute; reflexivity.
Defined.

(** ** Walking the area before the first cluster *)

Lemma image_bytes_sector (image : Z -> byte) (off bs i n : Z) :
  0 <= bs -> 0 <= i < n ->
  take (Z.to_nat bs) (drop (Z.to_nat (i * bs)) (image_bytes image off (bs * n)))
  = image_bytes image (off + i * bs) bs.
Proof.
  intros Hbs Hi. unfold image_bytes.
  rewrite <- fmap_drop, <- fmap_take. f_equal.
  apply list_eq. intros k.
  destruct (decide (k < Z.to_nat bs)%nat) as [Hk|Hk].
  - rewrite lookup_take_lt, lookup_drop by done.
    rewrite !lookup_seqZ_lt by nia. f_equal. nia.
  - rewrite lookup_take_ge by lia.
    symmetry. apply lookup_seqZ_ge. lia.
Qed.

Section PredataWalk.

Variable N : nat.
Variables (S B : Z).
Variable rd : Z -> Z -> list byte -> Z * list byte.
Variable junk : Z.
Variable image : Z -> byte.
Context {A : Type}.
Variable a_action : TSK_FS_BLOCK -> A -> TSK_WALK_RET_ENUM * A.
Variable f : FATFS_INFO.
Variables (s e nf : Z).

Hypothesis rd_image : reads_image rd image.
Hypothesis rd_full : forall addr old,
  s <= addr <= e ->
  fst (rd (addr * block_size (fs_info f))
          (block_size (fs_info f) * 8) old)
  = block_size (fs_info f) * 8.
Hypothesis cb_cont : forall b a, fst (a_action b a) = TSK_WALK_CONT.
Hypothesis s_nonneg : 0 <= s.
Hypothesis e_predata : e < firstclustsect f.
Hypothesis fcs_u64 : firstclustsect f < 2 ^ 64.
Hypothesis bs_nonneg : 0 <= block_size (fs_info f).

Lemma predata_burst_run (addr0 : Z) (n : nat) :
  forall i addr a,
    0 <= i -> i + Z.of_nat n <= 8 -> addr = addr0 + i -> 0 <= addr ->
    let k := Z.min (Z.of_nat n) (Z.max 0 (e + 1 - addr)) in
    predata_burst a_action e nf f n i addr
      (image_bytes image (addr0 * block_size (fs_info f))
         (block_size (fs_info f) * 8)) a
    = LoopNext (addr + k) (foldl (predata_step image a_action f nf) a (seqZ addr k)).
Proof.
  induction n as [|n IH]; intros i addr a Hi Hn Haddr Hpos k.
  - subst k. simpl. replace (Z.min 0 _) with 0 by lia.
    by rewrite Z.add_0_r.
  - cbn [predata_burst].
    destruct (Z.leb_spec addr e) as [Hle|Hgt]; cbn [andb].
    + destruct (Z.ltb_spec addr (firstclustsect f)); [|lia].
      assert (Hk : k = 1 + Z.min (Z.of_nat n) (Z.max 0 (e + 1 - (addr + 1))))
        by (subst k; lia).
      rewrite Hk, (seqZ_cons addr) by lia. cbn [foldl].
      replace (Z.pred (1 + Z.min (Z.of_nat n) (Z.max 0 (e + 1 - (addr + 1)))))
        with (Z.min (Z.of_nat n) (Z.max 0 (e + 1 - (addr + 1)))) by lia.
      replace (Z.succ addr) with (addr + 1) by lia.
      replace (addr + (1 + Z.min (Z.of_nat n) (Z.max 0 (e + 1 - (addr + 1)))))
        with (addr + 1 + Z.min (Z.of_nat n) (Z.max 0 (e + 1 - (addr + 1))))
        by lia.
      rewrite (u64_small (addr + 1)) by lia.
      assert (Hnext : forall a',
        predata_burst a_action e nf f n (i + 1) (addr + 1)
          (image_bytes image (addr0 * block_size (fs_info f))
             (block_size (fs_info f) * 8)) a'
        = LoopNext
            (addr + 1 + Z.min (Z.of_nat n) (Z.max 0 (e + 1 - (addr + 1))))
            (foldl (predata_step image a_action f nf) a'
               (seqZ (addr + 1)
                  (Z.min (Z.of_nat n) (Z.max 0 (e + 1 - (addr + 1))))))).
      { intros a'. apply IH; lia. }
      unfold predata_step at 2, predata_selected, predata_flags, image_block.
      unfold tsk_fs_block_set.
      rewrite (image_bytes_sector image _ _ i 8) by lia.
      replace (addr0 * block_size (fs_info f) + i * block_size (fs_info f))
        with (addr * block_size (fs_info f)) by lia.
      destruct (addr <? firstdatasect f).
      * change (has_flag (Z.lor TSK_FS_BLOCK_FLAG_ALLOC TSK_FS_BLOCK_FLAG_META)
                  TSK_FS_BLOCK_FLAG_META) with true.
        change (has_flag (Z.lor TSK_FS_BLOCK_FLAG_ALLOC TSK_FS_BLOCK_FLAG_META)
                  TSK_FS_BLOCK_FLAG_CONT) with false.
        destruct (has_flag nf TSK_FS_BLOCK_WALK_FLAG_META); cbn [andb negb].
        -- pose proof (cb_cont
             (mkBlock addr
                (Z.lor (Z.lor TSK_FS_BLOCK_FLAG_ALLOC TSK_FS_BLOCK_FLAG_META)
                   TSK_FS_BLOCK_FLAG_RAW)
                (image_bytes image (addr * block_size (fs_info f))
                   (block_size (fs_info f)))) a) as Hc.
           destruct (a_action _ a) as [r a']. simpl in Hc. subst r.
           simpl. apply Hnext.
        -- apply Hnext.
      * change (has_flag (Z.lor TSK_FS_BLOCK_FLAG_ALLOC TSK_FS_BLOCK_FLAG_CONT)
                  TSK_FS_BLOCK_FLAG_META) with false.
        change (has_flag (Z.lor TSK_FS_BLOCK_FLAG_ALLOC TSK_FS_BLOCK_FLAG_CONT)
                  TSK_FS_BLOCK_FLAG_CONT) with true.
        destruct (has_flag nf TSK_FS_BLOCK_WALK_FLAG_CONT); cbn [andb negb].
        -- pose proof (cb_cont
             (mkBlock addr
                (Z.lor (Z.lor TSK_FS_BLOCK_FLAG_ALLOC TSK_FS_BLOCK_FLAG_CONT)
                   TSK_FS_BLOCK_FLAG_RAW)
                (image_bytes image (addr * block_size (fs_info f))
                   (block_size (fs_info f)))) a) as Hc.
           destruct (a_action _ a) as [r a']. simpl in Hc. subst r.
           simpl. apply Hnext.
        -- apply Hnext.
    + subst k. replace (Z.min _ _) with 0 by lia.
      by rewrite Z.add_0_r.
Qed.

Lemma predata_loop_run (fuel : nat) :
  forall addr buf a,
    s <= addr <= e + 1 -> (Z.to_nat (e + 1 - addr) < fuel)%nat ->
    predata_loop rd a_action e nf f fuel addr buf a
    = Some (LoopNext (e + 1) (foldl (predata_step image a_action f nf) a (seqZ addr (e + 1 - addr)))).
Proof.
  induction fuel as [|fuel IH]; intros addr buf a Haddr Hfuel; [lia|].
  cbn [predata_loop].
  destruct (Z.leb_spec addr e) as [Hle|Hgt].
  - destruct (Z.ltb_spec addr (firstclustsect f)); [|lia]. cbn [andb].
    unfold tsk_fs_read_block.
    pose proof (rd_full addr buf ltac:(lia)) as Hcnt.
    pose proof (rd_image _ _ buf Hcnt) as Hbuf.
    destruct (rd _ _ buf) as [cnt buf']. simpl in Hcnt, Hbuf. subst cnt buf'.
    rewrite Z.eqb_refl. cbn [negb].
    rewrite (predata_burst_run addr 8 0 addr a) by lia.
    cbv zeta.
    set (k := Z.min (Z.of_nat 8) (Z.max 0 (e + 1 - addr))).
    rewrite IH by lia.
    do 2 f_equal.
    rewrite <- foldl_app, <- seqZ_app by lia.
    f_equal. f_equal. lia.
  - rewrite andb_false_r.
    replace addr with (e + 1) by lia.
    by replace (e + 1 - (e + 1)) with 0 by lia.
Qed.

Lemma predata_fold_filter (l : list Z) :
  forall a,
    foldl (predata_step image a_action f nf) a l
    = deliver a_action a
        ((fun addr => image_block image (fs_info f) addr (predata_flags f addr))
           <$> filter (fun addr => predata_selected f nf addr) l).
Proof.
  induction l as [|x l IH]; intros a; [done|].
  cbn [foldl]. rewrite IH, filter_cons.
  unfold predata_step at 1.
  destruct (predata_selected f nf x) eqn:Hx.
  - destruct (decide (Is_true true)) as [_|H]; [done|by destruct H].
  - destruct (decide (Is_true false)) as [H|_]; [by destruct H|done].
Qed.

End PredataWalk.

Lemma fmap_filter_ext {X Y : Type} (P : X -> Prop) (sel1 sel2 : X -> bool)
    (g1 g2 : X -> Y) (l : list X) :
  Forall P l ->
  (forall x, P x -> sel1 x = sel2 x) ->
  (forall x, P x -> g1 x = g2 x) ->
  g1 <$> filter (fun x => sel1 x) l = g2 <$> filter (fun x => sel2 x) l.
Proof.
  intros Hl Hsel Hg. induction Hl as [|x l Hx Hl IH]; [done|].
  rewrite !filter_cons, <- (Hsel x Hx).
  destruct (decide (sel1 x)); [|done].
  rewrite !fmap_cons. by rewrite IH, (Hg x Hx).
Qed.

Lemma filter_none {X : Type} (P : X -> Prop) (sel : X -> bool) (l : list X) :
  Forall P l -> (forall x, P x -> sel x = false) ->
  filter (fun x => sel x) l = [].
Proof.
  intros Hl Hsel. induction Hl as [|x l Hx Hl IH]; [done|].
  rewrite filter_cons, (Hsel x Hx).
  by destruct (decide (Is_true false)) as [H|_]; [destruct H|].
Qed.

(** X6.  A walk over a range that ends before the first cluster, on a
    volume whose bursts of eight sectors can all be read, with a callback
    that always continues: the walk returns 0, leaves the state alone and
    has given the callback exactly the sectors of the range that the walk
    flags select by the flags [fatfs_block_getflags] reports for them, in
    ascending order, each once, with those flags plus RAW and with the
    sector's bytes of the image. *)
Theorem fatfs_block_walk_predata (N : nat) (S B : Z)
    (rd : Z -> Z -> list byte -> Z * list byte) (junk : Z)
    (image : Z -> byte) {A : Type}
    (a_action : TSK_FS_BLOCK -> A -> TSK_WALK_RET_ENUM * A)
    (f : FATFS_INFO) (s e flags : Z) (a0 : A) :
  reads_image rd image ->
  (forall addr old,
     s <= addr <= e ->
     fst (rd (addr * block_size (fs_info f))
             (block_size (fs_info f) * 8) old)
     = block_size (fs_info f) * 8) ->
  (forall b a, fst (a_action b a) = TSK_WALK_CONT) ->
  0 <= block_size (fs_info f) ->
  firstclustsect f < 2 ^ 64 ->
  0 <= s -> first_block (fs_info f) <= s -> s <= e ->
  e <= last_block (fs_info f) -> e < firstclustsect f ->
  let getflags addr :=
    snd (fatfs_block_getflags N S B rd junk f addr) in
  fatfs_block_walk N S B rd junk f s e flags a_action a0
  = Some (f, 0,
          deliver a_action a0
            ((fun addr => image_block image (fs_info f) addr (getflags addr))
               <$> filter (fun addr => walk_selects flags (getflags addr))
                     (seqZ s (e - s + 1)))).
Proof.
  intros Hrd Hfull Hcont Hbs Hfcs Hs0 Hs1 Hse He1 He2 getflags.
  set (nf1 := if (Z.land flags TSK_FS_BLOCK_WALK_FLAG_ALLOC =? 0) &&
                 (Z.land flags TSK_FS_BLOCK_WALK_FLAG_UNALLOC =? 0)
              then Z.lor flags
                     (Z.lor TSK_FS_BLOCK_WALK_FLAG_ALLOC
                        TSK_FS_BLOCK_WALK_FLAG_UNALLOC)
              else flags).
  set (nf := if (Z.land nf1 TSK_FS_BLOCK_WALK_FLAG_META =? 0) &&
                (Z.land nf1 TSK_FS_BLOCK_WALK_FLAG_CONT =? 0)
             then Z.lor nf1
                    (Z.lor TSK_FS_BLOCK_WALK_FLAG_CONT
                       TSK_FS_BLOCK_WALK_FLAG_META)
             else nf1).
  assert (Hflags : forall x, x < firstclustsect f ->
            getflags x = predata_flags f x).
  { intros x Hx. unfold getflags, fatfs_block_getflags, predata_flags.
    destruct (x <? firstdatasect f); [done|].
    by destruct (Z.ltb_spec x (firstclustsect f)); [|lia]. }
  assert (Hsel : forall x, x < firstclustsect f ->
            walk_selects flags (getflags x)
            = has_flag nf TSK_FS_BLOCK_WALK_FLAG_ALLOC &&
              predata_selected f nf x).
  { intros x Hx. rewrite (Hflags x Hx).
    unfold predata_flags, predata_selected.
    destruct (x <? firstdatasect f); reflexivity. }
  assert (Hrange : Forall (fun x => x < firstclustsect f)
                     (seqZ s (e - s + 1))).
  { apply Forall_forall. intros x Hx. apply elem_of_seqZ in Hx. lia. }
  unfold fatfs_block_walk. cbv zeta. fold nf1. fold nf.
  destruct (Z.ltb_spec s (first_block (fs_info f))); [lia|].
  destruct (Z.ltb_spec (last_block (fs_info f)) s); [lia|].
  destruct (Z.ltb_spec e (first_block (fs_info f))); [lia|].
  destruct (Z.ltb_spec (last_block (fs_info f)) e); [lia|].
  cbn [orb].
  destruct (Z.ltb_spec s (firstclustsect f)); [|lia]. cbn [andb].
  destruct (has_flag nf TSK_FS_BLOCK_WALK_FLAG_ALLOC) eqn:Halloc.
  - rewrite (predata_loop_run rd image a_action f s e nf Hrd Hfull Hcont
               Hs0 He2 Hfcs Hbs) by lia.
    destruct (Z.leb_spec e (e + 1)); [|lia].
    replace (e + 1 - s) with (e - s + 1) by lia.
    rewrite predata_fold_filter. do 3 f_equal.
    symmetry. apply (fmap_filter_ext (fun x => x < firstclustsect f));
      [done| |].
    + intros x Hx. by rewrite (Hsel x Hx).
    + intros x Hx. by rewrite (Hflags x Hx).
  - rewrite (filter_none (fun x => x < firstclustsect f)
               (fun x => walk_selects flags (getflags x))); [|done|].
    2:{ intros x Hx. by rewrite (Hsel x Hx). }
    assert (FATFS_CLUST_2_SECT f (FATFS_SECT_2_CLUST f (firstclustsect f))
            = firstclustsect f) as ->.
    { unfold FATFS_CLUST_2_SECT, FATFS_SECT_2_CLUST.
      rewrite Z.sub_diag. change (u64 0) with 0. rewrite Zdiv_0_l.
      change (u64 (2 + 0)) with 2. change (u64 (2 - 2)) with 0.
      rewrite Z.mul_0_l, Z.add_0_r. apply u64_small. lia. }
    cbn [data_loop].
    by destruct (Z.leb_spec (firstclustsect f) e); [lia|].
Qed.

(** Witness of X6: on the demo volume (FAT in sectors 1-7, root directory
    from sector 8) the walk over [6, 10] that asks for META sectors gives the
    callback sectors 6 and 7. *)
Lemma fatfs_block_walk_predata_witness :
  option_map (fun r => map blk_addr (snd r))
    (fatfs_block_walk 4 8 4096 (image_reader s1_image) 0
       (fat_demo TSK_FS_TYPE_FAT16) 6 10 TSK_FS_BLOCK_WALK_FLAG_META
       record_cb [])
  = Some [6; 7].
Proof.
  refine (eq_trans
            (f_equal (option_map (fun r => map blk_addr (snd r)))
               (fatfs_block_walk_predata 4 8 4096 (image_reader s1_image) 0
                  s1_image record_cb (fat_demo TSK_FS_TYPE_FAT16) 6 10
                  TSK_FS_BLOCK_WALK_FLAG_META [] _ _ _ _ _ _ _ _ _ _)) _).
  - by intros off len old _.
  - by intros addr old _.
  - by intros b a.
  - vm_compute; discriminate.
  - vm_compute; reflexivity.
  - lia.
  - vm_compute; discriminate.
  - lia.
  - vm_compute; discriminate.
  - vm_compute; reflexivity.
  - vm_compute. reflexivity.
Defined.

(** ** What the walker gives its callback *)

Lemma walk_selects_bits (flags a c : Z) :
  a = TSK_FS_BLOCK_FLAG_ALLOC \/ a = TSK_FS_BLOCK_FLAG_UNALLOC ->
  c = TSK_FS_BLOCK_FLAG_META \/ c = TSK_FS_BLOCK_FLAG_CONT ->
  walk_selects flags (Z.lor (Z.lor a c) TSK_FS_BLOCK_FLAG_RAW)
  = has_flag (walk_flags_norm flags) a && has_flag (walk_flags_norm flags) c.
Proof. intros [->| ->] [->| ->]; reflexivity. Qed.

Section WalkSafety.

Variable N : nat.
Variables (S B : Z).
Variable rd : Z -> Z -> list byte -> Z * list byte.
Variable junk : Z.
Context {A : Type}.
Variable a_action : TSK_FS_BLOCK -> A -> TSK_WALK_RET_ENUM * A.
Variables (s e flags : Z).
Variable I : A -> Prop.

Hypothesis s_nonneg : 0 <= s.
Hypothesis e_u64 : e + 1 < 2 ^ 64.
Hypothesis I_step : forall b a,
  s <= blk_addr b <= e ->
  walk_selects flags (blk_flags b) = true ->
  has_flag (blk_flags b) TSK_FS_BLOCK_FLAG_RAW = true ->
  I a -> I (snd (a_action b a)).

Lemma I_block_set (fs : TSK_FS_INFO) (addr a c : Z) (data : list byte)
    (x : A) :
  a = TSK_FS_BLOCK_FLAG_ALLOC \/ a = TSK_FS_BLOCK_FLAG_UNALLOC ->
  c = TSK_FS_BLOCK_FLAG_META \/ c = TSK_FS_BLOCK_FLAG_CONT ->
  has_flag (walk_flags_norm flags) a = true ->
  has_flag (walk_flags_norm flags) c = true ->
  s <= addr <= e -> I x ->
  I (snd (a_action
            (snd (tsk_fs_block_set fs addr
                    (Z.lor (Z.lor a c) TSK_FS_BLOCK_FLAG_RAW) data)) x)).
Proof.
  intros Ha Hc Hfa Hfc Haddr Hx. apply I_step; simpl; [done| | |done].
  - by rewrite walk_selects_bits, Hfa, Hfc.
  - by destruct Ha as [->| ->], Hc as [->| ->].
Qed.

Lemma predata_burst_safe (f : FATFS_INFO) (n : nat) :
  forall i addr buf a,
    has_flag (walk_flags_norm flags) TSK_FS_BLOCK_WALK_FLAG_ALLOC = true ->
    s <= addr -> I a ->
    match predata_burst a_action e (walk_flags_norm flags) f n i addr buf a
    with
    | LoopNext addr' a' => s <= addr' /\ I a'
    | LoopReturn _ a' => I a'
    end.
Proof.
  induction n as [|n IH]; intros i addr buf a Halloc Haddr Ha; [done|].
  cbn [predata_burst].
  destruct (Z.leb_spec addr e) as [Hle|Hgt]; cbn [andb]; [|done].
  destruct (addr <? firstclustsect f); [|done].
  rewrite (u64_small (addr + 1)) by lia.
  assert (Hnext : forall a', I a' ->
    match predata_burst a_action e (walk_flags_norm flags) f n (i + 1)
            (addr + 1) buf a'
    with
    | LoopNext addr' a' => s <= addr' /\ I a'
    | LoopReturn _ a' => I a'
    end).
  { intros a' Ha'. apply IH; [done|lia|done]. }
  destruct (addr <? firstdatasect f).
  - change (has_flag (Z.lor TSK_FS_BLOCK_FLAG_ALLOC TSK_FS_BLOCK_FLAG_META)
              TSK_FS_BLOCK_FLAG_META) with true.
    change (has_flag (Z.lor TSK_FS_BLOCK_FLAG_ALLOC TSK_FS_BLOCK_FLAG_META)
              TSK_FS_BLOCK_FLAG_CONT) with false.
    destruct (has_flag (walk_flags_norm flags) TSK_FS_BLOCK_WALK_FLAG_META)
      eqn:Hm; cbn [andb negb]; [|by apply Hnext].
    pose proof (I_block_set (fs_info f) addr TSK_FS_BLOCK_FLAG_ALLOC
                  TSK_FS_BLOCK_FLAG_META
                  (drop (Z.to_nat (i * block_size (fs_info f))) buf) a
                  ltac:(by left) ltac:(by left) Halloc Hm ltac:(lia) Ha)
      as Hst.
    destruct (tsk_fs_block_set _ _ _ _) as [z blk]. simpl in Hst.
    destruct (a_action blk a) as [[] a']; simpl in Hst; [|done..].
    by apply Hnext.
  - change (has_flag (Z.lor TSK_FS_BLOCK_FLAG_ALLOC TSK_FS_BLOCK_FLAG_CONT)
              TSK_FS_BLOCK_FLAG_META) with false.
    change (has_flag (Z.lor TSK_FS_BLOCK_FLAG_ALLOC TSK_FS_BLOCK_FLAG_CONT)
              TSK_FS_BLOCK_FLAG_CONT) with true.
    destruct (has_flag (walk_flags_norm flags) TSK_FS_BLOCK_WALK_FLAG_CONT)
      eqn:Hm; cbn [andb negb]; [|by apply Hnext].
    pose proof (I_block_set (fs_info f) addr TSK_FS_BLOCK_FLAG_ALLOC
                  TSK_FS_BLOCK_FLAG_CONT
                  (drop (Z.to_nat (i * block_size (fs_info f))) buf) a
                  ltac:(by left) ltac:(by right) Halloc Hm ltac:(lia) Ha)
      as Hst.
    destruct (tsk_fs_block_set _ _ _ _) as [z blk]. simpl in Hst.
    destruct (a_action blk a) as [[] a']; simpl in Hst; [|done..].
    by apply Hnext.
Qed.

Lemma predata_loop_safe (f : FATFS_INFO) (fuel : nat) :
  forall addr buf a r,
    has_flag (walk_flags_norm flags) TSK_FS_BLOCK_WALK_FLAG_ALLOC = true ->
    s <= addr -> I a ->
    predata_loop rd a_action e (walk_flags_norm flags) f fuel addr buf a
    = Some r ->
    match r with LoopNext _ a' => I a' | LoopReturn _ a' => I a' end.
Proof.
  induction fuel as [|fuel IH]; intros addr buf a r Halloc Haddr Ha;
    [done|].
  cbn [predata_loop].
  destruct ((addr <? firstclustsect f) && (addr <=? e));
    [|by intros [= <-]].
  destruct (tsk_fs_read_block rd (fs_info f) addr _ buf) as [cnt buf'].
  destruct (negb (cnt =? _)); [by intros [= <-]|].
  pose proof (predata_burst_safe f 8 0 addr buf' a Halloc Haddr Ha) as Hb.
  destruct (predata_burst _ _ _ f 8 0 addr buf' a) as [addr' a'|ret a'].
  - destruct Hb as [Haddr' Ha']. by apply IH.
  - by intros [= <-].
Qed.

Lemma cluster_sectors_safe (f : FATFS_INFO) (al : Z) (n : nat) :
  forall i addr buf a,
    al = TSK_FS_BLOCK_FLAG_ALLOC \/ al = TSK_FS_BLOCK_FLAG_UNALLOC ->
    has_flag (walk_flags_norm flags) al = true ->
    has_flag (walk_flags_norm flags) TSK_FS_BLOCK_WALK_FLAG_CONT = true ->
    I a ->
    match cluster_sectors a_action s e f n i addr
            (Z.lor al TSK_FS_BLOCK_FLAG_CONT) buf a
    with
    | LoopNext _ a' => I a'
    | LoopReturn _ a' => I a'
    end.
Proof.
  induction n as [|n IH]; intros i addr buf a Hal Hfa Hfc Ha; [done|].
  cbn [cluster_sectors].
  destruct (Z.ltb_spec (u64 (addr + i)) s); [by apply IH|].
  destruct (Z.ltb_spec e (u64 (addr + i))); [done|].
  pose proof (I_block_set (fs_info f) (u64 (addr + i)) al
                TSK_FS_BLOCK_FLAG_CONT
                (drop (Z.to_nat (i * block_size (fs_info f))) buf) a
                Hal ltac:(by right) Hfa Hfc ltac:(lia) Ha) as Hst.
  destruct (tsk_fs_block_set _ _ _ _) as [z blk]. simpl in Hst.
  destruct (a_action blk a) as [[] a']; simpl in Hst; [|done..].
  by apply IH.
Qed.

Lemma data_loop_safe (fuel : nat) :
  forall f addr buf a f' r a',
    I a ->
    data_loop N S B rd junk a_action s e (walk_flags_norm flags) fuel f addr
      buf a = Some (f', r, a') ->
    I a'.
Proof.
  induction fuel as [|fuel IH]; intros f addr buf a f' r a' Ha; [done|].
  cbn [data_loop].
  destruct (addr <=? e); [|by intros [= <- <- <-]].
  destruct (fatfs_is_sectalloc N S B rd junk f addr) as [f1 retval].
  destruct (retval =? -1); [by intros [= <- <- <-]|].
  cbv zeta.
  assert (Hgo : forall al,
    al = TSK_FS_BLOCK_FLAG_ALLOC \/ al = TSK_FS_BLOCK_FLAG_UNALLOC ->
    has_flag (Z.lor al TSK_FS_BLOCK_FLAG_CONT) TSK_FS_BLOCK_FLAG_CONT = true /\
    has_flag (Z.lor al TSK_FS_BLOCK_FLAG_CONT) TSK_FS_BLOCK_FLAG_ALLOC
    = (al =? TSK_FS_BLOCK_FLAG_ALLOC) /\
    has_flag (Z.lor al TSK_FS_BLOCK_FLAG_CONT) TSK_FS_BLOCK_FLAG_UNALLOC
    = (al =? TSK_FS_BLOCK_FLAG_UNALLOC)).
  { by intros al [->| ->]. }
  set (al := if retval =? 1 then TSK_FS_BLOCK_FLAG_ALLOC
             else TSK_FS_BLOCK_FLAG_UNALLOC).
  assert (Hal : al = TSK_FS_BLOCK_FLAG_ALLOC \/ al = TSK_FS_BLOCK_FLAG_UNALLOC)
    by (subst al; destruct (retval =? 1); auto).
  destruct (Hgo al Hal) as (-> & -> & ->).
  destruct (has_flag (walk_flags_norm flags) TSK_FS_BLOCK_WALK_FLAG_CONT)
    eqn:Hfc; cbn [andb negb]; [|by apply IH].
  assert (Hfa : forall rest,
    (if (al =? TSK_FS_BLOCK_FLAG_ALLOC) &&
        negb (has_flag (walk_flags_norm flags) TSK_FS_BLOCK_WALK_FLAG_ALLOC)
     then data_loop N S B rd junk a_action s e (walk_flags_norm flags) fuel
            f1 (u64 (addr + csize f1)) buf a
     else if (al =? TSK_FS_BLOCK_FLAG_UNALLOC) &&
             negb (has_flag (walk_flags_norm flags)
                     TSK_FS_BLOCK_WALK_FLAG_UNALLOC)
     then data_loop N S B rd junk a_action s e (walk_flags_norm flags) fuel
            f1 (u64 (addr + csize f1)) buf a
     else rest) = Some (f', r, a') ->
    (has_flag (walk_flags_norm flags) al = true ->
     rest = Some (f', r, a') -> I a') -> I a').
  { intros rest Heq Hrest.
    destruct Hal as [Hal|Hal]; rewrite Hal in *.
    - change (TSK_FS_BLOCK_FLAG_ALLOC =? TSK_FS_BLOCK_FLAG_ALLOC) with true
        in Heq.
      change (TSK_FS_BLOCK_FLAG_ALLOC =? TSK_FS_BLOCK_FLAG_UNALLOC) with false
        in Heq.
      destruct (has_flag (walk_flags_norm flags) TSK_FS_BLOCK_WALK_FLAG_ALLOC)
        eqn:Hf; cbn [andb negb] in Heq; [|by eapply IH].
      by apply Hrest.
    - change (TSK_FS_BLOCK_FLAG_UNALLOC =? TSK_FS_BLOCK_FLAG_ALLOC) with false
        in Heq.
      change (TSK_FS_BLOCK_FLAG_UNALLOC =? TSK_FS_BLOCK_FLAG_UNALLOC) with true
        in Heq.
      destruct (has_flag (walk_flags_norm flags)
                  TSK_FS_BLOCK_WALK_FLAG_UNALLOC)
        eqn:Hf; cbn [andb negb] in Heq; [|by eapply IH].
      by apply Hrest. }
  intros Heq. apply (Hfa _ Heq). clear Heq Hfa. intros Hfal.
  destruct (tsk_fs_read_block rd (fs_info f1) addr _ buf) as [cnt buf'].
  destruct (negb (cnt =? _)); [by intros [= <- <- <-]|].
  match goal with
  | |- context [cluster_sectors _ _ _ _ ?n _ _ _ _ _] =>
      pose proof (cluster_sectors_safe f1 al n 0 addr buf' a Hal Hfal Hfc Ha)
        as Hc;
      destruct (cluster_sectors a_action s e f1 n 0 addr
                  (Z.lor al TSK_FS_BLOCK_FLAG_CONT) buf' a) as [x a1|ret a1]
  end.
  - by apply IH.
  - by intros [= <- <- <-].
Qed.

(** X7.  Whatever the reader delivers, whatever the cache holds and
    whatever the callback answers, [fatfs_block_walk] hands the callback only
    blocks of the range asked for, only blocks whose flags the walk flags
    select, and always with RAW set: a property of the callback's data that
    every such call preserves holds when the walk returns. *)
Theorem fatfs_block_walk_callback_blocks (f f' : FATFS_INFO) (a0 a' : A)
    (r : Z) :
  I a0 ->
  fatfs_block_walk N S B rd junk f s e flags a_action a0 = Some (f', r, a') ->
  I a'.
Proof.
  intros Ha0. unfold fatfs_block_walk. cbv zeta.
  change (if (Z.land
               (if (Z.land flags TSK_FS_BLOCK_WALK_FLAG_ALLOC =? 0) &&
                   (Z.land flags TSK_FS_BLOCK_WALK_FLAG_UNALLOC =? 0)
                then Z.lor flags
                       (Z.lor TSK_FS_BLOCK_WALK_FLAG_ALLOC
                          TSK_FS_BLOCK_WALK_FLAG_UNALLOC)
                else flags) TSK_FS_BLOCK_WALK_FLAG_META =? 0) &&
             (Z.land
               (if (Z.land flags TSK_FS_BLOCK_WALK_FLAG_ALLOC =? 0) &&
                   (Z.land flags TSK_FS_BLOCK_WALK_FLAG_UNALLOC =? 0)
                then Z.lor flags
                       (Z.lor TSK_FS_BLOCK_WALK_FLAG_ALLOC
                          TSK_FS_BLOCK_WALK_FLAG_UNALLOC)
                else flags) TSK_FS_BLOCK_WALK_FLAG_CONT =? 0)
          then _ else _) with (walk_flags_norm flags).
  destruct ((s <? first_block (fs_info f)) || (last_block (fs_info f) <? s));
    [by intros [= <- <- <-]|].
  destruct ((e <? first_block (fs_info f)) || (last_block (fs_info f) <? e));
    [by intros [= <- <- <-]|].
  destruct (s <? firstclustsect f); cbn [andb].
  - destruct (has_flag (walk_flags_norm flags) TSK_FS_BLOCK_WALK_FLAG_ALLOC)
      eqn:Halloc.
    + destruct (predata_loop rd a_action e (walk_flags_norm flags) f _ s _ a0)
        as [[addr' a1|ret a1]|] eqn:Hpre; [| |done].
      * pose proof (predata_loop_safe f _ s _ a0 _ Halloc ltac:(lia) Ha0 Hpre)
          as Ha1. simpl in Ha1.
        destruct (e <=? addr'); [by intros [= <- <- <-]|].
        by apply data_loop_safe.
      * pose proof (predata_loop_safe f _ s _ a0 _ Halloc ltac:(lia) Ha0 Hpre)
          as Ha1. by intros [= <- <- <-].
    + by apply data_loop_safe.
  - by apply data_loop_safe.
Qed.

End WalkSafety.

(** Witness of X7: the walk over [20, 30] of the demo volume, across the
    first cluster sector 24, records only blocks 20..30. *)
Lemma fatfs_block_walk_callback_blocks_witness :
  match fatfs_block_walk 4 8 4096 (image_reader s1_image) 0
          (fat_demo TSK_FS_TYPE_FAT16) 20 30 0 record_cb [] with
  | Some (_, _, seen) => Forall (fun b => 20 <= blk_addr b <= 30) seen
  | None => False
  end.
Proof.
  destruct (fatfs_block_walk 4 8 4096 (image_reader s1_image) 0
              (fat_demo TSK_FS_TYPE_FAT16) 20 30 0 record_cb [])
    as [[[f' r] seen]|] eqn:Hw.
  - refine (fatfs_block_walk_callback_blocks 4 8 4096
              (image_reader s1_image) 0 record_cb 20 30 0
              (Forall (fun b => 20 <= blk_addr b <= 30))
              _ _ _ (fat_demo TSK_FS_TYPE_FAT16) f' [] seen r _ Hw).
    + lia.
    + lia.
    + intros b a Hb _ _ Ha. simpl. apply Forall_app. split; [done|].
      by constructor.
    + constructor.
  - vm_compute in Hw. discriminate.
Defined.

(** ** The walker returns *)

Section WalkReturns.

Variable N : nat.
Variables (S B : Z).
Variable rd : Z -> Z -> list byte -> Z * list byte.
Variable junk : Z.
Context {A : Type}.
Variable a_action : TSK_FS_BLOCK -> A -> TSK_WALK_RET_ENUM * A.
Variables (s e nf : Z).

Lemma fatfs_getFAT_geometry (f : FATFS_INFO) (clust value : Z) :
  same_geometry f (fst (fst (fatfs_getFAT N S B rd f clust value))).
Proof.
  unfold fatfs_getFAT.
  pose proof (fat_raw_entry_geometry N S B rd f clust) as Hgeo.
  unfold fat_raw_entry in Hgeo.
  destruct (lastclust f <? clust).
  { destruct (_ && _); apply same_geometry_refl. }
  destruct (ftype (fs_info f)); try apply same_geometry_refl.
  - destruct (negb _); [apply same_geometry_refl|].
    by destruct (getFAT12_raw N S B rd f clust) as [f1 [x|x]].
  - by destruct (getFAT16_raw N S B rd f clust) as [f1 [x|x]].
  - by destruct (getFAT32_raw N S B rd f clust) as [f1 [x|x]].
Qed.

Lemma fatfs_is_sectalloc_geometry (f : FATFS_INFO) (sect : Z) :
  same_geometry f (fst (fatfs_is_sectalloc N S B rd junk f sect)).
Proof.
  unfold fatfs_is_sectalloc, fatfs_is_clustalloc.
  destruct (sect <? firstclustsect f); [apply same_geometry_refl|].
  destruct (_ && _); [apply same_geometry_refl|].
  pose proof (fatfs_getFAT_geometry f (FATFS_SECT_2_CLUST f sect) junk) as H.
  destruct (fatfs_getFAT _ _ _ _ f _ junk) as [[f1 [x|]] c]; [done|].
  by destruct (c =? FATFS_UNALLOC).
Qed.

Lemma predata_burst_returns (f : FATFS_INFO) (n : nat) :
  forall i addr buf a,
    0 <= addr -> e + 1 < 2 ^ 64 ->
    match predata_burst a_action e nf f n i addr buf a with
    | LoopNext addr' a' =>
        addr <= addr' /\
        ((0 < n)%nat -> addr <= e -> addr < firstclustsect f -> addr < addr')
    | LoopReturn r a' => r = 0 \/ r = 1
    end.
Proof.
  induction n as [|n IH]; intros i addr buf a Haddr He; [simpl; lia|].
  cbn [predata_burst].
  destruct (Z.leb_spec addr e) as [Hle|Hgt]; cbn [andb]; [|lia].
  destruct (Z.ltb_spec addr (firstclustsect f)); [|lia].
  rewrite (u64_small (addr + 1)) by lia.
  assert (Hnext : forall a',
    match predata_burst a_action e nf f n (i + 1) (addr + 1) buf a' with
    | LoopNext addr' a'0 =>
        addr <= addr' /\
        ((0 < Datatypes.S n)%nat -> addr <= e -> addr < firstclustsect f ->
         addr < addr')
    | LoopReturn r a'0 => r = 0 \/ r = 1
    end).
  { intros a'. specialize (IH (i + 1) (addr + 1) buf a' ltac:(lia) He).
    destruct (predata_burst _ _ _ f n (i + 1) (addr + 1) buf a'); [lia|done]. }
  destruct (_ && _); [apply Hnext|].
  destruct (_ && _); [apply Hnext|].
  destruct (tsk_fs_block_set _ _ _ _) as [z blk].
  destruct (a_action blk a) as [[] a']; [apply Hnext|by left|by right].
Qed.

Lemma predata_loop_returns (f : FATFS_INFO) (fuel : nat) :
  forall addr buf a,
    0 <= addr -> e + 1 < 2 ^ 64 ->
    (Z.to_nat (e + 1 - addr) < fuel)%nat ->
    exists x, predata_loop rd a_action e nf f fuel addr buf a = Some x /\
              match x with
              | LoopNext _ _ => True
              | LoopReturn r _ => r = 0 \/ r = 1
              end.
Proof.
  induction fuel as [|fuel IH]; intros addr buf a Haddr He Hfuel; [lia|].
  cbn [predata_loop].
  destruct (Z.ltb_spec addr (firstclustsect f)); cbn [andb]; [|by eexists].
  destruct (Z.leb_spec addr e); [|by eexists].
  destruct (tsk_fs_read_block rd (fs_info f) addr _ buf) as [cnt buf'].
  destruct (negb (cnt =? _)); [eexists; split; [done|by right]|].
  pose proof (predata_burst_returns f 8 0 addr buf' a Haddr He) as Hb.
  destruct (predata_burst _ _ _ f 8 0 addr buf' a) as [addr' a'|r a'].
  - destruct Hb as [_ Hb]. specialize (Hb ltac:(lia) ltac:(lia) ltac:(lia)).
    apply IH; lia.
  - by eexists.
Qed.

Lemma cluster_sectors_returns (f : FATFS_INFO) (n : nat) :
  forall i addr myflags buf a,
    match cluster_sectors a_action s e f n i addr myflags buf a with
    | LoopNext _ _ => True
    | LoopReturn r _ => r = 0 \/ r = 1
    end.
Proof.
  induction n as [|n IH]; intros i addr myflags buf a; [done|].
  cbn [cluster_sectors].
  destruct (_ <? s); [apply IH|].
  destruct (e <? _); [done|].
  destruct (tsk_fs_block_set _ _ _ _) as [z blk].
  destruct (a_action blk a) as [[] a']; [apply IH|by left|by right].
Qed.

Lemma data_loop_returns (fuel : nat) :
  forall f addr buf a,
    0 <= addr -> 1 <= csize f -> e + csize f < 2 ^ 64 ->
    (Z.to_nat (e + 1 - addr) < fuel)%nat ->
    exists f' r a',
      data_loop N S B rd junk a_action s e nf fuel f addr buf a
      = Some (f', r, a') /\ (r = 0 \/ r = 1) /\ same_geometry f f'.
Proof.
  induction fuel as [|fuel IH]; intros f addr buf a Haddr Hcs He Hfuel;
    [lia|].
  cbn [data_loop].
  destruct (Z.leb_spec addr e);
    [|by eexists _, _, _; split; [done|split; [left|apply same_geometry_refl]]].
  pose proof (fatfs_is_sectalloc_geometry f addr) as Hgeo.
  destruct (fatfs_is_sectalloc N S B rd junk f addr) as [f1 retval].
  simpl in Hgeo.
  assert (Hcs1 : csize f1 = csize f)
    by (by destruct Hgeo as (_ & _ & _ & _ & ? & _)).
  destruct (retval =? -1);
    [by eexists _, _, _; split; [done|split; [right|]]|].
  cbv zeta. rewrite Hcs1, (u64_small (addr + csize f)) by lia.
  assert (Hnext : forall buf' a',
    exists f' r a'0,
      data_loop N S B rd junk a_action s e nf fuel f1 (addr + csize f) buf' a'
      = Some (f', r, a'0) /\ (r = 0 \/ r = 1) /\ same_geometry f f').
  { intros buf' a'.
    destruct (IH f1 (addr + csize f) buf' a' ltac:(lia) ltac:(lia)
                ltac:(lia) ltac:(lia)) as (f' & r & a'0 & Heq & Hr & Hg).
    exists f', r, a'0. split; [done|]. split; [done|].
    by eapply same_geometry_trans. }
  destruct (_ && _); [apply Hnext|].
  destruct (_ && _); [apply Hnext|].
  destruct (_ && _); [apply Hnext|].
  destruct (tsk_fs_read_block rd (fs_info f1) addr _ buf) as [cnt buf'].
  destruct (negb (cnt =? _));
    [by eexists _, _, _; split; [done|split; [right|]]|].
  match goal with
  | |- context [cluster_sectors _ _ _ _ ?n ?i ?ad ?fl _ _] =>
      pose proof (cluster_sectors_returns f1 n i ad fl buf' a) as Hc;
      destruct (cluster_sectors a_action s e f1 n i ad fl buf' a)
        as [x a1|ret a1]
  end.
  - apply Hnext.
  - by eexists _, _, _; split; [done|].
Qed.

End WalkReturns.

(** X8.  [fatfs_block_walk] returns, with 0 or 1 and with the volume's
    geometry as it was, for every range, reader, cache state and callback,
    provided a cluster is at least one sector and the end of the range is
    [csize] below the 64-bit limit.  (With [csize = 0] the cluster loop's
    [addr += csize] would not advance.) *)
Theorem fatfs_block_walk_returns (N : nat) (S B : Z)
    (rd : Z -> Z -> list byte -> Z * list byte) (junk : Z) {A : Type}
    (a_action : TSK_FS_BLOCK -> A -> TSK_WALK_RET_ENUM * A)
    (f : FATFS_INFO) (s e flags : Z) (a0 : A) :
  0 <= s -> 1 <= csize f -> e + csize f < 2 ^ 64 ->
  exists f' r a',
    fatfs_block_walk N S B rd junk f s e flags a_action a0
    = Some (f', r, a') /\ (r = 0 \/ r = 1) /\ same_geometry f f'.
Proof.
  intros Hs Hcs He. unfold fatfs_block_walk. cbv zeta.
  destruct (_ || _);
    [by eexists _, _, _; split; [done|split; [right|apply same_geometry_refl]]|].
  destruct (_ || _);
    [by eexists _, _, _; split; [done|split; [right|apply same_geometry_refl]]|].
  assert (Hdata : forall nf addr a,
    exists f' r a',
      data_loop N S B rd junk a_action s e nf
        (Datatypes.S (Datatypes.S
           (Z.to_nat
              (e - FATFS_CLUST_2_SECT f (FATFS_SECT_2_CLUST f addr)))))
        f (FATFS_CLUST_2_SECT f (FATFS_SECT_2_CLUST f addr))
        (tsk_malloc (block_size (fs_info f) * csize f)) a
      = Some (f', r, a') /\ (r = 0 \/ r = 1) /\ same_geometry f f').
  { intros nf addr a. apply data_loop_returns; [|done|done|lia].
    unfold FATFS_CLUST_2_SECT, u64. apply Z.mod_pos_bound. done. }
  destruct (s <? firstclustsect f); cbn [andb]; [|apply Hdata].
  destruct (has_flag _ TSK_FS_BLOCK_WALK_FLAG_ALLOC); [|apply Hdata].
  match goal with
  | |- context [predata_loop rd a_action e ?nf f ?fuel s ?buf a0] =>
      destruct (predata_loop_returns rd a_action e nf f fuel s buf a0
                  Hs ltac:(lia) ltac:(lia)) as (x & -> & Hx)
  end.
  destruct x as [addr' a1|r a1].
  - destruct (e <=? addr'); [|apply Hdata].
    by eexists _, _, _; split; [done|split; [left|apply same_geometry_refl]].
  - by eexists _, _, _; split; [done|split; [|apply same_geometry_refl]].
Qed.

(** Witness of X8: the walk over the whole demo volume with a recording
    callback. *)
Lemma fatfs_block_walk_returns_witness :
  exists f' r a',
    fatfs_block_walk 4 8 4096 (image_reader s1_image) 0
      (fat_demo TSK_FS_TYPE_FAT16) 0 125 0 record_cb []
    = Some (f', r, a') /\ (r = 0 \/ r = 1) /\
    same_geometry (fat_demo TSK_FS_TYPE_FAT16) f'.
Proof.
  apply (fatfs_block_walk_returns 4 8 4096 (image_reader s1_image) 0
           record_cb (fat_demo TSK_FS_TYPE_FAT16) 0 125 0 []).
  - lia.
  - vm_compute; discriminate.
  - vm_compute; reflexivity.
Defined.

(** ** What [fatfs_open] sets up *)

Ltac in_list :=
  repeat (apply elem_of_cons; first [by left | right]).

Lemma xtaf_geometry_table (img_size offset : Z) (g : Z * Z * Z * Z) :
  xtaf_geometry img_size offset = Some g ->
  g ∈ [(1176, 1160, 147910, 147891); (528, 512, 65536, 65527);
       (2248, 2240, 65536, 65527); (64, 56, 13196, 13194);
       (48, 40, 8192, 8190); (80, 64, 16384, 16381);
       (116808, 116800, 14950175, 14946525)].
Proof.
  unfold xtaf_geometry.
  repeat (destruct (_ || _);
          [intros [= <-]; unfold XTAF_SECT_PER_FAT; in_list|]).
  discriminate.
Qed.

(** What a successful [fatfs_open] has checked and built. *)
Lemma fatfs_open_inv (N : nat) (B FIRSTINO NUMSPEC : Z)
    (S2I : Z -> Z -> Z) (img_size offset : Z) (ftype0 : TSK_FS_TYPE_ENUM)
    (bs : option boot_sector) (f : FATFS_INFO) :
  fatfs_open N B FIRSTINO NUMSPEC S2I img_size offset ftype0 bs = Some f ->
  exists fs r spf cc lc cs nfat msk,
    f = cache_init N
          (mkFatfs fs (replicate N (tsk_malloc B)) [] [] 8 r (u64 (r + 32 + 0))
             cc lc r 512 9 cs nfat spf 1 msk) /\
    xtaf_geometry img_size offset = Some (r, spf, cc, lc) /\
    block_size fs = 512 /\ first_block fs = 0 /\
    last_block fs = u64 (u64 img_size / 512 - 1) /\
    msk = fat_mask (ftype fs) /\
    (ftype fs = TSK_FS_TYPE_FAT16 \/ ftype fs = TSK_FS_TYPE_FAT32) /\
    (ftype0 = TSK_FS_TYPE_FAT_DETECT ->
     ftype fs = if cc <? 0xfff4 then TSK_FS_TYPE_FAT16
                else TSK_FS_TYPE_FAT32) /\
    cs ∈ [1; 2; 4; 8; 16; 32; 64; 128] /\ 1 <= nfat <= 8.
Proof.
  unfold fatfs_open.
  destruct (negb (TSK_FS_TYPE_ISFAT ftype0)); [done|].
  destruct bs as [sb|]; [|done]. cbv zeta.
  set (cs := u8 (u32 (bs_csize sb))).
  set (nfat := u8 (u32 (bs_numfat sb))).
  destruct (negb _) eqn:Hcs; [done|].
  destruct ((nfat =? 0) || (8 <? nfat)) eqn:Hnf; [done|].
  destruct (xtaf_geometry img_size offset) as [[[[r spf] cc] lc]|] eqn:Hgeo;
    [|done].
  pose proof (xtaf_geometry_clustcnt _ _ _ _ _ _ Hgeo) as [Hcc _].
  destruct (spf =? 0); [done|].
  destruct ((XTAF_FIRST_FAT_SECT =? 0) || _); [done|].
  assert (Hcs' : cs ∈ [1; 2; 4; 8; 16; 32; 64; 128]).
  { apply negb_false_iff in Hcs.
    repeat (apply orb_true_iff in Hcs as [Hcs|Hcs]);
      apply Z.eqb_eq in Hcs; rewrite Hcs; in_list. }
  assert (Hnf' : 1 <= nfat <= 8).
  { apply orb_false_iff in Hnf as [H0 H8].
    apply Z.eqb_neq in H0. apply Z.ltb_ge in H8.
    assert (0 <= nfat) by (unfold nfat, u8; apply Z.mod_pos_bound; lia).
    lia. }
  intros Hopen.
  assert (Hres : forall t msk,
    msk = fat_mask t ->
    (t = TSK_FS_TYPE_FAT16 \/ t = TSK_FS_TYPE_FAT32) ->
    (ftype0 = TSK_FS_TYPE_FAT_DETECT ->
     t = if cc <? 0xfff4 then TSK_FS_TYPE_FAT16 else TSK_FS_TYPE_FAT32) ->
    Some (cache_init N
            (mkFatfs
               (mkFsInfo t (bs_endian sb) XTAF_SECTOR_SIZE 0
                  (u64 (u64 img_size / XTAF_SECTOR_SIZE - 1))
                  (if u64 (Z.quot (img_size - offset) XTAF_SECTOR_SIZE)
                      <? u64 img_size / XTAF_SECTOR_SIZE
                   then u64 (Z.quot (img_size - offset) XTAF_SECTOR_SIZE - 1)
                   else u64 (u64 img_size / XTAF_SECTOR_SIZE - 1))
                  FIRSTINO
                  (u64 (S2I r
                          (u64 ((if u64 (Z.quot (img_size - offset)
                                           XTAF_SECTOR_SIZE)
                                    <? u64 img_size / XTAF_SECTOR_SIZE
                                 then u64 (Z.quot (img_size - offset)
                                             XTAF_SECTOR_SIZE - 1)
                                 else u64 (u64 img_size / XTAF_SECTOR_SIZE
                                           - 1)) + 1)) - 1 + NUMSPEC)))
               (replicate N (tsk_malloc B)) [] [] XTAF_FIRST_FAT_SECT r
               (u64 (r + 32 + 0)) cc lc r XTAF_SECTOR_SIZE 9 cs nfat spf 1
               msk)) = Some f ->
    exists fs r0 spf0 cc0 lc0 cs0 nfat0 msk0,
      f = cache_init N
            (mkFatfs fs (replicate N (tsk_malloc B)) [] [] 8 r0
               (u64 (r0 + 32 + 0)) cc0 lc0 r0 512 9 cs0 nfat0 spf0 1 msk0) /\
      Some (r, spf, cc, lc) = Some (r0, spf0, cc0, lc0) /\
      block_size fs = 512 /\ first_block fs = 0 /\
      last_block fs = u64 (u64 img_size / 512 - 1) /\
      msk0 = fat_mask (ftype fs) /\
      (ftype fs = TSK_FS_TYPE_FAT16 \/ ftype fs = TSK_FS_TYPE_FAT32) /\
      (ftype0 = TSK_FS_TYPE_FAT_DETECT ->
       ftype fs = if cc0 <? 0xfff4 then TSK_FS_TYPE_FAT16
                  else TSK_FS_TYPE_FAT32) /\
      cs0 ∈ [1; 2; 4; 8; 16; 32; 64; 128] /\ 1 <= nfat0 <= 8).
  { intros t msk Hm Ht Hd [= <-].
    eexists _, r, spf, cc, lc, cs, nfat, msk.
    split; [reflexivity|]. simpl. done. }
  destruct ftype0; simpl in Hopen.
  - destruct (Z.leb_spec 4085 cc); [done|lia].
  - apply (Hres _ _ eq_refl ltac:(by left) ltac:(done) Hopen).
  - apply (Hres _ _ eq_refl ltac:(by right) ltac:(done) Hopen).
  - destruct (cc <? 0xfff4) eqn:Hlt.
    + apply (Hres _ _ eq_refl ltac:(by left) ltac:(done) Hopen).
    + apply (Hres _ _ eq_refl ltac:(by right) ltac:(done) Hopen).
  - done.
  - done.
Qed.

(** X9.  [fatfs_open] establishes what the lookups rely on.  With the cache
    constants related as in tsk_fatfs.h (a slot is [S >= 2] sectors of 512
    bytes), every volume it returns has a sane layout ([fat_layout_ok]), a
    well-formed cache that is coherent with any image (no slot is in use),
    sectors and blocks of 512 bytes starting at block 0, the first cluster
    32 sectors after the root directory, which starts where the data area
    does, the mask of its flavour, and a last cluster below the cluster
    count. *)
Theorem fatfs_open_establishes (N : nat) (S B FIRSTINO NUMSPEC : Z)
    (S2I : Z -> Z -> Z) (img_size offset : Z) (ftype0 : TSK_FS_TYPE_ENUM)
    (bs : option boot_sector) (image : Z -> byte) (f : FATFS_INFO) :
  (0 < N)%nat -> 2 <= S -> B = S * 512 -> B < 2 ^ 32 ->
  fatfs_open N B FIRSTINO NUMSPEC S2I img_size offset ftype0 bs = Some f ->
  fat_layout_ok S B f /\ cache_wf N f /\ cache_coherent B image f /\
  ssize f = 512 /\ block_size (fs_info f) = 512 /\
  first_block (fs_info f) = 0 /\
  rootsect f = firstdatasect f /\ firstclustsect f = firstdatasect f + 32 /\
  mask f = fat_mask (ftype (fs_info f)) /\
  0 < lastclust f < clustcnt f.
Proof.
  intros HN HS HB HB32 Hopen.
  apply fatfs_open_inv in Hopen
    as (fs & r & spf & cc & lc & cs & nfat & msk & -> & Hgeo & Hbs & Hfb &
        _ & Hmsk & _ & _ & _ & _).
  apply xtaf_geometry_table in Hgeo.
  assert (Hr : 0 <= r < 2 ^ 32 /\ 0 < lc < cc /\ lc < 2 ^ 32).
  { repeat (apply elem_of_cons in Hgeo as [[= -> -> -> ->]|Hgeo]; [lia|]).
    by apply elem_of_nil in Hgeo. }
  destruct (cache_init_coherent N B image HN
              (mkFatfs fs (replicate N (tsk_malloc B)) [] [] 8 r
                 (u64 (r + 32 + 0)) cc lc r 512 9 cs nfat spf 1 msk)
              (length_replicate _ _)) as [Hwf Hcoh].
  split; [|split; [exact Hwf|split; [exact Hcoh|]]].
  - unfold fat_layout_ok. simpl. rewrite Hbs.
    change (2 ^ 9) with 512. lia.
  - unfold cache_init, set_cache. simpl.
    rewrite Hbs, Hfb, Z.add_0_r, u64_small by lia.
    repeat split; try done; lia.
Qed.

(** Witness of X9: the 256 MiB system partition. *)
Lemma fatfs_open_establishes_witness :
  fat_layout_ok 8 4096 opened_demo /\ firstclustsect opened_demo = 112.
Proof.
  destruct (fatfs_open_establishes 4 8 4096 2 4
              (fun fds s => (s - fds) * 16 + 3) 268435456 0
              TSK_FS_TYPE_FAT_DETECT (Some (mkBoot TSK_BIG_ENDIAN 32 1))
              s1_image opened_demo ltac:(lia) ltac:(lia) eq_refl
              ltac:(lia) open_demo_detect)
    as (Hlay & _ & _ & _ & _ & _ & _ & Hfcs & _).
  split; [exact Hlay|exact Hfcs].
Defined.

(** X10.  With auto-detection [fatfs_open] picks a flavour whose FAT fits:
    on every volume it returns, the entry of every cluster up to
    [lastclust] (2 bytes for FAT16, 4 for FAT32) lies inside the [sectperfat]
    sectors of the first FAT, and that FAT ends before the root
    directory. *)
Theorem fatfs_open_detect_fat_fits (N : nat) (B FIRSTINO NUMSPEC : Z)
    (S2I : Z -> Z -> Z) (img_size offset : Z)
    (bs : option boot_sector) (f : FATFS_INFO) (clust : Z) :
  fatfs_open N B FIRSTINO NUMSPEC S2I img_size offset
    TSK_FS_TYPE_FAT_DETECT bs = Some f ->
  0 <= clust <= lastclust f ->
  let width :=
    match ftype (fs_info f) with TSK_FS_TYPE_FAT16 => 2 | _ => 4 end in
  firstfatsect f * ssize f
  <= firstfatsect f * ssize f + clust * width /\
  firstfatsect f * ssize f + clust * width + width
  <= (firstfatsect f + sectperfat f) * ssize f /\
  firstfatsect f + sectperfat f <= rootsect f.
Proof.
  intros Hopen Hc.
  apply fatfs_open_inv in Hopen
    as (fs & r & spf & cc & lc & cs & nfat & msk & -> & Hgeo & _ & _ &
        _ & _ & _ & Hdet & _ & _).
  specialize (Hdet eq_refl). simpl in *. rewrite Hdet.
  apply xtaf_geometry_table in Hgeo.
  repeat (apply elem_of_cons in Hgeo as [[= -> -> -> ->]|Hgeo];
          [simpl; lia|]).
  by apply elem_of_nil in Hgeo.
Qed.

(** Witness of X10: cluster 16381, the last one of the 256 MiB partition. *)
Lemma fatfs_open_detect_fat_fits_witness :
  8 * 512 + 16381 * 2 + 2 <= (8 + 64) * 512.
Proof.
  exact (proj1 (proj2
           (fatfs_open_detect_fat_fits 4 4096 2 4
              (fun fds s => (s - fds) * 16 + 3) 268435456 0
              (Some (mkBoot TSK_BIG_ENDIAN 32 1)) opened_demo 16381
              open_demo_detect ltac:(vm_compute; split; discriminate)))).
Defined.

(** ** A repeated request is served from the cache *)

Lemma find_seq_Some (p : nat -> bool) (n : nat) :
  forall s c,
    List.find p (seq s n) = Some c ->
    (s <= c < s + n)%nat /\ p c = true /\
    forall j, (s <= j < c)%nat -> p j = false.
Proof.
  induction n as [|n IH]; intros s c; [done|]. simpl.
  destruct (p s) eqn:Hs.
  - intros [= <-]. split; [lia|]. split; [done|]. intros j Hj. lia.
  - intros Hf. apply IH in Hf as (Hc & Hp & Hfirst).
    split; [lia|]. split; [done|]. intros j Hj.
    destruct (decide (j = s)) as [->|Hne]; [done|]. apply Hfirst. lia.
Qed.

Lemma find_seq_first (p : nat -> bool) (n : nat) :
  forall s c,
    (s <= c < s + n)%nat -> p c = true ->
    (forall j, (s <= j < c)%nat -> p j = false) ->
    List.find p (seq s n) = Some c.
Proof.
  induction n as [|n IH]; intros s c Hc Hp Hfirst; [lia|]. simpl.
  destruct (decide (s = c)) as [->|Hne]; [by rewrite Hp|].
  rewrite (Hfirst s) by lia. apply IH; [lia|done|].
  intros j Hj. apply Hfirst. lia.
Qed.

Section CacheHit.

Variable N : nat.
Variables (S B : Z).
Variables rd rd' : Z -> Z -> list byte -> Z * list byte.
Hypothesis N_pos : (0 < N)%nat.

(** X11.  Once a request for a FAT sector has succeeded, the same request
    again is answered from the cache: it returns the same slot and leaves
    the whole state as it is, whatever the reader would deliver (it is not
    asked). *)
Theorem cache_request_idempotent (f f1 : FATFS_INFO) (sect : Z) (c : nat) :
  cache_wf N f -> 0 <= sect -> 0 < S -> sect + S < 2 ^ 64 ->
  getFATCacheIdx N S B rd f sect = (f1, inr c) ->
  getFATCacheIdx N S B rd' f1 sect = (f1, inr c).
Proof.
  intros (Hinv & Hla & Hlb & Hnn) Hsect HS Hbound Hcall.
  destruct (getFATCacheIdx_ttl_inv N S B rd N_pos _ _ _ _ Hinv Hcall)
    as [Hinv1 [Hc Hone]].
  pose proof (getFATCacheIdx_in_use N S B rd N_pos _ _ _ _ Hinv Hcall)
    as Huse.
  pose proof (inv_len _ _ Hinv1) as Hlen1.
  assert (Hcov : slot_covers S f1 sect c = true /\
                 forall j, (j < c)%nat -> slot_covers S f1 sect j = false).
  { unfold getFATCacheIdx in Hcall.
    destruct (List.find _ _) as [i|] eqn:Hfind.
    - injection Hcall as <- <-.
      apply find_seq_Some in Hfind as (Hi & Hp & Hfirst).
      unfold slot_covers in *. simpl in *.
      split.
      + rewrite Hone.
        destruct (fatc_ttl f !! i) as [t|]; [|done].
        destruct (fatc_addr f !! i) as [a|]; [|done].
        apply andb_true_iff in Hp as [Hp Hp2].
        apply andb_true_iff in Hp as [_ Hp1]. by rewrite Hp1, Hp2.
      + intros j Hj. specialize (Hfirst j ltac:(lia)).
        destruct (<[i:=1]> (age_loop N i (fatc_ttl f)) !! j) as [t'|] eqn:Ht';
          [|done].
        destruct (fatc_addr f !! j) as [a|]; [|by destruct (fatc_ttl f !! j)].
        destruct (Z.ltb_spec 0 t') as [Hpos|]; [|done].
        destruct (Huse j t' ltac:(lia) Ht' Hpos) as (t & Ht & Htpos).
        rewrite Ht in Hfirst.
        destruct (Z.ltb_spec 0 t); [|lia]. done.
    - destruct (rd _ _ _) as [cnt buf].
      destruct (negb (cnt =? B)); [done|]. injection Hcall as <- <-.
      pose proof (find_none _ _ Hfind) as Hnone.
      destruct (find_victim_genuine N N_pos _ Hinv) as (Hlt & _).
      unfold slot_covers in *. simpl in *.
      split.
      + rewrite Hone, list_lookup_insert_eq by lia.
        rewrite u64_small by lia.
        destruct (Z.leb_spec sect sect); [|lia].
        by destruct (Z.ltb_spec sect (sect + S)); [|lia].
      + intros j Hj.
        specialize (Hnone j ltac:(apply in_seq; lia)).
        match goal with
        | |- match ?l !! j with _ => _ end = false =>
            destruct (l !! j) as [t'|] eqn:Ht'; [|done]
        end.
        rewrite list_lookup_insert_ne by lia.
        destruct (fatc_addr f !! j) as [a|]; [|by destruct (fatc_ttl f !! j)].
        destruct (Z.ltb_spec 0 t') as [Hpos|]; [|done].
        destruct (Huse j t' ltac:(lia) Ht' Hpos) as (t & Ht & Htpos).
        rewrite Ht in Hnone.
        destruct (Z.ltb_spec 0 t); [|lia]. done. }
  destruct Hcov as [Hcc Hfirst].
  unfold getFATCacheIdx.
  rewrite (find_seq_first _ N 0 c ltac:(lia) Hcc
             ltac:(intros j Hj; apply Hfirst; lia)).
  f_equal.
  assert (Httl : <[c:=1]> (age_loop N c (fatc_ttl f1)) = fatc_ttl f1).
  { apply list_eq. intros a.
    rewrite (promote_lookup N N_pos _ c 1 a Hlen1 Hone).
    destruct (fatc_ttl f1 !! a) as [ta|] eqn:Ha; [|done]. simpl.
    destruct (decide (a = c)) as [->|Hne]; [congruence|].
    pose proof (inv_range _ _ Hinv1 _ _ Ha). unfold aged.
    destruct (Z.eqb_spec ta 0); [done|].
    by destruct (Z.ltb_spec ta 1); [lia|]. }
  rewrite Httl. by destruct f1.
Qed.

End CacheHit.

(** Witness of X11: the demo cache after it has loaded sector 1; the repeat
    request, with a reader that delivers nothing. *)
Lemma cache_request_idempotent_witness :
  getFATCacheIdx 4 8 4096 (fun _ _ old => (-1, old)) cache_demo1 1
  = (cache_demo1, inr 3%nat).
Proof.
  apply (cache_request_idempotent 4 8 4096 (fill_reader x00)
           (fun _ _ old => (-1, old)) ltac:(lia)
           (fat_demo TSK_FS_TYPE_FAT16) cache_demo1 1 3).
  - apply (cache_init_coherent 4 4096 s1_image ltac:(lia)). reflexivity.
  - lia.
  - lia.
  - lia.
  - vm_compute. reflexivity.
Defined.

(** ** Registry: what a loaded cell holds *)

Lemma byte_val_inj (a b : byte) : byte_val a = byte_val b -> a = b.
Proof.
  unfold byte_val. intros H. apply N2Z.inj in H.
  pose proof (Byte.of_to_N a) as Ha. rewrite H, Byte.of_to_N in Ha.
  by injection Ha.
Qed.

Lemma tag_test (b4 b5 k1 k2 : byte) :
  (byte_val b4 + byte_val b5 * 2 ^ 8 =? byte_val k1 + byte_val k2 * 2 ^ 8)
  = Byte.eqb b4 k1 && Byte.eqb b5 k2.
Proof.
  pose proof (byte_val_bounds b4). pose proof (byte_val_bounds b5).
  pose proof (byte_val_bounds k1). pose proof (byte_val_bounds k2).
  destruct (Byte.eqb b4 k1) eqn:H4; [destruct (Byte.eqb b5 k2) eqn:H5|].
  - apply Byte.byte_dec_bl in H4, H5. subst. apply Z.eqb_refl.
  - apply Byte.eqb_false in H5. apply Z.eqb_neq. intros Heq.
    apply H5, byte_val_inj. lia.
  - apply Byte.eqb_false in H4. apply Z.eqb_neq. intros Heq.
    apply H4, byte_val_inj. lia.
Qed.

Lemma cell_type_of_letters (b4 b5 : byte) :
  Regfs.cell_type_of (byte_val b4 + byte_val b5 * 2 ^ 8)
  = type_of_letters b4 b5.
Proof.
  unfold Regfs.cell_type_of, type_of_letters.
  change 0x6b76 with (byte_val x76 + byte_val x6b * 2 ^ 8).
  change 0x6b6e with (byte_val x6e + byte_val x6b * 2 ^ 8).
  change 0x666c with (byte_val x6c + byte_val x66 * 2 ^ 8).
  change 0x686c with (byte_val x6c + byte_val x68 * 2 ^ 8).
  change 0x696c with (byte_val x6c + byte_val x69 * 2 ^ 8).
  change 0x6972 with (byte_val x72 + byte_val x69 * 2 ^ 8).
  change 0x6b73 with (byte_val x73 + byte_val x6b * 2 ^ 8).
  change 0x6264 with (byte_val x64 + byte_val x62 * 2 ^ 8).
  by rewrite !tag_test.
Qed.

Lemma tsk_getu32_bounds (e : TSK_ENDIAN_ENUM) (buf : list byte) (p : Z) :
  0 <= tsk_getu32 e buf p < 2 ^ 32.
Proof.
  assert (Hb : forall i, 0 <= buf_get buf i < 2 ^ 8).
  { intros i. unfold buf_get. destruct (i <? 0); [lia|].
    destruct (buf !! Z.to_nat i) as [b|]; [apply byte_val_bounds|lia]. }
  assert (Hgen : forall a b c d,
    0 <= a < 2 ^ 8 -> 0 <= b < 2 ^ 8 -> 0 <= c < 2 ^ 8 -> 0 <= d < 2 ^ 8 ->
    0 <= Z.lor (Z.lor a (Z.shiftl b 8)) (Z.lor (Z.shiftl c 16) (Z.shiftl d 24))
      < 2 ^ 32).
  { intros a b c d Ha Hb' Hc Hd.
    replace (Z.shiftl d 24) with (Z.shiftl (Z.shiftl d 8) 16)
      by (rewrite Z.shiftl_shiftl by lia; reflexivity).
    rewrite <- Z.shiftl_lor, (lor_shiftl_add a b 8) by lia.
    rewrite (lor_shiftl_add c d 8) by lia.
    rewrite lor_shiftl_add by lia. lia. }
  unfold tsk_getu32. destruct e; apply Hgen; apply Hb.
Qed.

Section CellTheory.

Variable rd : Z -> Z -> list byte -> Z * list byte.

(** What a successful [reg_load_cell] leaves in the cell, for either byte
    order. *)
Lemma reg_load_cell_ok (fs : TSK_FS_INFO) (cell c : Regfs.REGFS_CELL)
    (inum0 : Z) :
  Regfs.reg_load_cell rd fs cell inum0 = (c, None) ->
  first_block fs <= inum0 <= last_block fs /\
  fst (rd inum0 6 []) = 6 /\
  Regfs.inum c = inum0 /\
  (Regfs.is_allocated c = 0 \/ Regfs.is_allocated c = 1) /\
  0 <= Regfs.length c < Regfs.HBIN_SIZE /\
  Regfs.type c
  = Regfs.cell_type_of (tsk_getu16 (endian fs) (snd (rd inum0 6 [])) 4).
Proof.
  unfold Regfs.reg_load_cell.
  destruct (Z.ltb_spec inum0 (first_block fs)); [done|].
  destruct (Z.ltb_spec (last_block fs) inum0); [done|]. cbn [orb].
  destruct (rd inum0 6 []) as [count buf]. cbn [fst snd].
  destruct (Z.eqb_spec count 6); cbn [negb]; [|done].
  pose proof (tsk_getu32_bounds (endian fs) buf 0) as Hb.
  destruct (negb _).
  - cbn [Regfs.length Regfs.is_allocated Regfs.type].
    destruct (Z.leb_spec Regfs.HBIN_SIZE
                (u32 (-1 * tsk_gets32 (endian fs) buf 0))); [done|].
    intros [= <-]. cbn [Regfs.inum Regfs.is_allocated Regfs.length Regfs.type].
    repeat split; try done; try lia; try (by right).
    unfold u32. apply Z.mod_pos_bound. lia.
  - cbn [Regfs.length Regfs.is_allocated Regfs.type].
    destruct (Z.leb_spec Regfs.HBIN_SIZE (tsk_getu32 (endian fs) buf 0));
      [done|].
    intros [= <-]. cbn [Regfs.inum Regfs.is_allocated Regfs.length Regfs.type].
    repeat split; try done; try lia; by left.
Qed.

(** On a little-endian hive the type of a loaded cell is that of the two
    letters at bytes 4 and 5. *)
Lemma reg_load_cell_letters (fs : TSK_FS_INFO) (cell c : Regfs.REGFS_CELL)
    (inum0 : Z) (b0 b1 b2 b3 b4 b5 : byte) :
  endian fs = TSK_LIT_ENDIAN ->
  rd inum0 6 [] = (6, [b0; b1; b2; b3; b4; b5]) ->
  Regfs.reg_load_cell rd fs cell inum0 = (c, None) ->
  Regfs.type c = type_of_letters b4 b5.
Proof.
  intros Hend Hrd Hr.
  apply reg_load_cell_ok in Hr as (_ & _ & _ & _ & _ & Ht).
  rewrite Hrd, Hend in Ht. cbn [snd] in Ht.
  rewrite Ht. rewrite <- cell_type_of_letters. f_equal.
  unfold tsk_getu16, buf_get. simpl.
  pose proof (byte_val_bounds b4).
  by rewrite lor_shiftl_add by lia.
Qed.

(** X12.  The record type of a loaded cell.  A failed [reg_load_cell]
    never touches the cell's type.  A successful one, on a little-endian
    hive, sets it by the two letters at bytes 4 and 5 of the cell ("vk",
    "nk", "lf", "lh", "li", "ri", "sk", "db"; anything else is UNKNOWN),
    and leaves a cell with the offset asked for, an allocation flag that is
    0 or 1 and a length below [HBIN_SIZE]. *)
Theorem reg_load_cell_record_type (fs : TSK_FS_INFO)
    (cell : Regfs.REGFS_CELL) (inum0 : Z) :
  let r := Regfs.reg_load_cell rd fs cell inum0 in
  (snd r ≠ None -> Regfs.type (fst r) = Regfs.type cell) /\
  (forall b0 b1 b2 b3 b4 b5,
     endian fs = TSK_LIT_ENDIAN ->
     rd inum0 6 [] = (6, [b0; b1; b2; b3; b4; b5]) ->
     snd r = None ->
     Regfs.type (fst r) = type_of_letters b4 b5 /\
     Regfs.inum (fst r) = inum0 /\
     (Regfs.is_allocated (fst r) = 0 \/ Regfs.is_allocated (fst r) = 1) /\
     0 <= Regfs.length (fst r) < Regfs.HBIN_SIZE).
Proof.
  intros r. split.
  - subst r. unfold Regfs.reg_load_cell.
    destruct (_ || _); [done|].
    destruct (rd inum0 6 []) as [count buf].
    destruct (negb (count =? 6)); [done|].
    destruct (negb _); cbn [Regfs.length];
      destruct (Regfs.HBIN_SIZE <=? _); done.
  - intros b0 b1 b2 b3 b4 b5 Hend Hrd Hok.
    destruct r as [c o] eqn:Hr. simpl in Hok. subst o.
    pose proof (reg_load_cell_letters _ _ _ _ _ _ _ _ _ _ Hend Hrd Hr) as Ht.
    apply reg_load_cell_ok in Hr as (_ & _ & Hi & Ha & Hl & _).
    done.
Qed.

End CellTheory.

(** Witness of X12: the header [F8 FF FF FF 6E 6B] is an "nk" record. *)
Lemma reg_load_cell_record_type_witness :
  Regfs.type
    (fst (Regfs.reg_load_cell (header_reader [xf8; xff; xff; xff; x6e; x6b])
            reg_demo blank_cell 4096))
  = Regfs.TSK_REGFS_RECORD_TYPE_NK.
Proof.
  exact (proj1 (proj2 (reg_load_cell_record_type
                         (header_reader [xf8; xff; xff; xff; x6e; x6b])
                         reg_demo blank_cell 4096)
                  xf8 xff xff xff x6e x6b eq_refl eq_refl eq_refl)).
Defined.

(** ** Registry: timestamps *)

(** X13.  [nt2unixtime] and [nt2nano] split a Windows date between 1970
    and the end of the 32-bit seconds range into whole seconds since 1970
    and the rest, in the date's own unit of 100 ns: the two results put the
    date together again, the rest is below one second and the seconds fit
    32 bits. *)
Theorem nt_time_split (nt : Z) :
  Regfs.NSEC_BTWN_1601_1970 <= nt
    < Regfs.NSEC_BTWN_1601_1970 + 2 ^ 32 * 10000000 ->
  nt = Regfs.NSEC_BTWN_1601_1970 + Regfs.nt2unixtime nt * 10000000
       + Regfs.nt2nano nt /\
  0 <= Regfs.nt2nano nt < 10000000 /\
  0 <= Regfs.nt2unixtime nt < 2 ^ 32.
Proof.
  unfold Regfs.nt2unixtime, Regfs.nt2nano, Regfs.NSEC_BTWN_1601_1970.
  intros Hnt. cbv zeta.
  set (d := nt - 116444736000000000).
  assert (Hd : 0 <= d < 2 ^ 32 * 10000000) by (unfold d; lia).
  rewrite (u64_small d) by lia.
  pose proof (Z.div_mod d 10000000 ltac:(lia)) as Hdm.
  pose proof (Z.mod_pos_bound d 10000000 ltac:(lia)) as Hm.
  assert (Hq : 0 <= d / 10000000 < 2 ^ 32).
  { split; [apply Z.div_pos; lia|]. apply Z.div_lt_upper_bound; lia. }
  assert (Hr : nt mod 10000000 = d mod 10000000).
  { replace nt with (d + 11644473600 * 10000000) by (unfold d; lia).
    apply Z.mod_add. lia. }
  rewrite Hr.
  assert (Hs : s32 (d mod 10000000) = d mod 10000000).
  { unfold s32, u32. rewrite (Z.mod_small (d mod 10000000)) by lia.
    by destruct (Z.ltb_spec (d mod 10000000) (2 ^ 31)); [|lia]. }
  rewrite Hs. unfold u32. rewrite !Z.mod_small by lia.
  unfold d in *. lia.
Qed.

(** Witness of X13: one second and five ticks after the start of 1970. *)
Lemma nt_time_split_witness :
  116444736010000005
  = Regfs.NSEC_BTWN_1601_1970
    + Regfs.nt2unixtime 116444736010000005 * 10000000
    + Regfs.nt2nano 116444736010000005.
Proof.
  apply (nt_time_split 116444736010000005).
  unfold Regfs.NSEC_BTWN_1601_1970. lia.
Defined.

(** ** Registry: metadata of a cell *)

Section MetaTheory.

Variable rd : Z -> Z -> list byte -> Z * list byte.
Variable alloc : Z -> option Regfs.TSK_FS_META.

(** X14.  Which cells of an opened hive [reg_file_add_meta] can load.
    [regfs_open] sets the inode range to [4096, last_hbin_offset + 4096] and
    the block range to [0, last_hbin_offset]; [reg_file_add_meta] checks the
    first and [reg_load_cell] the second.  So an address outside the inode
    range is refused with INODE_NUM, the file untouched; an address inside
    it but past [last_hbin_offset] is refused with BLK_NUM, the file then
    referring to the file system; and a call that returns [TSK_OK] was for
    an address in [4096, last_hbin_offset]. *)
Theorem reg_file_add_meta_window (img_size : Z) (h : Regfs.regf_header)
    (fs : TSK_FS_INFO) (file : Regfs.TSK_FS_FILE) (inum0 : Z)
    (cell0 : Regfs.REGFS_CELL) (nttime : Z) :
  Regfs.regfs_open img_size TSK_FS_TYPE_REG (Some h) = Some fs ->
  0 <= Regfs.regf_last_hbin_offset h ->
  Regfs.regf_last_hbin_offset h + 4096 < 2 ^ 32 ->
  let last := Regfs.regf_last_hbin_offset h in
  let r := Regfs.reg_file_add_meta rd alloc fs (Some file) inum0 cell0
             nttime in
  (inum0 < 4096 \/ last + 4096 < inum0 ->
   r = (Regfs.RET_1, Some Regfs.TSK_ERR_FS_INODE_NUM, Some file)) /\
  (4096 <= inum0 -> last < inum0 <= last + 4096 ->
   r = (Regfs.RET_1, Some (Regfs.REG_ERRNO TSK_ERR_FS_BLK_NUM),
        Some (Regfs.mkFile (Regfs.file_meta file) (Some fs)))) /\
  (fst (fst r) = Regfs.RET_TSK_OK -> 4096 <= inum0 <= last).
Proof.
  intros Hopen H0 H32 last r. subst r.
  unfold Regfs.regfs_open in Hopen.
  destruct (negb _); [done|]. injection Hopen as <-.
  unfold Regfs.reg_file_add_meta, Regfs.reg_load_cell.
  cbn [first_inum last_inum first_block last_block].
  unfold Regfs.FIRST_HBIN_OFFSET, Regfs.HBIN_SIZE.
  unfold u32.
  rewrite (Z.mod_small (Regfs.regf_last_hbin_offset h + 4096)) by lia.
  fold last.
  destruct (Z.ltb_spec inum0 4096); cbn [orb].
  { split; [done|]. split; [lia|]. done. }
  destruct (Z.ltb_spec (last + 4096) inum0).
  { split; [done|]. split; [lia|]. done. }
  split; [lia|].
  destruct (Z.ltb_spec inum0 0); [lia|]. cbn [orb].
  destruct (Z.ltb_spec last inum0).
  { split; [done|]. done. }
  split; [lia|]. intros _. lia.
Qed.

(** X15.  What [reg_file_add_meta] has built when it returns [TSK_OK]:
    [tsk_errno] is clear; the file refers to the file system and to a meta
    structure for the address asked for, which lies in the inode range and in
    the block range; the size is the cell's length and below [HBIN_SIZE] (the
    second length check of the function never fires); the content buffer
    holds what the reader delivered for that many bytes at the address, read
    in full; the flags are ALLOC whether or not the cell is allocated; mode
    0007777, one link, sequence 0, no owner; every time but the modification
    time is 0, seconds and nanoseconds, and that one too unless the record
    is a key.  On a
    little-endian hive the type follows the record letters: "vk" is a
    regular file, "nk" a directory, everything else virtual. *)
Theorem reg_file_add_meta_ok (fs : TSK_FS_INFO)
    (a_fs_file : option Regfs.TSK_FS_FILE) (inum0 : Z)
    (cell0 : Regfs.REGFS_CELL) (nttime : Z)
    (e : option Regfs.REG_META_ERRNO) (file' : option Regfs.TSK_FS_FILE) :
  Regfs.reg_file_add_meta rd alloc fs a_fs_file inum0 cell0 nttime
  = (Regfs.RET_TSK_OK, e, file') ->
  e = None /\
  first_inum fs <= inum0 <= last_inum fs /\
  first_block fs <= inum0 <= last_block fs /\
  exists m m0,
    file' = Some (Regfs.mkFile (Some m) (Some fs)) /\
    Regfs.meta_addr m = inum0 /\
    Regfs.meta_flags m = Regfs.TSK_FS_META_FLAG_ALLOC /\
    0 <= Regfs.meta_size m < Regfs.HBIN_SIZE /\
    Regfs.meta_size m
    = Regfs.length (fst (Regfs.reg_load_cell rd fs cell0 inum0)) /\
    alloc (Regfs.meta_size m) = Some m0 /\
    rd inum0 (Regfs.meta_size m) (Regfs.meta_content m0)
    = (Regfs.meta_size m, Regfs.meta_content m) /\
    Regfs.meta_mode m = 4095 /\ Regfs.meta_nlink m = 1 /\
    Regfs.meta_seq m = 0 /\
    Regfs.meta_uid m = 0 /\ Regfs.meta_gid m = 0 /\
    Regfs.meta_atime m = 0 /\ Regfs.meta_ctime m = 0 /\
    Regfs.meta_crtime m = 0 /\ Regfs.meta_dtime m = 0 /\
    Regfs.meta_atime_nano m = 0 /\ Regfs.meta_ctime_nano m = 0 /\
    Regfs.meta_crtime_nano m = 0 /\ Regfs.meta_dtime_nano m = 0 /\
    (Regfs.meta_type m ≠ Regfs.TSK_FS_META_TYPE_DIR ->
     Regfs.meta_mtime m = 0 /\ Regfs.meta_mtime_nano m = 0) /\
    (forall b0 b1 b2 b3 b4 b5,
       endian fs = TSK_LIT_ENDIAN ->
       rd inum0 6 [] = (6, [b0; b1; b2; b3; b4; b5]) ->
       Regfs.meta_type m
       = match type_of_letters b4 b5 with
         | Regfs.TSK_REGFS_RECORD_TYPE_VK => Regfs.TSK_FS_META_TYPE_REG
         | Regfs.TSK_REGFS_RECORD_TYPE_NK => Regfs.TSK_FS_META_TYPE_DIR
         | _ => Regfs.TSK_FS_META_TYPE_VIRT
         end).
Proof.
  unfold Regfs.reg_file_add_meta.
  destruct (Z.ltb_spec inum0 (first_inum fs)); [done|].
  destruct (Z.ltb_spec (last_inum fs) inum0); [done|]. cbn [orb].
  destruct a_fs_file as [file|]; [|done].
  destruct (Regfs.reg_load_cell rd fs cell0 inum0) as [c [err|]] eqn:Hload;
    [done|].
  pose proof (fun b0 b1 b2 b3 b4 b5 Hend Hrd =>
                reg_load_cell_letters rd fs cell0 c inum0 b0 b1 b2 b3 b4 b5
                  Hend Hrd Hload) as Hletters.
  apply reg_load_cell_ok in Hload as (Hblk & _ & _ & _ & Hlen & _).
  destruct (Z.ltb_spec Regfs.HBIN_SIZE (Regfs.length c)); [lia|].
  destruct (alloc (Regfs.length c)) as [m0|] eqn:Halloc; [|done].
  destruct (rd inum0 (Regfs.length c) (Regfs.meta_content m0))
    as [count content] eqn:Hread.
  destruct (Z.eqb_spec count (Regfs.length c)) as [->|]; [|done].
  cbn [negb]. intros [= <- <-].
  split; [done|]. split; [lia|]. split; [done|].
  eexists _, m0. split; [reflexivity|]. cbn.
  repeat (split; [done|]).
  split; [by destruct (Regfs.type c)|].
  intros b0 b1 b2 b3 b4 b5 Hend Hrd.
  by rewrite <- (Hletters b0 b1 b2 b3 b4 b5 Hend Hrd).
Qed.

End MetaTheory.

(** Witness of X14: on the demo hive (last HBIN at byte 4096) the cell at
    byte 6144 is in the inode range [4096, 8192] and is refused with
    BLK_NUM. *)
Lemma reg_file_add_meta_window_witness :
  Regfs.reg_file_add_meta (image_reader nk_image) zero_meta_alloc reg_demo
    (Some blank_file) 6144 blank_cell 0
  = (Regfs.RET_1, Some (Regfs.REG_ERRNO TSK_ERR_FS_BLK_NUM),
     Some (Regfs.mkFile None (Some reg_demo))).
Proof.
  refine (proj1 (proj2
            (reg_file_add_meta_window (image_reader nk_image)
               zero_meta_alloc 12288
               (Regfs.mkRegf Regfs.REG_REGF_MAGIC 4096) reg_demo blank_file
               6144 blank_cell 0 eq_refl _ _)) _ _).
  - simpl; lia.
  - simpl; lia.
  - lia.
  - simpl; lia.
Defined.

(** Witness of X15: the "nk" cell of 8 bytes at byte 4096 of [nk_image]. *)
Lemma reg_file_add_meta_ok_witness :
  let r := Regfs.reg_file_add_meta (image_reader nk_image) zero_meta_alloc
             reg_demo (Some blank_file) 4096 blank_cell 0 in
  fst (fst r) = Regfs.RET_TSK_OK /\ snd (fst r) = None /\
  first_block reg_demo <= 4096 <= last_block reg_demo.
Proof.
  intros r.
  assert (Hr : r = (Regfs.RET_TSK_OK, snd (fst r), snd r))
    by (vm_compute; reflexivity).
  pose proof (reg_file_add_meta_ok (image_reader nk_image) zero_meta_alloc
                reg_demo (Some blank_file) 4096 blank_cell 0 _ _ Hr)
    as (He & _ & Hb & _).
  split; [by rewrite Hr|]. split; [exact He|exact Hb].
Defined.

(** ** Walking the cluster area *)

(** Before the first cluster the end of the range only matters up to the
    last sector before it. *)
Lemma predata_burst_clip {A : Type}
    (a_action : TSK_FS_BLOCK -> A -> TSK_WALK_RET_ENUM * A)
    (e1 e2 nf : Z) (f : FATFS_INFO) (n : nat) :
  (forall addr, addr < firstclustsect f -> (addr <=? e1) = (addr <=? e2)) ->
  forall i addr buf a,
    predata_burst a_action e1 nf f n i addr buf a
    = predata_burst a_action e2 nf f n i addr buf a.
Proof.
  intros Hclip. induction n as [|n IH]; intros i addr buf a; [done|].
  cbn [predata_burst].
  destruct (Z.ltb_spec addr (firstclustsect f)) as [Hlt|Hge].
  - rewrite (Hclip addr Hlt). destruct (addr <=? e2); cbn [andb]; [|done].
    destruct (_ && _); [apply IH|].
    destruct (_ && _); [apply IH|].
    destruct (tsk_fs_block_set _ _ _ _) as [z blk].
    destruct (a_action blk a) as [[] a']; [apply IH|done|done].
  - by rewrite !andb_false_r.
Qed.

Lemma predata_loop_clip {A : Type}
    (rd : Z -> Z -> list byte -> Z * list byte)
    (a_action : TSK_FS_BLOCK -> A -> TSK_WALK_RET_ENUM * A)
    (e1 e2 nf : Z) (f : FATFS_INFO) (fuel : nat) :
  (forall addr, addr < firstclustsect f -> (addr <=? e1) = (addr <=? e2)) ->
  forall addr buf a,
    predata_loop rd a_action e1 nf f fuel addr buf a
    = predata_loop rd a_action e2 nf f fuel addr buf a.
Proof.
  intros Hclip. induction fuel as [|fuel IH]; intros addr buf a; [done|].
  cbn [predata_loop].
  destruct (Z.ltb_spec addr (firstclustsect f)) as [Hlt|Hge]; cbn [andb];
    [|reflexivity].
  rewrite (Hclip addr Hlt). destruct (addr <=? e2); [|reflexivity].
  destruct (tsk_fs_read_block rd (fs_info f) addr _ buf) as [cnt buf'].
  destruct (negb (cnt =? _)); [reflexivity|].
  rewrite (predata_burst_clip a_action e1 e2 nf f 8 Hclip).
  destruct (predata_burst a_action e2 nf f 8 0 addr buf' a);
    [apply IH|reflexivity].
Qed.

Lemma foldl_ext_in {X Y : Type} (g1 g2 : Y -> X -> Y) (l : list X) :
  (forall a x, x ∈ l -> g1 a x = g2 a x) ->
  forall a, foldl g1 a l = foldl g2 a l.
Proof.
  induction l as [|x l IH]; intros Hext a; [done|]. simpl.
  rewrite (Hext a x) by (by left). apply IH.
  intros a' y Hy. apply Hext. by right.
Qed.

Lemma foldl_id_in {X Y : Type} (g : Y -> X -> Y) (l : list X) :
  (forall a x, x ∈ l -> g a x = a) -> forall a, foldl g a l = a.
Proof.
  induction l as [|x l IH]; intros Hid a; [done|]. simpl.
  rewrite (Hid a x) by (by left). apply IH.
  intros a' y Hy. apply Hid. by right.
Qed.

Section DataWalk.

Variable N : nat.
Variables (S B : Z).
Variable rd : Z -> Z -> list byte -> Z * list byte.
Variable junk : Z.
Variable image : Z -> byte.
Context {A : Type}.
Variable a_action : TSK_FS_BLOCK -> A -> TSK_WALK_RET_ENUM * A.
Variable f : FATFS_INFO.
Variables (s e flags : Z).

Hypothesis N_pos : (0 < N)%nat.
Hypothesis rd_image : reads_image rd image.
Hypothesis cb_cont : forall b a, fst (a_action b a) = TSK_WALK_CONT.
Hypothesis layout : fat_layout_ok S B f.
Hypothesis flavour :
  ftype (fs_info f) = TSK_FS_TYPE_FAT16 \/
  ftype (fs_info f) = TSK_FS_TYPE_FAT32.
Hypothesis csize_pos : 1 <= csize f.
Hypothesis fcs_nonneg : 0 <= firstclustsect f.
Hypothesis clusters_u64 :
  firstclustsect f + csize f * (clustcnt f + 1) < 2 ^ 64.
Hypothesis lastclust_cnt : lastclust f <= clustcnt f + 1.
Hypothesis e_cluster : 2 + (e - firstclustsect f) / csize f <= lastclust f.

(** The reads the walk of [s, e] issues in the cluster area succeed.  The
    clusters of the range are those of index [k] (cluster [2 + k]) between
    the index of the first sector walked and the index of [e]; for each, the
    cache slot read at the FAT sector of its entry is complete, and so is the
    read of its sectors up to [e]. *)
Hypothesis fat_reads : forall k old,
  (Z.max s (firstclustsect f) - firstclustsect f) / csize f <= k
    <= (e - firstclustsect f) / csize f ->
  fst (rd (fat_entry_sector f (2 + k) * ssize f) B old) = B.
Hypothesis cluster_reads : forall k old,
  (Z.max s (firstclustsect f) - firstclustsect f) / csize f <= k
    <= (e - firstclustsect f) / csize f ->
  fst (rd ((firstclustsect f + k * csize f) * block_size (fs_info f))
          (block_size (fs_info f)
           * Z.min (csize f) (e + 1 - (firstclustsect f + k * csize f)))
          old)
  = block_size (fs_info f)
    * Z.min (csize f) (e + 1 - (firstclustsect f + k * csize f)).

Lemma layout_geometry (f1 : FATFS_INFO) :
  same_geometry f f1 -> fat_layout_ok S B f1.
Proof.
  intros (Hfs & Hl & _ & _ & _ & Hss & Hsh & Hff).
  unfold fat_layout_ok in *. rewrite Hfs, Hl, Hss, Hsh, Hff. exact layout.
Qed.

Lemma status_geometry (f1 : FATFS_INFO) (c : Z) :
  same_geometry f f1 ->
  clamp_entry f1 (fat_mask (ftype (fs_info f1)))
    (Z.land (fat_entry_on_disk image f1 c) (fat_mask (ftype (fs_info f1))))
  = fat_status_on_disk image f c.
Proof.
  intros (Hfs & Hl & _ & _ & _ & Hss & Hsh & Hff).
  unfold fat_status_on_disk, clamp_entry, fat_entry_on_disk.
  by rewrite Hfs, Hl, Hss, Hff.
Qed.

Lemma first_index_nonneg :
  0 <= (Z.max s (firstclustsect f) - firstclustsect f) / csize f.
Proof. apply Z.div_pos; lia. Qed.

Lemma index_cluster (k : Z) :
  (Z.max s (firstclustsect f) - firstclustsect f) / csize f <= k
    <= (e - firstclustsect f) / csize f ->
  0 <= k /\ 0 <= 2 + k <= lastclust f.
Proof. pose proof first_index_nonneg. lia. Qed.

(** The cache lookup for the entry of a cluster of the range finds a slot:
    on a miss the one read it issues is among [fat_reads]. *)
Lemma getFATCacheIdx_total (f1 : FATFS_INFO) (k : Z) :
  same_geometry f f1 ->
  (Z.max s (firstclustsect f) - firstclustsect f) / csize f <= k
    <= (e - firstclustsect f) / csize f ->
  exists f2 c,
    getFATCacheIdx N S B rd f1 (fat_entry_sector f (2 + k)) = (f2, inr c).
Proof.
  intros (Hfs & _) Hk. destruct (index_cluster k Hk) as [Hk0 Hc].
  pose proof layout as (Hsh & Hss & Hbs & HB & HS & Hffs & Hmax).
  assert (Hsect : 0 <= fat_entry_sector f (2 + k) * ssize f < 2 ^ 64).
  { unfold fat_entry_sector.
    destruct flavour as [-> | ->].
    - destruct (fat_sector_bounds N S B N_pos f (2 * (2 + k)) layout
                  ltac:(lia)) as (_ & Hs0 & Hs1 & H4).
      nia.
    - destruct (fat_sector_bounds N S B N_pos f (4 * (2 + k)) layout
                  ltac:(lia)) as (_ & Hs0 & Hs1 & H4).
      nia. }
  unfold getFATCacheIdx. destruct (List.find _ _); [by eexists _, _|].
  rewrite Hfs, Hbs, (u64_small _ Hsect).
  pose proof (fat_reads k
                (default [] (fatc_buf f1 !! find_victim N (fatc_ttl f1))) Hk)
    as Hcnt.
  destruct (rd _ _ _) as [cnt buf]. simpl in Hcnt. subst cnt.
  rewrite Z.eqb_refl. by eexists _, _.
Qed.

Lemma fatfs_getFAT_total (f1 : FATFS_INFO) (k : Z) :
  same_geometry f f1 ->
  (Z.max s (firstclustsect f) - firstclustsect f) / csize f <= k
    <= (e - firstclustsect f) / csize f ->
  exists f2 v, fatfs_getFAT N S B rd f1 (2 + k) junk = (f2, None, v).
Proof.
  intros Hgeo Hk. destruct (index_cluster k Hk) as [Hk0 Hc].
  pose proof Hgeo as (Hfs & Hl & _ & _ & _ & Hss1 & Hsh1 & Hff1).
  pose proof layout as (Hsh & Hss & Hbs & HB & HS & Hffs & Hmax).
  unfold fatfs_getFAT. rewrite Hl, Hfs.
  destruct (Z.ltb_spec (lastclust f) (2 + k)); [lia|].
  destruct flavour as [Hft | Hft]; rewrite Hft.
  - unfold getFAT16_raw. rewrite Hff1, Hsh1.
    destruct (fat_sector_bounds N S B N_pos f (2 * (2 + k)) layout
                ltac:(lia)) as (Hshr & Hs0 & Hs1 & H4).
    assert (Hb : u64 (Z.shiftl (2 + k) 1) = 2 * (2 + k)).
    { rewrite Z.shiftl_mul_pow2 by lia. change (2 ^ 1) with 2.
      rewrite u64_small by nia. lia. }
    rewrite Hb, Hshr, (u64_small (firstfatsect f + _)) by nia.
    replace (firstfatsect f + 2 * (2 + k) / ssize f)
      with (fat_entry_sector f (2 + k))
      by (unfold fat_entry_sector; by rewrite Hft).
    destruct (getFATCacheIdx_total f1 k Hgeo Hk) as (f2 & i & ->).
    by eexists _, _.
  - unfold getFAT32_raw. rewrite Hff1, Hsh1.
    destruct (fat_sector_bounds N S B N_pos f (4 * (2 + k)) layout
                ltac:(lia)) as (Hshr & Hs0 & Hs1 & H4).
    assert (Hb : u64 (Z.shiftl (2 + k) 2) = 4 * (2 + k)).
    { rewrite Z.shiftl_mul_pow2 by lia. change (2 ^ 2) with 4.
      rewrite u64_small by nia. lia. }
    rewrite Hb, Hshr, (u64_small (firstfatsect f + _)) by nia.
    replace (firstfatsect f + 4 * (2 + k) / ssize f)
      with (fat_entry_sector f (2 + k))
      by (unfold fat_entry_sector; by rewrite Hft).
    destruct (getFATCacheIdx_total f1 k Hgeo Hk) as (f2 & i & ->).
    by eexists _, _.
Qed.

Lemma sect_cluster (k j : Z) :
  0 <= k -> 0 <= j < csize f ->
  firstclustsect f + k * csize f + j <= e ->
  FATFS_SECT_2_CLUST f (firstclustsect f + k * csize f + j) = 2 + k /\
  0 <= 2 + k <= lastclust f.
Proof.
  intros Hk Hj He.
  assert (Hdiv : (k * csize f + j) / csize f = k).
  { rewrite Z.div_add_l by lia. rewrite (Z.div_small j) by lia. lia. }
  assert (Hke : k <= (e - firstclustsect f) / csize f).
  { rewrite <- Hdiv. apply Z.div_le_mono; lia. }
  unfold FATFS_SECT_2_CLUST.
  replace (firstclustsect f + k * csize f + j - firstclustsect f)
    with (k * csize f + j) by lia.
  assert (Hkc : k <= clustcnt f) by lia.
  rewrite (u64_small (k * csize f + j)) by nia.
  rewrite Hdiv, u64_small by nia. lia.
Qed.

(** The allocation status of a sector of the range, by the image. *)
Lemma fatfs_is_sectalloc_disk (f1 : FATFS_INFO) (k j : Z) :
  walk_inv N B image f f1 ->
  (Z.max s (firstclustsect f) - firstclustsect f) / csize f <= k ->
  0 <= j < csize f ->
  firstclustsect f + k * csize f + j <= e ->
  exists f2,
    fatfs_is_sectalloc N S B rd junk f1
      (firstclustsect f + k * csize f + j)
    = (f2, if fat_status_on_disk image f (2 + k) =? 0 then 0 else 1) /\
    walk_inv N B image f f2.
Proof.
  intros (Hwf & Hcoh & Hgeo) Hklo Hj He.
  assert (Hk : 0 <= k) by (pose proof first_index_nonneg; lia).
  pose proof Hgeo as (Hfs & Hl & Hcc & Hfc & Hcs & _).
  destruct (sect_cluster k j Hk Hj He) as [Hclust Hrange].
  assert (Hkc : k <= (e - firstclustsect f) / csize f).
  { replace k with ((k * csize f + j) / csize f).
    - apply Z.div_le_mono; lia.
    - rewrite Z.div_add_l by lia. rewrite (Z.div_small j) by lia. lia. }
  unfold fatfs_is_sectalloc. rewrite Hfc, Hcs, Hcc, Hfs.
  destruct (Z.ltb_spec (firstclustsect f + k * csize f + j)
              (firstclustsect f)); [nia|].
  assert (Htail : u64 (firstclustsect f + u64 (csize f * clustcnt f))
                  = firstclustsect f + csize f * clustcnt f).
  { rewrite (u64_small (csize f * clustcnt f)) by nia.
    apply u64_small. nia. }
  rewrite Htail.
  destruct (Z.leb_spec (firstclustsect f + csize f * clustcnt f)
              (firstclustsect f + k * csize f + j)); [nia|].
  rewrite andb_false_r.
  assert (Hc1 : FATFS_SECT_2_CLUST f1 (firstclustsect f + k * csize f + j)
                = 2 + k).
  { unfold FATFS_SECT_2_CLUST in *. by rewrite Hfc, Hcs. }
  rewrite Hc1. unfold fatfs_is_clustalloc.
  destruct (fatfs_getFAT_total f1 k Hgeo (conj Hklo Hkc)) as (f2 & v & Hget).
  rewrite Hget.
  destruct (fatfs_getFAT_disk N S B rd image N_pos rd_image f1 f2 (2 + k)
              junk v (layout_geometry f1 Hgeo) Hwf Hcoh
              ltac:(rewrite Hl; lia) Hget) as (-> & Hwf2 & Hcoh2 & Hgeo2).
  rewrite (status_geometry f1 (2 + k) Hgeo). unfold FATFS_UNALLOC.
  exists f2. split.
  - by destruct (_ =? 0).
  - split; [done|]. split; [done|]. by eapply same_geometry_trans.
Qed.

Lemma e_bound : e < firstclustsect f + csize f * clustcnt f.
Proof.
  pose proof (Z.mul_succ_div_gt (e - firstclustsect f) (csize f)
                ltac:(lia)) as H.
  nia.
Qed.

Lemma walk_selects_plain (al : Z) :
  al = TSK_FS_BLOCK_FLAG_ALLOC \/ al = TSK_FS_BLOCK_FLAG_UNALLOC ->
  walk_selects flags (Z.lor al TSK_FS_BLOCK_FLAG_CONT)
  = has_flag (walk_flags_norm flags) al &&
    has_flag (walk_flags_norm flags) TSK_FS_BLOCK_WALK_FLAG_CONT.
Proof. intros [->| ->]; reflexivity. Qed.

Lemma block_size_nonneg : 0 <= block_size (fs_info f).
Proof.
  destruct layout as (Hsh & Hss & Hbs & _). rewrite Hbs, Hss.
  apply Z.pow_nonneg. lia.
Qed.

(** The sectors of one cluster read into the buffer, [n] of them left. *)
Lemma cluster_sectors_run (f1 : FATFS_INFO) (al rs addr : Z) (n : nat) :
  forall i a,
    fs_info f1 = fs_info f ->
    0 <= i -> i + Z.of_nat n = rs -> 0 <= addr -> addr + rs <= e + 1 ->
    e + 1 < 2 ^ 64 ->
    cluster_sectors a_action s e f1 n i addr
      (Z.lor al TSK_FS_BLOCK_FLAG_CONT)
      (image_bytes image (addr * block_size (fs_info f))
         (block_size (fs_info f) * rs)) a
    = LoopNext addr
        (foldl (fun a x =>
                  if x <? s then a
                  else snd (a_action
                              (image_block image (fs_info f) x
                                 (Z.lor al TSK_FS_BLOCK_FLAG_CONT)) a))
           a (seqZ (addr + i) (Z.of_nat n))).
Proof.
  pose proof block_size_nonneg as Hbs.
  induction n as [|n IH]; intros i a Hfs Hi Hn Haddr Hend He64; [done|].
  cbn [cluster_sectors].
  rewrite (u64_small (addr + i)) by lia.
  rewrite Nat2Z.inj_succ, (seqZ_cons (addr + i)), Z.pred_succ by lia.
  cbn [foldl].
  replace (Z.succ (addr + i)) with (addr + (i + 1)) by lia.
  destruct (Z.ltb_spec (addr + i) s).
  - apply IH; try done; lia.
  - destruct (Z.ltb_spec e (addr + i)); [lia|].
    unfold tsk_fs_block_set. rewrite Hfs.
    rewrite (image_bytes_sector image _ _ i rs) by lia.
    replace (addr * block_size (fs_info f) + i * block_size (fs_info f))
      with ((addr + i) * block_size (fs_info f)) by lia.
    fold (image_block image (fs_info f) (addr + i)
            (Z.lor al TSK_FS_BLOCK_FLAG_CONT)).
    pose proof (cb_cont (image_block image (fs_info f) (addr + i)
                           (Z.lor al TSK_FS_BLOCK_FLAG_CONT)) a) as Hc.
    destruct (a_action _ a) as [r a']. simpl in Hc. subst r. simpl.
    apply IH; try done; lia.
Qed.

Lemma seqZ_cluster_split (addr : Z) :
  addr <= e ->
  let rs := if e - addr + 1 <? csize f then e - addr + 1 else csize f in
  seqZ addr (e + 1 - addr)
  = seqZ addr rs ++ seqZ (addr + csize f) (e + 1 - (addr + csize f)).
Proof.
  intros Haddr rs. subst rs.
  destruct (Z.ltb_spec (e - addr + 1) (csize f)).
  - replace (seqZ (addr + csize f) (e + 1 - (addr + csize f))) with (@nil Z).
    + rewrite app_nil_r. f_equal. lia.
    + symmetry. apply length_zero_iff_nil. rewrite length_seqZ. lia.
  - rewrite <- seqZ_app by lia. f_equal. lia.
Qed.

(** The cluster loop from the first sector of cluster [2 + k]. *)
Lemma data_loop_run (fuel : nat) :
  forall f1 k buf a,
    walk_inv N B image f f1 ->
    (Z.max s (firstclustsect f) - firstclustsect f) / csize f <= k ->
    (Z.to_nat (e + 1 - (firstclustsect f + k * csize f)) < fuel)%nat ->
    exists f',
      data_loop N S B rd junk a_action s e (walk_flags_norm flags) fuel f1
        (firstclustsect f + k * csize f) buf a
      = Some (f', 0,
              foldl (data_step image a_action f s flags) a
                (seqZ (firstclustsect f + k * csize f)
                   (e + 1 - (firstclustsect f + k * csize f)))) /\
      walk_inv N B image f f'.
Proof.
  pose proof e_bound as Hebound.
  induction fuel as [|fuel IH]; intros f1 k buf a Hinv Hklo Hfuel; [lia|].
  assert (Hk : 0 <= k) by (pose proof first_index_nonneg; lia).
  cbn [data_loop].
  set (addr := firstclustsect f + k * csize f) in *.
  destruct (Z.leb_spec addr e) as [Hle|Hgt].
  2:{ exists f1. split; [|done]. do 2 f_equal.
      replace (seqZ addr (e + 1 - addr)) with (@nil Z); [done|].
      symmetry. apply length_zero_iff_nil. rewrite length_seqZ. lia. }
  assert (Hkhi : k <= (e - firstclustsect f) / csize f)
    by (apply Z.div_le_lower_bound; unfold addr in *; lia).
  destruct (fatfs_is_sectalloc_disk f1 k 0 Hinv Hklo ltac:(lia)
              ltac:(fold addr; lia)) as (f2 & Halloc & Hinv2).
  rewrite Z.add_0_r in Halloc. fold addr in Halloc. rewrite Halloc.
  pose proof Hinv2 as (_ & _ & Hgeo2).
  pose proof Hgeo2 as (Hfs2 & _ & _ & _ & Hcs2 & _).
  set (st := fat_status_on_disk image f (2 + k)) in *.
  set (al := if st =? 0 then TSK_FS_BLOCK_FLAG_UNALLOC
             else TSK_FS_BLOCK_FLAG_ALLOC).
  assert (Hal : al = TSK_FS_BLOCK_FLAG_ALLOC \/ al = TSK_FS_BLOCK_FLAG_UNALLOC)
    by (subst al; destruct (st =? 0); auto).
  assert (Hflags : forall x, x ∈ seqZ addr
                       (if e - addr + 1 <? csize f then e - addr + 1
                        else csize f) ->
            cluster_flags_on_disk image f x
            = Z.lor al TSK_FS_BLOCK_FLAG_CONT).
  { intros x Hx. apply elem_of_seqZ in Hx.
    assert (Hx' : addr <= x < addr + csize f /\ x <= e)
      by (destruct (e - addr + 1 <? csize f) eqn:E;
          [apply Z.ltb_lt in E|apply Z.ltb_ge in E]; lia).
    unfold cluster_flags_on_disk.
    replace x with (firstclustsect f + k * csize f + (x - addr))
      by (unfold addr; lia).
    destruct (sect_cluster k (x - addr) Hk ltac:(lia)
                ltac:(unfold addr in *; lia)) as [-> _].
    done. }
  assert (Hr1 : (if (if st =? 0 then 0 else 1) =? 1
                 then TSK_FS_BLOCK_FLAG_ALLOC
                 else TSK_FS_BLOCK_FLAG_UNALLOC) = al)
    by (subst al; by destruct (st =? 0)).
  assert (Hne : ((if st =? 0 then 0 else 1) =? -1) = false)
    by (by destruct (st =? 0)).
  rewrite Hne. cbv zeta. rewrite Hr1, Hcs2, Hfs2.
  rewrite (u64_small (addr + csize f)) by (unfold addr; nia).
  rewrite (u64_small (e - addr + 1)) by (unfold addr in *; nia).
  replace (addr + csize f) with (firstclustsect f + (k + 1) * csize f)
    by (unfold addr; lia).
  assert (Hnext : forall buf' a',
    exists f',
      data_loop N S B rd junk a_action s e (walk_flags_norm flags) fuel f2
        (firstclustsect f + (k + 1) * csize f) buf' a'
      = Some (f', 0,
              foldl (data_step image a_action f s flags) a'
                (seqZ (addr + csize f) (e + 1 - (addr + csize f)))) /\
      walk_inv N B image f f').
  { intros buf' a'.
    replace (addr + csize f) with (firstclustsect f + (k + 1) * csize f)
      by (unfold addr; lia).
    apply IH; [done|lia|]. unfold addr in *. nia. }
  rewrite (seqZ_cluster_split addr Hle), foldl_app.
  set (rs := if e - addr + 1 <? csize f then e - addr + 1 else csize f) in *.
  assert (Hsel : walk_selects flags (Z.lor al TSK_FS_BLOCK_FLAG_CONT)
                 = has_flag (walk_flags_norm flags) al &&
                   has_flag (walk_flags_norm flags)
                     TSK_FS_BLOCK_WALK_FLAG_CONT)
    by (by apply walk_selects_plain).
  assert (Hskip : walk_selects flags (Z.lor al TSK_FS_BLOCK_FLAG_CONT) = false
                  -> forall a0,
                     foldl (data_step image a_action f s flags) a0
                       (seqZ addr rs) = a0).
  { intros Hs. apply foldl_id_in. intros a1 x Hx. unfold data_step.
    by rewrite (Hflags x Hx), Hs, andb_false_r. }
  assert (Htests :
    has_flag (Z.lor al TSK_FS_BLOCK_FLAG_CONT) TSK_FS_BLOCK_FLAG_CONT = true /\
    has_flag (Z.lor al TSK_FS_BLOCK_FLAG_CONT) TSK_FS_BLOCK_FLAG_ALLOC
    = (al =? TSK_FS_BLOCK_FLAG_ALLOC) /\
    has_flag (Z.lor al TSK_FS_BLOCK_FLAG_CONT) TSK_FS_BLOCK_FLAG_UNALLOC
    = (al =? TSK_FS_BLOCK_FLAG_UNALLOC))
    by (by destruct Hal as [->| ->]).
  destruct Htests as (-> & -> & ->).
  destruct (has_flag (walk_flags_norm flags) TSK_FS_BLOCK_WALK_FLAG_CONT)
    eqn:Hfc; cbn [andb negb].
  2:{ rewrite Hskip by (by rewrite Hsel, andb_false_r). apply Hnext. }
  assert (Hfa : has_flag (walk_flags_norm flags) al = false ->
    exists f',
      (if (al =? TSK_FS_BLOCK_FLAG_ALLOC) &&
          negb (has_flag (walk_flags_norm flags) TSK_FS_BLOCK_WALK_FLAG_ALLOC)
       then data_loop N S B rd junk a_action s e (walk_flags_norm flags) fuel
              f2 (firstclustsect f + (k + 1) * csize f) buf a
       else if (al =? TSK_FS_BLOCK_FLAG_UNALLOC) &&
               negb (has_flag (walk_flags_norm flags)
                       TSK_FS_BLOCK_WALK_FLAG_UNALLOC)
       then data_loop N S B rd junk a_action s e (walk_flags_norm flags) fuel
              f2 (firstclustsect f + (k + 1) * csize f) buf a
       else
         let '(cnt, buf0) :=
           tsk_fs_read_block rd (fs_info f) addr
             (block_size (fs_info f) * rs) buf in
         if negb (cnt =? block_size (fs_info f) * rs) then Some (f2, 1, a)
         else
           match
             cluster_sectors a_action s e f2 (Z.to_nat rs) 0 addr
               (Z.lor al TSK_FS_BLOCK_FLAG_CONT) buf0 a
           with
           | LoopNext _ a' =>
               data_loop N S B rd junk a_action s e (walk_flags_norm flags)
                 fuel f2 (firstclustsect f + (k + 1) * csize f) buf0 a'
           | LoopReturn r a' => Some (f2, r, a')
           end)
      = Some (f', 0,
              foldl (data_step image a_action f s flags)
                (foldl (data_step image a_action f s flags) a (seqZ addr rs))
                (seqZ (addr + csize f) (e + 1 - (addr + csize f)))) /\
      walk_inv N B image f f').
  { intros Hoff.
    rewrite Hskip by (by rewrite Hsel, Hoff).
    destruct Hal as [Hal|Hal]; rewrite Hal in *.
    - change (TSK_FS_BLOCK_FLAG_ALLOC =? TSK_FS_BLOCK_FLAG_ALLOC) with true.
      change (has_flag (walk_flags_norm flags) TSK_FS_BLOCK_WALK_FLAG_ALLOC)
        with (has_flag (walk_flags_norm flags) TSK_FS_BLOCK_FLAG_ALLOC).
      rewrite Hoff. cbn [andb negb]. apply Hnext.
    - change (TSK_FS_BLOCK_FLAG_UNALLOC =? TSK_FS_BLOCK_FLAG_ALLOC)
        with false.
      change (TSK_FS_BLOCK_FLAG_UNALLOC =? TSK_FS_BLOCK_FLAG_UNALLOC)
        with true.
      change (has_flag (walk_flags_norm flags) TSK_FS_BLOCK_WALK_FLAG_UNALLOC)
        with (has_flag (walk_flags_norm flags) TSK_FS_BLOCK_FLAG_UNALLOC).
      rewrite Hoff. cbn [andb negb]. apply Hnext. }
  destruct (has_flag (walk_flags_norm flags) al) eqn:Hfal;
    [clear Hfa|by apply Hfa].
  assert (Hpass :
    (al =? TSK_FS_BLOCK_FLAG_ALLOC) &&
      negb (has_flag (walk_flags_norm flags) TSK_FS_BLOCK_WALK_FLAG_ALLOC)
    = false /\
    (al =? TSK_FS_BLOCK_FLAG_UNALLOC) &&
      negb (has_flag (walk_flags_norm flags) TSK_FS_BLOCK_WALK_FLAG_UNALLOC)
    = false).
  { destruct Hal as [Hal|Hal]; rewrite Hal in *.
    - change (has_flag (walk_flags_norm flags) TSK_FS_BLOCK_WALK_FLAG_ALLOC)
        with (has_flag (walk_flags_norm flags) TSK_FS_BLOCK_FLAG_ALLOC).
      by rewrite Hfal.
    - change (has_flag (walk_flags_norm flags) TSK_FS_BLOCK_WALK_FLAG_UNALLOC)
        with (has_flag (walk_flags_norm flags) TSK_FS_BLOCK_FLAG_UNALLOC).
      by rewrite Hfal. }
  destruct Hpass as [-> ->].
  unfold tsk_fs_read_block.
  assert (Hmin : Z.min (csize f) (e + 1 - addr) = rs)
    by (subst rs; destruct (Z.ltb_spec (e - addr + 1) (csize f)); lia).
  pose proof (cluster_reads k buf (conj Hklo Hkhi)) as Hcnt.
  fold addr in Hcnt. rewrite Hmin in Hcnt.
  pose proof (rd_image _ _ buf Hcnt) as Hbuf.
  destruct (rd _ _ buf) as [cnt buf']. simpl in Hcnt, Hbuf. subst cnt buf'.
  rewrite Z.eqb_refl. cbn [negb].
  assert (Hrs : 1 <= rs <= csize f /\ addr + rs <= e + 1)
    by (subst rs; destruct (Z.ltb_spec (e - addr + 1) (csize f)); lia).
  rewrite (cluster_sectors_run f2 al rs addr (Z.to_nat rs) 0 a Hfs2)
    by (unfold addr in *; nia).
  rewrite Z.add_0_r, Z2Nat.id by lia.
  rewrite (foldl_ext_in
             (fun a0 x =>
                if x <? s then a0
                else snd (a_action
                            (image_block image (fs_info f) x
                               (Z.lor al TSK_FS_BLOCK_FLAG_CONT)) a0))
             (data_step image a_action f s flags)).
  - apply Hnext.
  - intros a1 x Hx. unfold data_step.
    rewrite (Hflags x Hx), Hsel. cbn [andb]. rewrite andb_true_r.
    destruct (Z.ltb_spec x s), (Z.leb_spec s x); try lia; done.
Qed.

Lemma data_fold_filter (l : list Z) :
  Forall (fun x => s <= x) l ->
  forall a,
    foldl (data_step image a_action f s flags) a l
    = deliver a_action a
        ((fun x => image_block image (fs_info f) x
                     (cluster_flags_on_disk image f x))
           <$> filter (fun x => walk_selects flags
                                  (cluster_flags_on_disk image f x)) l).
Proof.
  induction 1 as [|x l Hx Hl IH]; intros a; [done|].
  cbn [foldl]. rewrite IH, filter_cons. unfold data_step at 1.
  destruct (Z.leb_spec s x); [|lia]. cbn [andb].
  destruct (walk_selects flags (cluster_flags_on_disk image f x)).
  - destruct (decide (Is_true true)) as [_|H']; [done|by destruct H'].
  - destruct (decide (Is_true false)) as [H'|_]; [by destruct H'|done].
Qed.

(** The flags [fatfs_block_getflags] reports for a sector of the range are
    those of the image. *)
Lemma fatfs_block_getflags_disk (x : Z) :
  cache_wf N f -> cache_coherent B image f ->
  firstdatasect f <= firstclustsect f -> firstclustsect f <= x <= e ->
  s <= x ->
  snd (fatfs_block_getflags N S B rd junk f x)
  = cluster_flags_on_disk image f x.
Proof.
  intros Hwf Hcoh Hfds Hx Hsx.
  pose proof (Z.div_mod (x - firstclustsect f) (csize f) ltac:(lia)) as Hdm.
  pose proof (Z.mod_pos_bound (x - firstclustsect f) (csize f) ltac:(lia))
    as Hm.
  assert (Hk : 0 <= (x - firstclustsect f) / csize f)
    by (apply Z.div_pos; lia).
  assert (Hklo : (Z.max s (firstclustsect f) - firstclustsect f) / csize f
                 <= (x - firstclustsect f) / csize f)
    by (apply Z.div_le_mono; lia).
  assert (Hxe : x = firstclustsect f
                    + (x - firstclustsect f) / csize f * csize f
                    + (x - firstclustsect f) mod csize f) by lia.
  destruct (fatfs_is_sectalloc_disk f _ _
              ltac:(split; [done|split; [done|apply same_geometry_refl]])
              Hklo Hm ltac:(lia)) as (f2 & Halloc & _).
  destruct (sect_cluster _ _ Hk Hm ltac:(lia)) as [Hclust _].
  rewrite <- Hxe in Halloc, Hclust.
  unfold fatfs_block_getflags, cluster_flags_on_disk.
  destruct (Z.ltb_spec x (firstdatasect f)); [lia|].
  destruct (Z.ltb_spec x (firstclustsect f)); [lia|].
  rewrite Halloc, Hclust.
  by destruct (_ =? 0).
Qed.

(** X16.  A walk over a range of the cluster area.  On a FAT16 or FAT32
    volume with a sane layout, a coherent cache and a callback that always
    continues, for a range [s, e] from the first cluster sector on whose
    clusters are all at most [lastclust], when the reads of the FAT sectors
    and of the sectors of the clusters of the range succeed (nothing is
    asked of any other read, so the image may be finite): the walk returns 0
    and has given the callback exactly the sectors of [s, e] that the walk
    flags select by the flags [fatfs_block_getflags] reports for them, in
    ascending order, each once, with those flags plus RAW and with the
    sector's bytes of the image; the allocation flag of each is that of its
    cluster's FAT entry on disk.  The cache is coherent afterwards. *)
Theorem fatfs_block_walk_clusters (a0 : A) :
  cache_wf N f -> cache_coherent B image f ->
  firstdatasect f <= firstclustsect f ->
  first_block (fs_info f) <= s -> firstclustsect f <= s -> s <= e ->
  e <= last_block (fs_info f) ->
  let getflags x := snd (fatfs_block_getflags N S B rd junk f x) in
  (forall x, s <= x <= e -> getflags x = cluster_flags_on_disk image f x) /\
  exists f',
    fatfs_block_walk N S B rd junk f s e flags a_action a0
    = Some (f', 0,
            deliver a_action a0
              ((fun x => image_block image (fs_info f) x (getflags x))
                 <$> filter (fun x => walk_selects flags (getflags x))
                       (seqZ s (e - s + 1)))) /\
    walk_inv N B image f f'.
Proof.
  intros Hwf Hcoh Hfds Hfb Hs Hse Hlb getflags.
  pose proof e_bound as Hebound.
  assert (Hgf : forall x, s <= x <= e ->
            getflags x = cluster_flags_on_disk image f x).
  { intros x Hx. apply fatfs_block_getflags_disk; try done; lia. }
  split; [exact Hgf|].
  pose proof (Z.div_mod (s - firstclustsect f) (csize f) ltac:(lia)) as Hdm.
  pose proof (Z.mod_pos_bound (s - firstclustsect f) (csize f) ltac:(lia))
    as Hm.
  set (k0 := (s - firstclustsect f) / csize f) in *.
  assert (Hk0 : 0 <= k0) by (apply Z.div_pos; lia).
  assert (Hklo : (Z.max s (firstclustsect f) - firstclustsect f) / csize f
                 <= k0) by (rewrite Z.max_l by lia; subst k0; lia).
  destruct (sect_cluster k0 _ Hk0 Hm ltac:(lia)) as [Hclust _].
  replace (firstclustsect f + k0 * csize f
           + (s - firstclustsect f) mod csize f) with s in Hclust by lia.
  assert (Haddr0 : FATFS_CLUST_2_SECT f (FATFS_SECT_2_CLUST f s)
                   = firstclustsect f + k0 * csize f).
  { rewrite Hclust. unfold FATFS_CLUST_2_SECT.
    replace (2 + k0 - 2) with k0 by lia.
    rewrite (u64_small k0) by nia. apply u64_small. nia. }
  unfold fatfs_block_walk. cbv zeta.
  change (if (Z.land
               (if (Z.land flags TSK_FS_BLOCK_WALK_FLAG_ALLOC =? 0) &&
                   (Z.land flags TSK_FS_BLOCK_WALK_FLAG_UNALLOC =? 0)
                then Z.lor flags
                       (Z.lor TSK_FS_BLOCK_WALK_FLAG_ALLOC
                          TSK_FS_BLOCK_WALK_FLAG_UNALLOC)
                else flags) TSK_FS_BLOCK_WALK_FLAG_META =? 0) &&
             (Z.land
               (if (Z.land flags TSK_FS_BLOCK_WALK_FLAG_ALLOC =? 0) &&
                   (Z.land flags TSK_FS_BLOCK_WALK_FLAG_UNALLOC =? 0)
                then Z.lor flags
                       (Z.lor TSK_FS_BLOCK_WALK_FLAG_ALLOC
                          TSK_FS_BLOCK_WALK_FLAG_UNALLOC)
                else flags) TSK_FS_BLOCK_WALK_FLAG_CONT =? 0)
          then _ else _) with (walk_flags_norm flags).
  destruct (Z.ltb_spec s (first_block (fs_info f))); [lia|].
  destruct (Z.ltb_spec (last_block (fs_info f)) s); [lia|].
  destruct (Z.ltb_spec e (first_block (fs_info f))); [lia|].
  destruct (Z.ltb_spec (last_block (fs_info f)) e); [lia|]. cbn [orb].
  destruct (Z.ltb_spec s (firstclustsect f)); [lia|]. cbn [andb].
  rewrite Haddr0.
  destruct (data_loop_run
              (Datatypes.S (Datatypes.S
                 (Z.to_nat (e - (firstclustsect f + k0 * csize f)))))
              f k0 (tsk_malloc (block_size (fs_info f) * csize f)) a0
              ltac:(split; [done|split; [done|apply same_geometry_refl]])
              Hklo ltac:(lia)) as (f' & Heq & Hinv').
  exists f'. split; [|done]. rewrite Heq. do 2 f_equal.
  replace (e + 1 - (firstclustsect f + k0 * csize f))
    with ((s - (firstclustsect f + k0 * csize f)) + (e - s + 1)) by lia.
  rewrite seqZ_app, foldl_app by lia.
  replace (firstclustsect f + k0 * csize f
           + (s - (firstclustsect f + k0 * csize f))) with s by lia.
  rewrite (foldl_id_in (data_step image a_action f s flags)
             (seqZ (firstclustsect f + k0 * csize f)
                (s - (firstclustsect f + k0 * csize f)))).
  2:{ intros a x Hx. apply elem_of_seqZ in Hx. unfold data_step.
      by destruct (Z.leb_spec s x); [lia|]. }
  rewrite data_fold_filter.
  2:{ apply Forall_forall. intros x Hx. apply elem_of_seqZ in Hx. lia. }
  f_equal. symmetry.
  apply (fmap_filter_ext (fun x => s <= x <= e)).
  - apply Forall_forall. intros x Hx. apply elem_of_seqZ in Hx. lia.
  - intros x Hx. by rewrite (Hgf x Hx).
  - intros x Hx. by rewrite (Hgf x Hx).
Qed.

(** X17.  A walk that starts before the first cluster and ends after its
    first sector, under the conditions of X16 and when the 8-sector reads
    of the pre-data loop at the sectors from [s] up to the first cluster
    succeed as well: the pre-data loop and the cluster loop together give
    the callback exactly the selected sectors of [s, e], in ascending order,
    each once, with the flags [fatfs_block_getflags] reports plus RAW and
    the bytes of the image, and the walk returns 0. *)
Theorem fatfs_block_walk_across (a0 : A) :
  cache_wf N f -> cache_coherent B image f ->
  firstdatasect f <= firstclustsect f ->
  0 <= s -> first_block (fs_info f) <= s -> s < firstclustsect f ->
  firstclustsect f < e -> e <= last_block (fs_info f) ->
  (forall addr old,
     s <= addr < firstclustsect f ->
     fst (rd (addr * block_size (fs_info f))
             (block_size (fs_info f) * 8) old)
     = block_size (fs_info f) * 8) ->
  let getflags x := snd (fatfs_block_getflags N S B rd junk f x) in
  exists f',
    fatfs_block_walk N S B rd junk f s e flags a_action a0
    = Some (f', 0,
            deliver a_action a0
              ((fun x => image_block image (fs_info f) x (getflags x))
                 <$> filter (fun x => walk_selects flags (getflags x))
                       (seqZ s (e - s + 1)))) /\
    walk_inv N B image f f'.
Proof.
  intros Hwf Hcoh Hfds Hs0 Hfb Hs He Hlb Hpre getflags.
  pose proof e_bound as Hebound.
  pose proof block_size_nonneg as Hbs.
  assert (Hklo : (Z.max s (firstclustsect f) - firstclustsect f) / csize f
                 <= 0)
    by (rewrite Z.max_r, Z.sub_diag by lia; rewrite Zdiv_0_l; lia).
  assert (Hgf : forall x, (firstclustsect f) <= x <= e ->
            getflags x = cluster_flags_on_disk image f x).
  { intros x Hx. apply fatfs_block_getflags_disk; try done; lia. }
  assert (Hpf : forall x, x < (firstclustsect f) -> getflags x = predata_flags f x).
  { intros x Hx. unfold getflags, fatfs_block_getflags, predata_flags.
    destruct (x <? firstdatasect f); [done|].
    by destruct (Z.ltb_spec x (firstclustsect f)); [|lia]. }
  assert (Hps : forall x, x < (firstclustsect f) ->
            walk_selects flags (getflags x)
            = has_flag (walk_flags_norm flags) TSK_FS_BLOCK_WALK_FLAG_ALLOC &&
              predata_selected f (walk_flags_norm flags) x).
  { intros x Hx. rewrite (Hpf x Hx).
    unfold predata_flags, predata_selected.
    destruct (x <? firstdatasect f); reflexivity. }
  (* the list of the range, and what each half contributes *)
  assert (Hsplit : seqZ s (e - s + 1)
                   = seqZ s ((firstclustsect f) - s) ++ seqZ (firstclustsect f) (e + 1 - (firstclustsect f))).
  { replace (e - s + 1)
      with ((firstclustsect f - s) + (e + 1 - firstclustsect f)) by lia.
    rewrite seqZ_app by lia. f_equal. f_equal. lia. }
  assert (Hdata : forall a,
    foldl (data_step image a_action f s flags) a (seqZ (firstclustsect f) (e + 1 - (firstclustsect f)))
    = deliver a_action a
        ((fun x => image_block image (fs_info f) x (getflags x))
           <$> filter (fun x => walk_selects flags (getflags x))
                 (seqZ (firstclustsect f) (e + 1 - (firstclustsect f))))).
  { intros a. rewrite data_fold_filter.
    2:{ apply Forall_forall. intros x Hx. apply elem_of_seqZ in Hx. lia. }
    f_equal. symmetry.
    apply (fmap_filter_ext (fun x => (firstclustsect f) <= x <= e)).
    - apply Forall_forall. intros x Hx. apply elem_of_seqZ in Hx. lia.
    - intros x Hx. by rewrite (Hgf x Hx).
    - intros x Hx. by rewrite (Hgf x Hx). }
  assert (Hpre_range : Forall (fun x => x < (firstclustsect f)) (seqZ s ((firstclustsect f) - s))).
  { apply Forall_forall. intros x Hx. apply elem_of_seqZ in Hx. lia. }
  assert (Haddr0 : FATFS_CLUST_2_SECT f (FATFS_SECT_2_CLUST f (firstclustsect f))
                   = (firstclustsect f) + 0 * csize f).
  { destruct (sect_cluster 0 0 ltac:(lia) ltac:(lia)
                ltac:(lia)) as [Hc _].
    replace (firstclustsect f + 0 * csize f + 0) with (firstclustsect f) in Hc
      by lia.
    rewrite Hc. unfold FATFS_CLUST_2_SECT.
    change (u64 (2 + 0 - 2)) with 0. apply u64_small. lia. }
  assert (Hloop : forall a,
    exists f',
      data_loop N S B rd junk a_action s e (walk_flags_norm flags)
        (Datatypes.S (Datatypes.S (Z.to_nat (e - ((firstclustsect f) + 0 * csize f)))))
        f ((firstclustsect f) + 0 * csize f)
        (tsk_malloc (block_size (fs_info f) * csize f)) a
      = Some (f', 0,
              deliver a_action a
                ((fun x => image_block image (fs_info f) x (getflags x))
                   <$> filter (fun x => walk_selects flags (getflags x))
                         (seqZ (firstclustsect f) (e + 1 - (firstclustsect f))))) /\
      walk_inv N B image f f').
  { intros a.
    destruct (data_loop_run
                (Datatypes.S (Datatypes.S
                   (Z.to_nat (e - ((firstclustsect f) + 0 * csize f)))))
                f 0 (tsk_malloc (block_size (fs_info f) * csize f)) a
                ltac:(split; [done|split; [done|apply same_geometry_refl]])
                Hklo ltac:(lia)) as (f' & Heq & Hinv').
    exists f'. split; [|done]. rewrite Heq.
    do 2 f_equal. rewrite <- Hdata. f_equal. f_equal; lia. }
  unfold fatfs_block_walk. cbv zeta.
  change (if (Z.land
               (if (Z.land flags TSK_FS_BLOCK_WALK_FLAG_ALLOC =? 0) &&
                   (Z.land flags TSK_FS_BLOCK_WALK_FLAG_UNALLOC =? 0)
                then Z.lor flags
                       (Z.lor TSK_FS_BLOCK_WALK_FLAG_ALLOC
                          TSK_FS_BLOCK_WALK_FLAG_UNALLOC)
                else flags) TSK_FS_BLOCK_WALK_FLAG_META =? 0) &&
             (Z.land
               (if (Z.land flags TSK_FS_BLOCK_WALK_FLAG_ALLOC =? 0) &&
                   (Z.land flags TSK_FS_BLOCK_WALK_FLAG_UNALLOC =? 0)
                then Z.lor flags
                       (Z.lor TSK_FS_BLOCK_WALK_FLAG_ALLOC
                          TSK_FS_BLOCK_WALK_FLAG_UNALLOC)
                else flags) TSK_FS_BLOCK_WALK_FLAG_CONT =? 0)
          then _ else _) with (walk_flags_norm flags).
  destruct (Z.ltb_spec s (first_block (fs_info f))); [lia|].
  destruct (Z.ltb_spec (last_block (fs_info f)) s); [lia|].
  destruct (Z.ltb_spec e (first_block (fs_info f))); [lia|].
  destruct (Z.ltb_spec (last_block (fs_info f)) e); [lia|]. cbn [orb].
  destruct (Z.ltb_spec s (firstclustsect f)); [|lia]. cbn [andb].
  rewrite Hsplit, filter_app, fmap_app.
  unfold deliver at 1. rewrite foldl_app.
  fold (deliver a_action a0
          ((fun x => image_block image (fs_info f) x (getflags x))
             <$> filter (fun x => walk_selects flags (getflags x))
                   (seqZ s ((firstclustsect f) - s)))).
  match goal with
  | |- context [foldl _ ?a1 (_ <$> filter _ (seqZ (firstclustsect f) (e + 1 - (firstclustsect f))))] =>
      fold (deliver a_action a1
              ((fun x => image_block image (fs_info f) x (getflags x))
                 <$> filter (fun x => walk_selects flags (getflags x))
                       (seqZ (firstclustsect f) (e + 1 - (firstclustsect f)))))
  end.
  destruct (has_flag (walk_flags_norm flags) TSK_FS_BLOCK_WALK_FLAG_ALLOC)
    eqn:Halloc.
  - rewrite (predata_loop_clip rd a_action e ((firstclustsect f) - 1)
               (walk_flags_norm flags) f).
    2:{ intros addr Ha.
        destruct (Z.leb_spec addr e), (Z.leb_spec addr ((firstclustsect f) - 1)); lia. }
    rewrite (predata_loop_run rd image a_action f s ((firstclustsect f) - 1)
               (walk_flags_norm flags) rd_image
               ltac:(intros addr old Ha; apply Hpre; lia) cb_cont Hs0
               ltac:(lia) ltac:(lia) Hbs) by lia.
    replace ((firstclustsect f) - 1 + 1) with (firstclustsect f) by lia.
    destruct (Z.leb_spec e (firstclustsect f)); [lia|].
    rewrite Haddr0, predata_fold_filter.
    replace ((fun addr => image_block image (fs_info f) addr
                            (predata_flags f addr))
               <$> filter (fun addr => predata_selected f
                                         (walk_flags_norm flags) addr)
                     (seqZ s ((firstclustsect f) - s)))
      with ((fun x => image_block image (fs_info f) x (getflags x))
              <$> filter (fun x => walk_selects flags (getflags x))
                    (seqZ s ((firstclustsect f) - s))).
    + apply Hloop.
    + apply (fmap_filter_ext (fun x => x < (firstclustsect f))); [done| |].
      * intros x Hx. by rewrite (Hps x Hx).
      * intros x Hx. by rewrite (Hpf x Hx).
  - rewrite Haddr0.
    rewrite (filter_none (fun x => x < (firstclustsect f))
               (fun x => walk_selects flags (getflags x))); [|done|].
    2:{ intros x Hx. by rewrite (Hps x Hx). }
    apply Hloop.
Qed.

End DataWalk.

(** The finite reader delivers its image, and refuses what lies outside. *)
Lemma finite_reader_reads_image (size : Z) (image : Z -> byte) :
  reads_image (finite_reader size image) image.
Proof.
  intros off len old. unfold finite_reader.
  destruct (_ && _); simpl; [done|]. by intros <-.
Qed.

(** Witness of X16: the demo volume on an image of 126 sectors (64512
    bytes), where a read that passes the end fails, with the FAT of
    scenario S1 (cluster 2 -> 3 -> end of chain, everything else free): the
    walk over sectors 24..27, the sectors of clusters 2..5, that asks for
    allocated blocks gives the callback sectors 24 and 25. *)
Lemma fatfs_block_walk_clusters_witness :
  fst (finite_reader 64512 s1_image 64512 512 []) = -1 /\
  option_map (fun r => map blk_addr (snd r))
    (fatfs_block_walk 4 8 4096 (finite_reader 64512 s1_image) 0
       (fat_demo TSK_FS_TYPE_FAT16) 24 27 TSK_FS_BLOCK_WALK_FLAG_ALLOC
       record_cb [])
  = Some [24; 25].
Proof.
  split; [reflexivity|].
  destruct (cache_init_coherent 4 4096 s1_image ltac:(lia)
              (mkFatfs (mkFsInfo TSK_FS_TYPE_FAT16 TSK_LIT_ENDIAN 512 0 125
                          125 2 4000)
                 (replicate 4 (tsk_malloc 4096)) [] []
                 1 8 24 100 101 8 512 9 1 1 7 512
                 (fat_mask TSK_FS_TYPE_FAT16)) eq_refl) as [Hwf Hcoh].
  unshelve epose proof
    (fatfs_block_walk_clusters 4 8 4096 (finite_reader 64512 s1_image) 0
       s1_image record_cb (fat_demo TSK_FS_TYPE_FAT16) 24 27
       TSK_FS_BLOCK_WALK_FLAG_ALLOC _ _ _ _ _ _ _ _ _ _ _ _ [] Hwf Hcoh
       _ _ _ _ _) as [_ (f' & Heq & _)].
  - lia.
  - apply finite_reader_reads_image.
  - by intros b a.
  - vm_compute; repeat split; discriminate || reflexivity.
  - by left.
  - vm_compute; discriminate.
  - vm_compute; discriminate.
  - vm_compute; reflexivity.
  - vm_compute; discriminate.
  - vm_compute; discriminate.
  - intros k old [Hlo Hhi].
    assert (Hk : 0 <= k <= 3) by (split; [exact Hlo|exact Hhi]).
    assert (Hc : k = 0 \/ k = 1 \/ k = 2 \/ k = 3) by lia.
    destruct Hc as [->|[->|[->| ->]]]; vm_compute; reflexivity.
  - intros k old [Hlo Hhi].
    assert (Hk : 0 <= k <= 3) by (split; [exact Hlo|exact Hhi]).
    assert (Hc : k = 0 \/ k = 1 \/ k = 2 \/ k = 3) by lia.
    destruct Hc as [->|[->|[->| ->]]]; vm_compute; reflexivity.
  - vm_compute; discriminate.
  - vm_compute; discriminate.
  - vm_compute; discriminate.
  - lia.
  - vm_compute; discriminate.
  - rewrite Heq. vm_compute. reflexivity.
Defined.

(** Witness of X17: on the same finite image the walk over sectors 20..27
    of the demo volume that asks for allocated blocks gives the callback
    the root-directory sectors 20..23 and the sectors 24 and 25 of the
    allocated clusters 2 and 3. *)
Lemma fatfs_block_walk_across_witness :
  fst (finite_reader 64512 s1_image 61440 4096 []) = -1 /\
  option_map (fun r => map blk_addr (snd r))
    (fatfs_block_walk 4 8 4096 (finite_reader 64512 s1_image) 0
       (fat_demo TSK_FS_TYPE_FAT16) 20 27 TSK_FS_BLOCK_WALK_FLAG_ALLOC
       record_cb [])
  = Some [20; 21; 22; 23; 24; 25].
Proof.
  split; [reflexivity|].
  destruct (cache_init_coherent 4 4096 s1_image ltac:(lia)
              (mkFatfs (mkFsInfo TSK_FS_TYPE_FAT16 TSK_LIT_ENDIAN 512 0 125
                          125 2 4000)
                 (replicate 4 (tsk_malloc 4096)) [] []
                 1 8 24 100 101 8 512 9 1 1 7 512
                 (fat_mask TSK_FS_TYPE_FAT16)) eq_refl) as [Hwf Hcoh].
  unshelve epose proof
    (fatfs_block_walk_across 4 8 4096 (finite_reader 64512 s1_image) 0
       s1_image record_cb (fat_demo TSK_FS_TYPE_FAT16) 20 27
       TSK_FS_BLOCK_WALK_FLAG_ALLOC _ _ _ _ _ _ _ _ _ _ _ _ [] Hwf Hcoh
       _ _ _ _ _ _ _) as (f' & Heq & _).
  - lia.
  - apply finite_reader_reads_image.
  - by intros b a.
  - vm_compute; repeat split; discriminate || reflexivity.
  - by left.
  - vm_compute; discriminate.
  - vm_compute; discriminate.
  - vm_compute; reflexivity.
  - vm_compute; discriminate.
  - vm_compute; discriminate.
  - intros k old [Hlo Hhi].
    assert (Hk : 0 <= k <= 3) by (split; [exact Hlo|exact Hhi]).
    assert (Hc : k = 0 \/ k = 1 \/ k = 2 \/ k = 3) by lia.
    destruct Hc as [->|[->|[->| ->]]]; vm_compute; reflexivity.
  - intros k old [Hlo Hhi].
    assert (Hk : 0 <= k <= 3) by (split; [exact Hlo|exact Hhi]).
    assert (Hc : k = 0 \/ k = 1 \/ k = 2 \/ k = 3) by lia.
    destruct Hc as [->|[->|[->| ->]]]; vm_compute; reflexivity.
  - vm_compute; discriminate.
  - lia.
  - vm_compute; discriminate.
  - vm_compute; reflexivity.
  - vm_compute; reflexivity.
  - vm_compute; discriminate.
  - intros addr old Ha.
    assert (Hk : 20 <= addr < 24) by exact Ha.
    assert (Hc : addr = 20 \/ addr = 21 \/ addr = 22 \/ addr = 23) by lia.
    destruct Hc as [->|[->|[->| ->]]]; vm_compute; reflexivity.
  - rewrite Heq. vm_compute. reflexivity.
Defined.

(** ** A failed read and the cache *)

Section CacheFailure.

Variable N : nat.
Variables (S B : Z).
Variable rd : Z -> Z -> list byte -> Z * list byte.
Variable image : Z -> byte.
Hypothesis N_pos : (0 < N)%nat.

(** X18.  A request that fails (the read of the sector is short or
    fails).  Whatever the state of the cache: no slot covered the sector,
    the error is that of the read, the TTLs, the addresses and the geometry
    are as they were, and the only buffer written is that of the slot chosen
    for replacement, which holds what the reader left there.  A well-formed
    cache stays well formed.  While the cache still has an unused slot the
    slot chosen is an unused one, so a coherent cache stays coherent: no
    slot in use has lost its bytes.  When the cache is full the slot chosen
    is the one of TTL [N], a slot in use: its buffer has been written while
    its TTL and address still stand for the sector it held. *)
Theorem cache_failed_read_coherent (f f' : FATFS_INFO) (sect : Z)
    (e : TSK_ERR) :
  getFATCacheIdx N S B rd f sect = (f', inl e) ->
  let c := find_victim N (fatc_ttl f) in
  let r := rd (u64 (sect * block_size (fs_info f))) B
             (default [] (fatc_buf f !! c)) in
  (List.find (slot_covers S f sect) (seq 0 N) = None /\
   fst r ≠ B /\
   e = (if 0 <=? fst r then TSK_ERR_FS_READ else TSK_ERR_KEPT) /\
   fatc_ttl f' = fatc_ttl f /\ fatc_addr f' = fatc_addr f /\
   fatc_buf f' = <[c := snd r]> (fatc_buf f) /\
   (forall j : nat, j ≠ c -> fatc_buf f' !! j = fatc_buf f !! j) /\
   same_geometry f f') /\
  (cache_wf N f -> cache_wf N f') /\
  (cache_wf N f -> cache_coherent B image f ->
   (exists z : nat, fatc_ttl f !! z = Some 0) ->
   fatc_ttl f !! c = Some 0 /\ cache_coherent B image f') /\
  (cache_wf N f -> (forall z : nat, fatc_ttl f !! z ≠ Some 0) ->
   fatc_ttl f' !! c = Some (Z.of_nat N) /\
   fatc_buf f' !! c = Some (snd r)).
Proof.
  intros Hcall c r. subst c r.
  unfold getFATCacheIdx in Hcall.
  destruct (List.find _ _) eqn:Hfind; [done|].
  destruct (rd _ _ _) as [cnt buf] eqn:Hrd.
  destruct (Z.eqb_spec cnt B) as [|Hne]; [done|]. cbn [negb] in Hcall.
  injection Hcall as <- <-. unfold set_fatc_buf, set_cache.
  cbn [fst snd fatc_ttl fatc_addr fatc_buf].
  split; [|split; [|split]].
  - split; [done|]. split; [done|]. split; [done|]. split; [done|].
    split; [done|]. split; [done|].
    split; [by intros j Hj; rewrite list_lookup_insert_ne|].
    by repeat split.
  - intros (Hinv & Hla & Hlb & Hnn).
    split; [done|]. split; [done|].
    cbn [fatc_buf fatc_addr]. split; [by rewrite length_insert|done].
  - intros (Hinv & Hla & Hlb & Hnn) Hcoh [z Hz].
    destruct (find_victim_genuine N N_pos _ Hinv) as (Hlt & t & Ht & Hcand).
    pose proof (inv_zero_small N N_pos (fatc_ttl f) z Hinv Hz _ _ Ht)
      as Hsmall.
    assert (t = 0) as -> by lia.
    split; [done|].
    intros i ti a Hti Hpos Ha.
    cbn [fatc_ttl fatc_addr fatc_buf fs_info] in *.
    destruct (decide (i = find_victim N (fatc_ttl f))) as [->|Hni].
    + rewrite Ht in Hti. injection Hti as <-. lia.
    + rewrite list_lookup_insert_ne by done. by apply (Hcoh i ti a).
  - intros (Hinv & Hla & Hlb & Hnn) Hnz.
    destruct (find_victim_genuine N N_pos _ Hinv) as (Hlt & t & Ht & Hcand).
    pose proof (inv_range _ _ Hinv _ _ Ht) as Hr.
    destruct Hcand as [->|Hge]; [by apply Hnz in Ht|].
    split.
    + rewrite Ht. f_equal. lia.
    + apply list_lookup_insert_eq. lia.
Qed.

End CacheFailure.

(** Witness of X18: the full demo cache (sectors 1, 100, 200, 300 loaded)
    and a reader that fails.  The request for sector 400 fails, the TTLs
    are as before, and the slot written is slot 3, which is in use with
    TTL 4. *)
Lemma cache_failed_read_coherent_witness :
  let r := getFATCacheIdx 4 8 4096 (fun _ _ old => (-1, old))
             cache_demo4 400 in
  snd r = inl TSK_ERR_KEPT /\
  fatc_ttl (fst r) = fatc_ttl cache_demo4 /\
  fatc_ttl (fst r) !! 3%nat = Some 4.
Proof.
  intros r.
  assert (Hr : r = (fst r, inl TSK_ERR_KEPT)) by (vm_compute; reflexivity).
  assert (Hreach : cache_reachable 4 8 4096 (fill_reader x00) cache_demo4
                     (Some 0%nat)).
  { apply (reach_acquire 4 8 4096 _ cache_demo3 (Some 1%nat) 300);
      [|vm_compute; reflexivity].
    apply (reach_acquire 4 8 4096 _ cache_demo2 (Some 2%nat) 200);
      [|vm_compute; reflexivity].
    apply (reach_acquire 4 8 4096 _ cache_demo1 (Some 3%nat) 100);
      [|vm_compute; reflexivity].
    apply (reach_acquire 4 8 4096 _ (fat_demo TSK_FS_TYPE_FAT16) None 1);
      [|vm_compute; reflexivity].
    apply reach_open. }
  assert (Hwf : cache_wf 4 cache_demo4).
  { split; [exact (proj1 (cache_reachable_inv 4 8 4096 (fill_reader x00)
                            ltac:(lia) _ _ Hreach))|].
    split; [reflexivity|]. split; [reflexivity|].
    intros i a.
    destruct i as [|[|[|[|i]]]]; vm_compute; intros [= <-]; discriminate. }
  pose proof (cache_failed_read_coherent 4 8 4096
                (fun _ _ old => (-1, old)) s1_image ltac:(lia)
                cache_demo4 (fst r) 400 TSK_ERR_KEPT Hr)
    as ((_ & _ & _ & Httl & _) & _ & _ & Hfull).
  split; [by rewrite Hr|]. split; [exact Httl|].
  refine (proj1 (Hfull Hwf _)).
  intros z. destruct z as [|[|[|[|z]]]]; vm_compute; discriminate.
Defined.

(** ** The flavour of an opened volume *)

(** A request to open a volume as FAT12 is refused whatever the image: the
    check against 4085 clusters (fatfs.c:1542-1553) fails on every row of
    the geometry table. *)
Lemma fatfs_open_fat12_refused (N : nat) (B FIRSTINO NUMSPEC : Z)
    (S2I : Z -> Z -> Z) (img_size offset : Z) (bs : option boot_sector) :
  fatfs_open N B FIRSTINO NUMSPEC S2I img_size offset TSK_FS_TYPE_FAT12 bs
  = None.
Proof.
  unfold fatfs_open. change (negb (TSK_FS_TYPE_ISFAT TSK_FS_TYPE_FAT12))
    with false. cbv iota.
  destruct bs as [sb|]; [|done].
  destruct (negb _); [done|]. destruct (_ || _); [done|].
  destruct (xtaf_geometry img_size offset) as [[[[r spf] cc] lc]|] eqn:Hgeo;
    [|done].
  apply xtaf_geometry_clustcnt in Hgeo as [Hcc _].
  destruct (spf =? 0); [done|]. destruct (_ || _); [done|].
  by destruct (Z.leb_spec 4085 cc); [|lia].
Qed.

(** A request for a cache slot fails only with the error of its read. *)
Lemma getFATCacheIdx_errors (N : nat) (S B : Z)
    (rd : Z -> Z -> list byte -> Z * list byte) (f f' : FATFS_INFO)
    (sect : Z) (e : TSK_ERR) :
  getFATCacheIdx N S B rd f sect = (f', inl e) ->
  e = TSK_ERR_FS_READ \/ e = TSK_ERR_KEPT.
Proof.
  unfold getFATCacheIdx. destruct (List.find _ _); [done|].
  destruct (rd _ _ _) as [cnt buf]. destruct (negb _); [|done].
  intros [= _ <-]. destruct (0 <=? cnt); auto.
Qed.

(** X19.  No volume is opened as FAT12.  Every volume [fatfs_open] returns
    has at least 8192 clusters and was not asked for as FAT12 (the check
    against 4085 clusters refuses every such request); its flavour is the
    FAT16 or FAT32 that was asked for, and with auto-detection FAT16 below
    0xfff4 clusters and FAT32 from there on.  So in every state of an
    opened volume, whatever its cache holds by then, the lookup of a cluster
    up to [lastclust] never ends in the argument error: it succeeds, or it
    fails with the error of a failed read. *)
Theorem fatfs_open_never_fat12 (N : nat) (S B FIRSTINO NUMSPEC : Z)
    (S2I : Z -> Z -> Z) (rd : Z -> Z -> list byte -> Z * list byte)
    (img_size offset : Z) (ftype0 : TSK_FS_TYPE_ENUM)
    (bs : option boot_sector) (f : FATFS_INFO) :
  fatfs_open N B FIRSTINO NUMSPEC S2I img_size offset ftype0 bs = Some f ->
  ftype0 ≠ TSK_FS_TYPE_FAT12 /\
  8192 <= clustcnt f /\
  ftype (fs_info f)
  = match ftype0 with
    | TSK_FS_TYPE_FAT16 => TSK_FS_TYPE_FAT16
    | TSK_FS_TYPE_FAT32 => TSK_FS_TYPE_FAT32
    | _ => if clustcnt f <? 0xfff4 then TSK_FS_TYPE_FAT16
           else TSK_FS_TYPE_FAT32
    end /\
  forall f1 clust v,
    same_geometry f f1 -> clust <= lastclust f ->
    snd (fst (fatfs_getFAT N S B rd f1 clust v)) = None \/
    snd (fst (fatfs_getFAT N S B rd f1 clust v)) = Some TSK_ERR_FS_READ \/
    snd (fst (fatfs_getFAT N S B rd f1 clust v)) = Some TSK_ERR_KEPT.
Proof.
  intros Hopen.
  assert (Hne : ftype0 ≠ TSK_FS_TYPE_FAT12).
  { intros ->. by rewrite fatfs_open_fat12_refused in Hopen. }
  split; [exact Hne|].
  assert (Hisfat : TSK_FS_TYPE_ISFAT ftype0 = true).
  { unfold fatfs_open in Hopen.
    by destruct (TSK_FS_TYPE_ISFAT ftype0). }
  assert (Hasked : ftype0 = TSK_FS_TYPE_FAT16 \/ ftype0 = TSK_FS_TYPE_FAT32
                   -> ftype (fs_info f) = ftype0).
  { intros Hft. unfold fatfs_open in Hopen.
    destruct (negb (TSK_FS_TYPE_ISFAT ftype0)); [done|].
    destruct bs as [sb|]; [|done].
    destruct (negb _); [done|]. destruct (_ || _); [done|].
    destruct (xtaf_geometry img_size offset) as [[[[r spf] cc] lc]|];
      [|done].
    destruct (spf =? 0); [done|]. destruct (_ || _); [done|].
    destruct Hft as [-> | ->]; simpl in Hopen; by injection Hopen as <-. }
  apply fatfs_open_inv in Hopen
    as (fs & r & spf & cc & lc & cs & nfat & msk & -> & Hgeo & _ & _ & _ &
        _ & Hflav & Hdet & _ & _).
  apply xtaf_geometry_clustcnt in Hgeo as [Hcc _].
  split; [exact Hcc|]. split.
  - change (clustcnt (cache_init N _)) with cc.
    change (fs_info (cache_init N _)) with fs in *.
    destruct ftype0; try done.
    + by apply Hasked; left.
    + by apply Hasked; right.
    + by apply Hdet.
  - intros f1 clust v (Hfs & Hl & _) Hc.
    change (fs_info (cache_init N _)) with fs in Hfs.
    change (lastclust (cache_init N _)) with lc in Hl, Hc.
    unfold fatfs_getFAT. rewrite Hl, Hfs.
    destruct (Z.ltb_spec lc clust); [lia|].
    destruct Hflav as [-> | ->].
    + destruct (getFAT16_raw N S B rd f1 clust) as [f2 [e|x]] eqn:Hraw;
        [|by left].
      right. unfold getFAT16_raw in Hraw.
      destruct (getFATCacheIdx N S B rd f1 _) as [f3 [e'|c]] eqn:Hidx;
        [|done].
      injection Hraw as _ <-.
      apply getFATCacheIdx_errors in Hidx as [-> | ->]; auto.
    + destruct (getFAT32_raw N S B rd f1 clust) as [f2 [e|x]] eqn:Hraw;
        [|by left].
      right. unfold getFAT32_raw in Hraw.
      destruct (getFATCacheIdx N S B rd f1 _) as [f3 [e'|c]] eqn:Hidx;
        [|done].
      injection Hraw as _ <-.
      apply getFATCacheIdx_errors in Hidx as [-> | ->]; auto.
Qed.

(** Witness of X19: the 256 MiB system partition is refused as FAT12 and
    opened as FAT16 by auto-detection; the lookup of its last cluster,
    16381, succeeds on a readable image and fails with the read error when
    the reader delivers nothing. *)
Lemma fatfs_open_never_fat12_witness :
  open_demo TSK_FS_TYPE_FAT12 = None /\
  ftype (fs_info opened_demo) = TSK_FS_TYPE_FAT16 /\
  snd (fst (fatfs_getFAT 4 8 4096 (fill_reader x00) opened_demo 16381 7))
  = None /\
  snd (fst (fatfs_getFAT 4 8 4096 (fun _ _ old => (0, old)) opened_demo
              16381 7))
  = Some TSK_ERR_FS_READ.
Proof.
  split; [vm_compute; reflexivity|].
  destruct (fatfs_open_never_fat12 4 8 4096 2 4
              (fun fds s => (s - fds) * 16 + 3) (fill_reader x00)
              268435456 0 TSK_FS_TYPE_FAT_DETECT
              (Some (mkBoot TSK_BIG_ENDIAN 32 1)) opened_demo
              open_demo_detect) as (_ & _ & Hft & Hget).
  split; [rewrite Hft; vm_compute; reflexivity|]. split.
  - destruct (Hget opened_demo 16381 7 (same_geometry_refl _)
                ltac:(vm_compute; discriminate)) as [H|[H|H]];
      [exact H|vm_compute in H; discriminate..].
  - vm_compute. reflexivity.
Defined.
